(** * The BBC Good Food scraping script, embedded and verified

    A shallow embedding of [recipe_scraping_script.py]: the three retry
    loops, the page and link loops with their accumulator lists, the
    nutrition clean-up, the data frames and the database load.

    Conventions of the embedding.
    - A Python [dict] is a [gmap]; the insertion order of its keys (the
      column order of a data frame) is not represented.
    - The network is a function [web] from the number of requests issued
      so far and a URL to the outcome of [requests.get] followed by
      [raise_for_status]: [Some r] is a response, [None] is a
      [RequestException].
    - The database is a function [db] from a database call to the
      exception that the call raises, if any.  The connection and the
      engine are made when [scripts.sql_connection] is imported, before
      the first line of the script; the import is taken to succeed.
    - What the script does to the outside world is recorded, in order,
      in the [trace] of the state: requests, sleeps and database calls
      (a call is recorded when it is issued, whether it raises or not).
      Calls to [print] are not recorded.
    - The functions imported from [scripts/] are parameters of the
      development (total and free of side effects). *)

From Stdlib Require Import ZArith Lia List.
From stdpp Require Import base decidable option list strings pretty gmap fin_maps.

(** ** Python exceptions that end the script *)

Inductive exn :=
  | SystemExit (code : Z)
  | NameError (name : string)
  | ValueError (msg : string)
  | AttributeError
  | IndexError
  | KeyError (key : string)
  | OverflowError
  | ZeroDivisionError
  | SQLAlchemyError (message : string).

(** A computation that may raise: [inl e] is the exception raised.
    [x ← c; k] runs [k] unless [c] has raised. *)
#[global] Instance exn_bind : MBind (sum exn) :=
  λ A B k c, match c with inl e => inl e | inr a => k a end.

(** ** Integer true division and [math.ceil]

    [number_of_recipes / 30] is Python's true division of two [int]s: the
    exact quotient rounded to the nearest binary64 value, ties to even,
    or [OverflowError] when that is beyond the largest float.  The value
    is kept as [mant * 2 ^ expo]. *)

Module Float.
Local Open Scope Z_scope.

Record dyadic := Dyadic { mant : Z; expo : Z }.

(** [n / d] rounded to the nearest integer, ties to even
    ([0 <= n], [0 < d]). *)
Definition round_half_even (n d : Z) : Z :=
  let q := n / d in
  let r := n mod d in
  if 2 * r <? d then q
  else if d <? 2 * r then q + 1
  else if Z.even q then q else q + 1.

(** [floor (log2 (a / b))] for [0 < a], [0 < b]. *)
Definition quotient_log2 (a b : Z) : Z :=
  let d := Z.log2 a - Z.log2 b in
  if b * 2 ^ Z.max d 0 <=? a * 2 ^ Z.max (- d) 0 then d else d - 1.

(** [a / b] on [int]s. *)
Definition int_true_divide (a b : Z) : exn + dyadic :=
  if b =? 0 then inl ZeroDivisionError
  else if a =? 0 then inr (Dyadic 0 0)
  else
    let a' := Z.abs a in
    let b' := Z.abs b in
    let l := quotient_log2 a' b' in
    if 1023 <? l then inl OverflowError
    else
      let e := Z.max l (-1022) - 52 in
      let m := round_half_even (a' * 2 ^ Z.max (- e) 0) (b' * 2 ^ Z.max e 0) in
      if 2 ^ 1024 <=? m * 2 ^ e then inl OverflowError
      else inr (Dyadic (Z.sgn a * Z.sgn b * m) e).

(** [math.ceil] of a finite float. *)
Definition ceil (x : dyadic) : Z :=
  if 0 <=? expo x then mant x * 2 ^ expo x
  else - ((- mant x) / 2 ^ (- expo x)).

End Float.

(** Line 50: [number_of_pages = math.ceil(number_of_recipes / 30)]. *)
Definition number_of_pages (number_of_recipes : Z) : exn + Z :=
  match Float.int_true_divide number_of_recipes 30 with
  | inl e => inl e
  | inr x => inr (Float.ceil x)
  end.

(** ** Strings *)

(** [value[:-1]]: the string without its last character (the empty
    string stays empty). *)
Fixpoint drop_last (s : string) : string :=
  match s with
  | EmptyString => EmptyString
  | String c EmptyString => EmptyString
  | String c rest => String c (drop_last rest)
  end.

(** ** Script constants (lines 17-23, 63, 163) *)

Definition filtered_page_url : string := "https://www.bbcgoodfood.com/search?".
Definition base_url : string := "https://www.bbcgoodfood.com".
Definition max_retries : nat := 3.
Definition retry_delay : nat := 5.

Definition nutritional_desired_keys : list string :=
  ["kcal"; "fat"; "saturates"; "carbs"; "sugars"; "fibre"; "protein"; "salt"].

Definition keys : list string :=
  ["kcal"; "fat"; "saturates"; "carbs"; "sugars"; "fibre"; "protein"; "salt"].

(** ** The imported extractors

    [Response] is what [requests.get] returns (also standing for the
    parsed document made from it), [Status] the type of a category flag.
    [results_count] stands for lines 47-49: finding the results text,
    splitting it and converting the sixth token with [int], any of which
    may raise.  The nutrition cells are given by their [.text]. *)

Class Scripts (Response Status : Type) := {
  results_count : Response → exn + Z;
  get_recipe_links : Response → string → list string;
  get_recipe_name : Response → string;
  get_recipe_cooking_time : Response → string;
  get_recipe_nutritional_values : Response → list string * list string;
  get_recipe_categories : Response → gmap string Status;
  get_recipe_ingredients : Response → list string
}.

(** ** Data frames *)

Inductive cell (Status : Type) :=
  | Text (s : string)
  | Number (z : Z)
  | Flag (x : Status)
  | Missing.
Arguments Text {Status} s.
Arguments Number {Status} z.
Arguments Flag {Status} x.
Arguments Missing {Status}.

Record DataFrame (Status : Type) := {
  df_rows : nat;
  df_columns : gmap string (list (cell Status))
}.
Arguments df_rows {Status} d.
Arguments df_columns {Status} d.

(** [pd.DataFrame(data)] for a dictionary of lists: the lists must all
    have one length, which is the number of rows. *)
Definition pd_DataFrame {Status} (data : gmap string (list (cell Status)))
    : exn + DataFrame Status :=
  match map_to_list data with
  | [] => inr {| df_rows := 0; df_columns := data |}
  | (_, col) :: _ =>
      if decide (map_Forall (λ _ c, length c = length col) data)
      then inr {| df_rows := length col; df_columns := data |}
      else inl (ValueError "All arrays must be of the same length")
  end.

(** [df.insert(0, 'recipe_id', df.index + 1)]: the index of a frame built
    from a dictionary is [0 .. rows - 1]; inserting an existing column
    name raises. *)
Definition insert_recipe_id {Status} (df : DataFrame Status)
    : exn + DataFrame Status :=
  match df_columns df !! "recipe_id" with
  | Some _ => inl (ValueError "cannot insert recipe_id, already exists")
  | None =>
      inr {| df_rows := df_rows df;
             df_columns :=
               <["recipe_id" := Number <$> seqZ 1 (Z.of_nat (df_rows df))]>
                 (df_columns df) |}
  end.

(** The [recipe_id] values of a frame, top to bottom. *)
Definition recipe_id_column {Status} (df : DataFrame Status) : list (cell Status) :=
  default [] (df_columns df !! "recipe_id").

(** ** Events and state *)

Inductive request_kind := BasePage | ListingPage | RecipePage.

Inductive event (Response Status : Type) :=
  | Get (kind : request_kind) (url : string) (r : option Response)
  | Sleep (seconds : nat)
  | Begin
  | Execute (sql : string)
  | Commit
  | ToSql (table : string) (df : DataFrame Status)
  | Dispose.
Arguments Get {Response Status} kind url r.
Arguments Sleep {Response Status} seconds.
Arguments Begin {Response Status}.
Arguments Execute {Response Status} sql.
Arguments Commit {Response Status}.
Arguments ToSql {Response Status} table df.
Arguments Dispose {Response Status}.

(** The script's global variables, the number of requests issued and
    the trace.  [base_soup] and [soup] are [None] while unbound. *)
Record state (Response Status : Type) := {
  clock : nat;
  trace : list (event Response Status);
  base_soup : option Response;
  soup : option Response;
  used_recipe_links : list string;
  recipe_names : list string;
  successful_links : list string;
  recipe_cooking_times : list string;
  recipe_nutritional_data : list (gmap string (option string));
  recipe_category_information : gmap string (list Status);
  recipe_ingredients : list (list string)
}.
Arguments clock {Response Status} s.
Arguments trace {Response Status} s.
Arguments base_soup {Response Status} s.
Arguments soup {Response Status} s.
Arguments used_recipe_links {Response Status} s.
Arguments recipe_names {Response Status} s.
Arguments successful_links {Response Status} s.
Arguments recipe_cooking_times {Response Status} s.
Arguments recipe_nutritional_data {Response Status} s.
Arguments recipe_category_information {Response Status} s.
Arguments recipe_ingredients {Response Status} s.

Inductive result (Response Status : Type) :=
  | Ok (s : state Response Status)
  | Raise (e : exn) (s : state Response Status).
Arguments Ok {Response Status} s.
Arguments Raise {Response Status} e s.

Inductive outcome (Response Status : Type) :=
  | Finished (recipe_info_df nutrition_df ingredients_df : DataFrame Status)
             (s : state Response Status)
  | Aborted (e : exn) (s : state Response Status).
Arguments Finished {Response Status} recipe_info_df nutrition_df ingredients_df s.
Arguments Aborted {Response Status} e s.

Definition result_state {Response Status} (r : result Response Status) :=
  match r with Ok s => s | Raise _ s => s end.

Definition final_state {Response Status} (o : outcome Response Status) :=
  match o with Finished _ _ _ s => s | Aborted _ s => s end.

(** ** The script *)

Section Script.
Context {Response Status : Type} `{!Scripts Response Status}.

Abbreviation state := (state Response Status).
Abbreviation result := (result Response Status).
Abbreviation outcome := (outcome Response Status).
Abbreviation event := (event Response Status).

(** The outcome of the [n]-th request of the run, sent to [url]. *)
Variable web : nat → string → option Response.

(** The exception that a database call raises, if it raises. *)
Variable db : event → option exn.

Definition log (e : event) (s : state) : state :=
  {| clock := clock s; trace := trace s ++ [e];
     base_soup := base_soup s; soup := soup s;
     used_recipe_links := used_recipe_links s;
     recipe_names := recipe_names s;
     successful_links := successful_links s;
     recipe_cooking_times := recipe_cooking_times s;
     recipe_nutritional_data := recipe_nutritional_data s;
     recipe_category_information := recipe_category_information s;
     recipe_ingredients := recipe_ingredients s |}.

(** [requests.get(url)] and [raise_for_status()].  [kind] tells on the
    trace which of the three loops sent the request. *)
Definition requests_get (kind : request_kind) (url : string) (s : state)
    : option Response * state :=
  let r := web (clock s) url in
  (r, {| clock := S (clock s); trace := trace s ++ [Get kind url r];
         base_soup := base_soup s; soup := soup s;
         used_recipe_links := used_recipe_links s;
         recipe_names := recipe_names s;
         successful_links := successful_links s;
         recipe_cooking_times := recipe_cooking_times s;
         recipe_nutritional_data := recipe_nutritional_data s;
         recipe_category_information := recipe_category_information s;
         recipe_ingredients := recipe_ingredients s |}).

Definition time_sleep (seconds : nat) (s : state) : state :=
  log (Sleep seconds) s.

Definition set_base_soup (r : Response) (s : state) : state :=
  {| clock := clock s; trace := trace s;
     base_soup := Some r; soup := soup s;
     used_recipe_links := used_recipe_links s;
     recipe_names := recipe_names s;
     successful_links := successful_links s;
     recipe_cooking_times := recipe_cooking_times s;
     recipe_nutritional_data := recipe_nutritional_data s;
     recipe_category_information := recipe_category_information s;
     recipe_ingredients := recipe_ingredients s |}.

Definition set_soup (r : Response) (s : state) : state :=
  {| clock := clock s; trace := trace s;
     base_soup := base_soup s; soup := Some r;
     used_recipe_links := used_recipe_links s;
     recipe_names := recipe_names s;
     successful_links := successful_links s;
     recipe_cooking_times := recipe_cooking_times s;
     recipe_nutritional_data := recipe_nutritional_data s;
     recipe_category_information := recipe_category_information s;
     recipe_ingredients := recipe_ingredients s |}.

(** Line 154: [used_recipe_links.append(link)]. *)
Definition mark_used (link : string) (s : state) : state :=
  {| clock := clock s; trace := trace s;
     base_soup := base_soup s; soup := soup s;
     used_recipe_links := used_recipe_links s ++ [link];
     recipe_names := recipe_names s;
     successful_links := successful_links s;
     recipe_cooking_times := recipe_cooking_times s;
     recipe_nutritional_data := recipe_nutritional_data s;
     recipe_category_information := recipe_category_information s;
     recipe_ingredients := recipe_ingredients s |}.

(** Lines 25-41: the retry loop of the first listing request.  The loop
    runs over [range(max_retries)]; [break] ends it. *)
Fixpoint base_page_loop (attempts : list nat) (s : state) : result :=
  match attempts with
  | [] => Ok s
  | attempt :: rest =>
      match requests_get BasePage filtered_page_url s with
      | (Some r, s1) => Ok (set_base_soup r s1)
      | (None, s1) =>
          if attempt <? max_retries - 1
          then base_page_loop rest (time_sleep retry_delay s1)
          else Raise (SystemExit 1) s1
      end
  end.

(** Lines 71-87: the retry loop of one listing page. *)
Fixpoint page_loop (attempts : list nat) (page_url : string) (s : state) : state :=
  match attempts with
  | [] => s
  | attempt :: rest =>
      match requests_get ListingPage page_url s with
      | (Some r, s1) => set_soup r s1
      | (None, s1) =>
          if attempt <? max_retries - 1
          then page_loop rest page_url (time_sleep retry_delay s1)
          else s1
      end
  end.

(** Lines 122-127: the dictionary of the eight keys, all [None], then
    overlaid with the cells paired by [zip]. *)
Definition empty_nutritional_values : gmap string (option string) :=
  list_to_map ((λ key, (key, None)) <$> nutritional_desired_keys).

Definition fill_nutritional_values (nutrition_name nutrition_values : list string)
    : gmap string (option string) :=
  fold_left
    (λ recipe_nutritional_values '(name, value),
       if decide (is_Some (recipe_nutritional_values !! name))
       then <[name := Some value]> recipe_nutritional_values
       else recipe_nutritional_values)
    (zip nutrition_name nutrition_values)
    empty_nutritional_values.

(** Lines 133-137: one status appended per category of the recipe. *)
Definition fill_category_information (categories : gmap string Status)
    (recipe_category_information : gmap string (list Status))
    : gmap string (list Status) :=
  map_fold
    (λ category status info,
       match info !! category with
       | Some column => <[category := column ++ [status]]> info
       | None => <[category := [status]]> info
       end)
    recipe_category_information categories.

(** Lines 106-140: what the [try] block does once the request has
    succeeded. *)
Definition record_recipe (link : string) (r : Response) (s : state) : state :=
  let '(nutrition_name, nutrition_values) := get_recipe_nutritional_values r in
  {| clock := clock s; trace := trace s;
     base_soup := base_soup s; soup := soup s;
     used_recipe_links := used_recipe_links s;
     recipe_names := recipe_names s ++ [get_recipe_name r];
     successful_links := successful_links s ++ [link];
     recipe_cooking_times := recipe_cooking_times s ++ [get_recipe_cooking_time r];
     recipe_nutritional_data :=
       recipe_nutritional_data s
         ++ [fill_nutritional_values nutrition_name nutrition_values];
     recipe_category_information :=
       fill_category_information (get_recipe_categories r)
         (recipe_category_information s);
     recipe_ingredients := recipe_ingredients s ++ [get_recipe_ingredients r] |}.

(** Lines 102-151: the retry loop of one recipe link. *)
Fixpoint recipe_loop (attempts : list nat) (link : string) (s : state) : state :=
  match attempts with
  | [] => s
  | attempt :: rest =>
      match requests_get RecipePage link s with
      | (Some r, s1) => record_recipe link r s1
      | (None, s1) =>
          if attempt <? max_retries - 1
          then recipe_loop rest link (time_sleep retry_delay s1)
          else s1
      end
  end.

(** Lines 101-157: the body of the loop over [new_recipe_links]. *)
Definition visit_link (link : string) (s : state) : state :=
  time_sleep 1 (mark_used link (recipe_loop (seq 0 max_retries) link s)).

(** Lines 93-97. *)
Definition collect_new_links (links used : list string) : list string :=
  fold_left
    (λ new_recipe_links link,
       if decide (link ∈ used) then new_recipe_links
       else new_recipe_links ++ [link])
    links [].

(** Lines 67-157: the body of the loop over [page_list].  After the
    retry loop the script reads [soup] whether or not it was assigned. *)
Definition scrape_page (page_number : Z) (s : state) : result :=
  let page_url := filtered_page_url +:+ "&page=" +:+ pretty page_number in
  let s1 := time_sleep 1 (page_loop (seq 0 max_retries) page_url s) in
  match soup s1 with
  | None => Raise (NameError "soup") s1
  | Some document =>
      let links := get_recipe_links document base_url in
      let new_recipe_links := collect_new_links links (used_recipe_links s1) in
      Ok (fold_left (λ s link, visit_link link s) new_recipe_links s1)
  end.

Fixpoint scrape_pages (page_list : list Z) (s : state) : result :=
  match page_list with
  | [] => Ok s
  | page_number :: rest =>
      match scrape_page page_number s with
      | Ok s1 => scrape_pages rest s1
      | Raise e s1 => Raise e s1
      end
  end.

(** Lines 167-175: the value stored for one recipe under one key. *)
Definition clean_value (key : string) (value : option string) : option string :=
  match value with
  | None => None
  | Some value =>
      if decide (key ≠ "kcal") then Some (drop_last value) else Some value
  end.

(** Lines 163-175.  [recipe_data.get(key)] is [None] for a missing key
    and for a key bound to [None].  [alter] leaves a dictionary without
    the key unchanged, where Python would raise; every key of [keys] is
    bound by the initial dictionary. *)
Definition clean_recipe_nutritional_values
    (recipe_nutritional_data : list (gmap string (option string)))
    : gmap string (list (option string)) :=
  fold_left
    (λ clean recipe_data,
       fold_left
         (λ clean key,
            alter (λ column, column ++ [clean_value key (mjoin (recipe_data !! key))])
                  key clean)
         keys clean)
    recipe_nutritional_data
    (list_to_map ((λ key, (key, [])) <$> keys)).

(** Lines 178-193: the renaming table and the renamed dictionary. *)
Definition final_nutrition_names : gmap string string :=
  list_to_map
    [("kcal", "kcal"); ("fat", "Fat(g)"); ("saturates", "Saturates(g)");
     ("carbs", "Carbs(g)"); ("sugars", "Sugars(g)"); ("fibre", "Fibre(g)");
     ("protein", "Protein(g)"); ("salt", "Salt(g)")].

Definition final_nutrition_dict (clean : gmap string (list (option string)))
    : exn + gmap string (list (option string)) :=
  map_fold
    (λ key values acc,
       match acc with
       | inl e => inl e
       | inr renamed =>
           match final_nutrition_names !! key with
           | Some name => inr (<[name := values]> renamed)
           | None => inl (KeyError key)
           end
       end)
    (inr ∅) clean.

Definition text_cell (value : option string) : cell Status :=
  match value with Some v => Text v | None => Missing end.

(** Lines 198-203: the three fixed columns, then the category columns
    unpacked over them (a category named like a fixed column replaces
    it). *)
Definition recipe_info_data (s : state) : gmap string (list (cell Status)) :=
  let fixed : gmap string (list (cell Status)) :=
    <["CookingTime" := Text <$> recipe_cooking_times s]>
      (<["RecipeLink" := Text <$> successful_links s]>
         {["RecipeName" := Text <$> recipe_names s]}) in
  let categories : gmap string (list (cell Status)) :=
    (λ column : list Status, Flag <$> column) <$> recipe_category_information s in
  categories ∪ fixed.

(** Lines 211-214. *)
Definition flattened_ingredients (recipe_ingredients : list (list string))
    : list (Z * string) :=
  '(recipe_id, ingredients) ←
     zip (seqZ 1 (Z.of_nat (length recipe_ingredients))) recipe_ingredients;
  (λ ingredient, (recipe_id, ingredient)) <$> ingredients.

(** Line 217: a frame from a list of rows. *)
Definition ingredients_frame (rows : list (Z * string)) : DataFrame Status :=
  {| df_rows := length rows;
     df_columns :=
       <["Ingredient" := (λ row, Text row.2) <$> rows]>
         {["recipe_id" := (λ row, Number row.1) <$> rows]} |}.

(** Lines 160-221: the three frames, or the exception raised on the way. *)
Definition transform (s : state)
    : exn + (DataFrame Status * DataFrame Status * DataFrame Status) :=
  let clean := clean_recipe_nutritional_values (recipe_nutritional_data s) in
  final ← final_nutrition_dict clean;
  recipe_info_df ← pd_DataFrame (recipe_info_data s);
  nutrition_df ← pd_DataFrame ((λ column : list (option string), text_cell <$> column) <$> final);
  let ingredients_df := ingredients_frame (flattened_ingredients (recipe_ingredients s)) in
  recipe_info_df ← insert_recipe_id recipe_info_df;
  nutrition_df ← insert_recipe_id nutrition_df;
  inr (recipe_info_df, nutrition_df, ingredients_df).

(** A call to the connection or the engine: it is put on the trace, and
    raises when the database says so. *)
Definition database_call (call : event) (s : state) : result :=
  match db call with
  | Some e => Raise e (log call s)
  | None => Ok (log call s)
  end.

(** The rest of the script runs unless an exception was raised. *)
Definition and_then (r : result) (rest : state → result) : result :=
  match r with
  | Ok s => rest s
  | Raise e s => Raise e s
  end.

(** Lines 228-256. *)
Definition load (recipe_info_df nutrition_df ingredients_df : DataFrame Status)
    (s : state) : result :=
  and_then (database_call Begin s) (λ s,
  and_then (database_call (Execute "DELETE FROM ingredients") s) (λ s,
  and_then (database_call (Execute "DELETE FROM nutrition") s) (λ s,
  and_then (database_call (Execute "DELETE FROM recipe_info") s) (λ s,
  and_then (database_call Commit s) (λ s,
  and_then (database_call (ToSql "recipe_info" recipe_info_df) s) (λ s,
  and_then (database_call (ToSql "nutrition" nutrition_df) s) (λ s,
  and_then (database_call (ToSql "ingredients" ingredients_df) s) (λ s,
  database_call Dispose s)))))))).

Definition initial_state : state :=
  {| clock := 0; trace := [];
     base_soup := None; soup := None;
     used_recipe_links := [];
     recipe_names := [];
     successful_links := [];
     recipe_cooking_times := [];
     recipe_nutritional_data := [];
     recipe_category_information := ∅;
     recipe_ingredients := [] |}.

(** The whole script. *)
Definition main : outcome :=
  match base_page_loop (seq 0 max_retries) initial_state with
  | Raise e s => Aborted e s
  | Ok s =>
      let s := time_sleep 1 s in
      match base_soup s with
      | None => Aborted (NameError "base_soup") s
      | Some document =>
          match results_count document with
          | inl e => Aborted e s
          | inr number_of_recipes =>
              match number_of_pages number_of_recipes with
              | inl e => Aborted e s
              | inr pages =>
                  (* range(1, number_of_pages + 1) *)
                  match scrape_pages (seqZ 1 pages) s with
                  | Raise e s => Aborted e s
                  | Ok s =>
                      match transform s with
                      | inl e => Aborted e s
                      | inr (recipe_info_df, nutrition_df, ingredients_df) =>
                          match load recipe_info_df nutrition_df ingredients_df s with
                          | Raise e s => Aborted e s
                          | Ok s =>
                              Finished recipe_info_df nutrition_df ingredients_df s
                          end
                      end
                  end
              end
          end
      end
  end.

(** *** What a trace says about the run *)

(** The recipe pages fetched with success, in order, each with the link
    it was fetched from. *)
Definition fetched (t : list event) : list (string * Response) :=
  omap (λ e, match e with
             | Get RecipePage url (Some r) => Some (url, r)
             | _ => None
             end) t.

(** The outcomes of the requests sent to a recipe link. *)
Definition recipe_requests (link : string) (t : list event)
    : list (option Response) :=
  omap (λ e, match e with
             | Get RecipePage url r => if decide (url = link) then Some r else None
             | _ => None
             end) t.

(** All requests, by kind and URL. *)
Definition requests (t : list event) : list (request_kind * string) :=
  omap (λ e, match e with Get kind url _ => Some (kind, url) | _ => None end) t.

(** The database calls. *)
Definition database_calls (t : list event) : list event :=
  omap (λ e, match e with Get _ _ _ | Sleep _ => None | _ => Some e end) t.

(** The database calls of the load, in the order of lines 228-256. *)
Definition load_calls (recipe_info_df nutrition_df ingredients_df : DataFrame Status)
    : list event :=
  [Begin; Execute "DELETE FROM ingredients"; Execute "DELETE FROM nutrition";
   Execute "DELETE FROM recipe_info"; Commit;
   ToSql "recipe_info" recipe_info_df; ToSql "nutrition" nutrition_df;
   ToSql "ingredients" ingredients_df; Dispose].

(** [s] after the [calls] were issued. *)
Definition logged (calls : list event) (s : state) : state :=
  fold_left (λ s call, log call s) calls s.

(** The first of the [calls] that raises: its place and its exception. *)
Fixpoint first_failure (calls : list event) : option (nat * exn) :=
  match calls with
  | [] => None
  | call :: calls =>
      match db call with
      | Some e => Some (0, e)
      | None => prod_map S id <$> first_failure calls
      end
  end.

(** The statuses that the fetched recipes give for one category. *)
Definition category_column (category : string) (rs : list (string * Response))
    : list Status :=
  omap (λ p, get_recipe_categories p.2 !! category) rs.

(** [j] failed attempts, each followed by the wait. *)
Definition failed_attempts (kind : request_kind) (url : string) (j : nat)
    : list event :=
  mjoin (replicate j [Get kind url None; Sleep retry_delay]).

(** The accumulators of the recipe data are the same in two states. *)
Definition same_recipe_data (s s' : state) : Prop :=
  recipe_names s' = recipe_names s
  ∧ successful_links s' = successful_links s
  ∧ recipe_cooking_times s' = recipe_cooking_times s
  ∧ recipe_nutritional_data s' = recipe_nutritional_data s
  ∧ recipe_category_information s' = recipe_category_information s
  ∧ recipe_ingredients s' = recipe_ingredients s.

(** The values that a list of (name, value) pairs gives for one key. *)
Definition matching_values (key : string) (pairs : list (string * string))
    : list string :=
  omap (λ '(name, value), if decide (name = key) then Some value else None) pairs.

(** The first of [n] consecutive requests to [url] that succeeds, the
    first being request number [clock]: how many failed before it, and
    its response. *)
Fixpoint first_response (url : string) (clock n : nat) : option (nat * Response) :=
  match n with
  | 0 => None
  | S n =>
      match web clock url with
      | Some r => Some (0, r)
      | None => prod_map S id <$> first_response url (S clock) n
      end
  end.

(** [s] after [n] more requests that left [events] on the trace. *)
Definition with_io (n : nat) (events : list event) (s : state) : state :=
  {| clock := n + clock s; trace := trace s ++ events;
     base_soup := base_soup s; soup := soup s;
     used_recipe_links := used_recipe_links s;
     recipe_names := recipe_names s;
     successful_links := successful_links s;
     recipe_cooking_times := recipe_cooking_times s;
     recipe_nutritional_data := recipe_nutritional_data s;
     recipe_category_information := recipe_category_information s;
     recipe_ingredients := recipe_ingredients s |}.

(** The trace of a fetch that succeeds after [j] failures, and of one
    that fails [max_retries] times. *)
Definition fetch_success (kind : request_kind) (url : string) (j : nat)
    (r : Response) : list event :=
  failed_attempts kind url j ++ [Get kind url (Some r)].

Definition fetch_failure (kind : request_kind) (url : string) : list event :=
  failed_attempts kind url (max_retries - 1) ++ [Get kind url None].

(** The recipe accumulators agree with the recipe pages fetched. *)
Record aligned (s : state) : Prop := {
  aligned_names :
    recipe_names s = (λ p, get_recipe_name p.2) <$> fetched (trace s);
  aligned_links :
    successful_links s = fst <$> fetched (trace s);
  aligned_times :
    recipe_cooking_times s
    = (λ p, get_recipe_cooking_time p.2) <$> fetched (trace s);
  aligned_nutrition :
    recipe_nutritional_data s
    = (λ p, fill_nutritional_values (get_recipe_nutritional_values p.2).1
                                    (get_recipe_nutritional_values p.2).2)
        <$> fetched (trace s);
  aligned_ingredients :
    recipe_ingredients s
    = (λ p, get_recipe_ingredients p.2) <$> fetched (trace s);
  aligned_categories : ∀ category,
    recipe_category_information s !! category
    = match category_column category (fetched (trace s)) with
      | [] => None
      | column => Some column
      end
}.

(** No link was visited twice: the visited list has no repetition, only
    visited links were requested, and each link received at most
    [max_retries] requests, of which at most one succeeded. *)
Definition visited_once (s : state) : Prop :=
  NoDup (used_recipe_links s)
  ∧ ∀ link,
      (link ∉ used_recipe_links s → recipe_requests link (trace s) = [])
      ∧ length (recipe_requests link (trace s)) ≤ max_retries
      ∧ length (omap id (recipe_requests link (trace s))) ≤ 1.

(** *** Further notions used in the properties *)

(** The events of one fetch and of the wait of one second after it:
    fewer than [max_retries] failed attempts, each followed by the wait
    of [retry_delay] seconds, and the attempt that succeeds; or, for a
    listing page or a recipe, [max_retries] failed attempts. *)
Inductive fetch_block : list event → Prop :=
  | block_fetched kind url j r :
      j < max_retries → fetch_block (fetch_success kind url j r ++ [Sleep 1])
  | block_failed kind url :
      kind ≠ BasePage → fetch_block (fetch_failure kind url ++ [Sleep 1]).

(** A trace made of such fetches. *)
Definition scraped (t : list event) : Prop :=
  ∃ blocks, Forall fetch_block blocks ∧ t = concat blocks.

(** What follows the request at place [i] of [t], sent to [url] with
    outcome [r]: after a response, the wait of one second; after a
    failure, either the wait of [retry_delay] seconds and the next
    attempt, or, when it is the third failure in a row for a listing
    page or a recipe, the wait of one second. *)
Definition wait_after (t : list event) (i : nat) (kind : request_kind)
    (url : string) (r : option Response) : Prop :=
  match r with
  | Some _ => t !! S i = Some (Sleep 1)
  | None =>
      (t !! S i = Some (Sleep retry_delay)
       ∧ ∃ r', t !! S (S i) = Some (Get kind url r'))
      ∨ (kind ≠ BasePage
         ∧ t !! S i = Some (Sleep 1)
         ∧ ∃ i0, i = i0 + 4
                 ∧ t !! i0 = Some (Get kind url None)
                 ∧ t !! (i0 + 1) = Some (Sleep retry_delay)
                 ∧ t !! (i0 + 2) = Some (Get kind url None)
                 ∧ t !! (i0 + 3) = Some (Sleep retry_delay))
  end.

(** The cleaned values of one key, recipe by recipe. *)
Definition cleaned_column (key : string)
    (recipe_nutritional_data : list (gmap string (option string)))
    : list (option string) :=
  (λ recipe_data, clean_value key (mjoin (recipe_data !! key)))
    <$> recipe_nutritional_data.

(** The text that a fixed column of the recipe table holds for the
    recipe fetched from [link] with response [r]. *)
Definition fixed_text (name link : string) (r : Response) : string :=
  if decide (name = "RecipeName") then get_recipe_name r
  else if decide (name = "RecipeLink") then link
  else get_recipe_cooking_time r.

(** Every link of the listing page held in [soup] was visited. *)
Definition soup_visited (s : state) : Prop :=
  ∀ document link,
    soup s = Some document →
    link ∈ get_recipe_links document base_url →
    link ∈ used_recipe_links s.

(** The listing pages that were fetched, in order. *)
Definition listings (t : list event) : list Response :=
  omap (λ e, match e with
             | Get ListingPage _ (Some r) => Some r
             | _ => None
             end) t.

(** The listing page held in [soup] was fetched in this run. *)
Definition soup_listed (s : state) : Prop :=
  ∀ document, soup s = Some document → document ∈ listings (trace s).

(** No listing page fetched names a link twice. *)
Definition listings_distinct (t : list event) : Prop :=
  ∀ document,
    document ∈ listings t → NoDup (get_recipe_links document base_url).

(** The requests for the search page and for the listing pages, by kind
    and URL. *)
Definition page_requests (t : list event) : list (request_kind * string) :=
  omap (λ e, match e with
             | Get RecipePage _ _ => None
             | Get kind url _ => Some (kind, url)
             | _ => None
             end) t.

(** Lines 25-157: the script up to the end of the page loop, that is
    [main] without the transformation and the load. *)
Definition scrape : result :=
  match base_page_loop (seq 0 max_retries) initial_state with
  | Raise e s => Raise e s
  | Ok s =>
      let s := time_sleep 1 s in
      match base_soup s with
      | None => Raise (NameError "base_soup") s
      | Some document =>
          match results_count document with
          | inl e => Raise e s
          | inr number_of_recipes =>
              match number_of_pages number_of_recipes with
              | inl e => Raise e s
              | inr pages => scrape_pages (seqZ 1 pages) s
              end
          end
      end
  end.

End Script.

(** ** A concrete site

    Documents are given by what the extractors read from them. *)

Module Site.

Record page := {
  p_count : option Z;
  p_links : list string;
  p_name : string;
  p_cooking_time : string;
  p_nutrition : list string * list string;
  p_categories : list (string * string);
  p_ingredients : list string
}.

#[export] Instance page_scripts : Scripts page string := {|
  results_count p :=
    match p_count p with Some n => inr n | None => inl AttributeError end;
  get_recipe_links p _ := p_links p;
  get_recipe_name := p_name;
  get_recipe_cooking_time := p_cooking_time;
  get_recipe_nutritional_values := p_nutrition;
  get_recipe_categories p := list_to_map (p_categories p);
  get_recipe_ingredients := p_ingredients
|}.

Definition listing (count : Z) (links : list string) : page :=
  {| p_count := Some count; p_links := links; p_name := EmptyString;
     p_cooking_time := EmptyString; p_nutrition := ([], []); p_categories := [];
     p_ingredients := [] |}.

Definition recipe (name : string) (categories : list (string * string))
    (ingredients : list string) : page :=
  {| p_count := None; p_links := []; p_name := name;
     p_cooking_time := "10 mins";
     p_nutrition := (["kcal"; "fat"; "sugars"], ["250"; "12g"; "3g"]);
     p_categories := categories; p_ingredients := ingredients |}.

Definition page1 : string := "https://www.bbcgoodfood.com/search?&page=1".
Definition page2 : string := "https://www.bbcgoodfood.com/search?&page=2".

(** A site serving [documents]; requests to the URLs in [down] fail. *)
Definition serve (documents : list (string * page)) (down : list string)
    : nat → string → option page :=
  λ _ url,
    if decide (url ∈ down) then None
    else (list_to_map documents : gmap string page) !! url.

Definition soup_a : page := recipe "A" [("Vegan", "yes")] ["flour"; "water"].
Definition soup_b : page := recipe "B" [("Vegan", "no")] ["salt"].
Definition soup_c : page := recipe "C" [] ["rice"].
Definition soup_e : page := recipe "E" [("Vegan", "yes")] ["egg"].
Definition soup_d : page :=
  recipe "D" [("RecipeName", "x"); ("RecipeLink", "y"); ("CookingTime", "z")]
    ["oil"].

(** Two recipes with the same categories. *)
Definition web_two : nat → string → option page :=
  serve [(filtered_page_url, listing 2 []); (page1, listing 2 ["a"; "b"]);
         ("a", soup_a); ("b", soup_b)] [].

(** 45 results on two pages; the second page names a link of the first
    again. *)
Definition web_pages : nat → string → option page :=
  serve [(filtered_page_url, listing 45 []); (page1, listing 45 ["a"; "b"]);
         (page2, listing 45 ["b"; "e"]);
         ("a", soup_a); ("b", soup_b); ("e", soup_e)] [].

(** The second of three recipes cannot be fetched. *)
Definition web_one_down : nat → string → option page :=
  serve [(filtered_page_url, listing 3 []); (page1, listing 3 ["a"; "x"; "b"]);
         ("a", soup_a); ("x", soup_c); ("b", soup_b)] ["x"].

(** A category present on the first recipe only. *)
Definition web_skew : nat → string → option page :=
  serve [(filtered_page_url, listing 2 []); (page1, listing 2 ["a"; "c"]);
         ("a", soup_a); ("c", soup_c)] [].

(** Categories named like the three fixed columns, on one recipe of two. *)
Definition web_collision : nat → string → option page :=
  serve [(filtered_page_url, listing 2 []); (page1, listing 2 ["d"; "c"]);
         ("d", soup_d); ("c", soup_c)] [].

(** A listing page that names one link twice. *)
Definition web_repeat : nat → string → option page :=
  serve [(filtered_page_url, listing 2 []); (page1, listing 2 ["a"; "a"]);
         ("a", soup_a)] [].

(** The first listing page cannot be fetched. *)
Definition web_page_down : nat → string → option page :=
  serve [(filtered_page_url, listing 2 []); (page1, listing 2 ["a"; "b"]);
         ("a", soup_a); ("b", soup_b)] [page1].

(** The site answers from the third request of the run on. *)
Definition web_slow : nat → string → option page :=
  λ n url, if (n <? 2)%nat then None else web_two n url.

(** A database whose calls all succeed. *)
Definition db_up : event page string → option exn := λ _, None.

(** A database without the table [nutrition]: the delete raises. *)
Definition db_no_nutrition : event page string → option exn :=
  λ call,
    match call with
    | Execute sql =>
        if decide (sql = "DELETE FROM nutrition")
        then Some (SQLAlchemyError "no such table: nutrition")
        else None
    | _ => None
    end.

(** The state in which the run over [web_two] ends. *)
Definition after_two : state page string := final_state (main web_two db_up).

(** The listing reports no result. *)
Definition web_empty : nat → string → option page :=
  serve [(filtered_page_url, listing 0 [])] [].

(** 45 results on two pages; the second page cannot be fetched. *)
Definition web_second_down : nat → string → option page :=
  serve [(filtered_page_url, listing 45 []); (page1, listing 45 ["a"; "b"]);
         (page2, listing 45 ["b"; "e"]);
         ("a", soup_a); ("b", soup_b); ("e", soup_e)] [page2].



End Site.

(** * Properties *)

(** ** The page count *)

Section PageCount.
Local Open Scope Z_scope.
Import Float.

Lemma round_half_even_error n d :
  0 <= n → 0 < d → 2 * Z.abs (d * round_half_even n d - n) <= d.
Proof.
  intros Hn Hd. unfold round_half_even.
  pose proof (Z.div_mod n d ltac:(lia)) as Hdm.
  pose proof (Z.mod_pos_bound n d Hd) as Hr.
  repeat case_match; rewrite ?Z.ltb_lt, ?Z.ltb_ge in *; nia.
Qed.

Lemma quotient_log2_30 n :
  0 < n < 30 * 2 ^ 49 → -5 <= quotient_log2 n 30 <= 48.
Proof.
  intros [Hlo Hhi]. unfold quotient_log2.
  change (Z.log2 30) with 4.
  assert (0 <= Z.log2 n) by apply Z.log2_nonneg.
  assert (Z.log2 n < 54).
  { apply Z.log2_lt_pow2; [lia|]. change (2 ^ 54) with (32 * 2 ^ 49). lia. }
  case_match eqn:Hcmp; [|lia].
  destruct (decide (Z.log2 n = 53)) as [E|]; [|lia].
  rewrite E in Hcmp. apply Z.leb_le in Hcmp.
  change (Z.max (53 - 4) 0) with 49 in Hcmp.
  change (Z.max (- (53 - 4)) 0) with 0 in Hcmp.
  lia.
Qed.

(** Rounding the scaled quotient to within one half keeps the ceiling,
    once the scale is at least 16. *)
Lemma ceil_of_rounded n m P :
  0 < n → 16 <= P → 2 * Z.abs (30 * m - n * P) <= 30 →
  - ((- m) / P) = (n + 29) / 30.
Proof.
  intros Hn HP Hm.
  set (c := (n + 29) / 30).
  assert (30 * (c - 1) < n <= 30 * c).
  { pose proof (Z.div_mod (n + 29) 30 ltac:(lia)).
    pose proof (Z.mod_pos_bound (n + 29) 30 ltac:(lia)). subst c. lia. }
  assert (P * (c - 1) < m <= P * c) by nia.
  assert ((- m) / P = - c) as ->; [|lia].
  symmetry. apply Z.div_unique with (r := P * c - m); lia.
Qed.

Lemma floor_of_rounded n m P :
  0 < n → 16 <= P → 2 * Z.abs (30 * m - n * P) <= 30 → m / P = n / 30.
Proof.
  intros Hn HP Hm.
  set (f := n / 30).
  assert (30 * f <= n < 30 * f + 30).
  { pose proof (Z.div_mod n 30 ltac:(lia)).
    pose proof (Z.mod_pos_bound n 30 ltac:(lia)). subst f. lia. }
  assert (P * f <= m < P * f + P) by nia.
  symmetry. apply Z.div_unique with (r := m - P * f); lia.
Qed.

(** The float quotient of a count within the range: its exponent is
    negative and its mantissa is the scaled quotient rounded to within
    one half. *)
Lemma int_true_divide_30 n :
  n ≠ 0 → - (30 * 2 ^ 49) < n < 30 * 2 ^ 49 →
  ∃ m P, int_true_divide n 30 = inr (Dyadic (Z.sgn n * m) (- Z.log2 P))
         ∧ 16 <= P ∧ P = 2 ^ Z.log2 P
         ∧ 2 * Z.abs (30 * m - Z.abs n * P) <= 30.
Proof.
  intros Hn0 Hn.
  pose proof (quotient_log2_30 (Z.abs n) ltac:(lia)) as Hl.
  unfold int_true_divide.
  change (30 =? 0) with false. cbv iota.
  destruct (n =? 0) eqn:E0; [apply Z.eqb_eq in E0; lia|].
  change (Z.abs 30) with 30.
  set (l := quotient_log2 (Z.abs n) 30) in *.
  destruct (1023 <? l) eqn:E1; [apply Z.ltb_lt in E1; lia|].
  rewrite (Z.max_l l (-1022)) by lia.
  rewrite (Z.max_l (- (l - 52)) 0) by lia.
  rewrite (Z.max_r (l - 52) 0) by lia.
  rewrite (Z.pow_neg_r 2 (l - 52)) by lia.
  rewrite Z.mul_0_r. change (2 ^ 1024 <=? 0) with false. cbv iota.
  change (2 ^ 0) with 1. rewrite Z.mul_1_r.
  change (Z.sgn 30) with 1. rewrite Z.mul_1_r.
  exists (round_half_even (Z.abs n * 2 ^ (- (l - 52))) 30), (2 ^ (- (l - 52))).
  rewrite Z.log2_pow2 by lia.
  replace (- - (l - 52)) with (l - 52) by lia.
  split; [done|]. split; [|split; [done|]].
  - change 16 with (2 ^ 4). apply Z.pow_le_mono_r; lia.
  - apply round_half_even_error; [|lia].
    apply Z.mul_nonneg_nonneg; [lia|]. apply Z.pow_nonneg. lia.
Qed.

Lemma number_of_pages_exact n :
  - (30 * 2 ^ 49) < n < 30 * 2 ^ 49 → number_of_pages n = inr ((n + 29) / 30).
Proof.
  intros Hn.
  destruct (decide (n = 0)) as [->|Hn0]; [reflexivity|].
  destruct (int_true_divide_30 n Hn0 Hn) as (m & P & Hdiv & HP & HP2 & Hm).
  unfold number_of_pages. rewrite Hdiv. unfold ceil. cbn [mant expo].
  assert (0 < Z.log2 P) by (apply Z.log2_pos; lia).
  destruct (0 <=? - Z.log2 P) eqn:E; [apply Z.leb_le in E; lia|].
  rewrite Z.opp_involutive, <-HP2. f_equal.
  destruct (Z.lt_trichotomy n 0) as [Hneg|[?|Hpos]]; [|done|].
  - rewrite (Z.sgn_neg n) by done.
    replace (- (-1 * m)) with m by lia.
    rewrite (floor_of_rounded (Z.abs n) m P) by lia.
    rewrite (Z.abs_neq n) by lia.
    pose proof (Z.div_mod (- n) 30 ltac:(lia)).
    pose proof (Z.mod_pos_bound (- n) 30 ltac:(lia)).
    pose proof (Z.div_mod (n + 29) 30 ltac:(lia)).
    pose proof (Z.mod_pos_bound (n + 29) 30 ltac:(lia)). lia.
  - rewrite (Z.sgn_pos n) by done. rewrite Z.mul_1_l.
    rewrite (Z.abs_eq n) in Hm by lia.
    by apply ceil_of_rounded.
Qed.

(** C9, as amended.  For a result count [n] with [|n| < 30 * 2^49] the
    page count is the ceiling of [n / 30], that is the least [pages]
    with [n <= 30 * pages]; a count of 61 gives 3 pages and a count of
    30 gives 1. *)
Theorem number_of_pages_ceiling n :
  - (30 * 2 ^ 49) < n < 30 * 2 ^ 49 →
  ∃ pages, number_of_pages n = inr pages
    ∧ 30 * (pages - 1) < n <= 30 * pages
    ∧ number_of_pages 61 = inr 3
    ∧ number_of_pages 30 = inr 1.
Proof.
  intros Hn. exists ((n + 29) / 30).
  split; [by apply number_of_pages_exact|].
  split; [|split; reflexivity].
  pose proof (Z.div_mod (n + 29) 30 ltac:(lia)).
  pose proof (Z.mod_pos_bound (n + 29) 30 ltac:(lia)). lia.
Qed.

Lemma number_of_pages_ceiling_witness :
  ∃ pages, number_of_pages 45 = inr pages
    ∧ 30 * (pages - 1) < 45 <= 30 * pages
    ∧ number_of_pages 61 = inr 3
    ∧ number_of_pages 30 = inr 1.
Proof.
  apply (number_of_pages_ceiling 45).
  split; vm_compute; reflexivity.
Defined.

(** C9, as stated, fails for a count of [30 * 2^49 + 1]: the quotient
    rounds to [2^49], one page short of the ceiling, which is the least
    [pages] with [n <= 30 * pages]. *)
Lemma number_of_pages_not_ceiling :
  number_of_pages (30 * 2 ^ 49 + 1) = inr (2 ^ 49)
  ∧ ¬ (30 * 2 ^ 49 + 1 <= 30 * 2 ^ 49).
Proof. split; [vm_compute; reflexivity|vm_compute; tauto]. Qed.

End PageCount.

(** ** Nutrition values *)

Section Nutrition.

Lemma drop_last_snoc (s : string) (c : Ascii.ascii) :
  drop_last (s +:+ String c EmptyString) = s.
Proof.
  induction s as [|a s IH]; [reflexivity|].
  destruct s as [|b s]; [reflexivity|].
  change (drop_last (String a (String b s) +:+ String c EmptyString))
    with (String a (drop_last (String b s +:+ String c EmptyString))).
  by rewrite IH.
Qed.

Lemma drop_last_length (s : string) :
  String.length (drop_last s) = pred (String.length s).
Proof.
  induction s as [|a s IH]; [reflexivity|].
  destruct s as [|b s]; [reflexivity|].
  change (drop_last (String a (String b s))) with (String a (drop_last (String b s))).
  cbn [String.length] in *. rewrite IH. reflexivity.
Qed.

Lemma NoDup_keys : NoDup keys.
Proof. compute_done. Qed.

(** One pass of the inner loop over a list of distinct keys. *)
Lemma fold_alter_lookup {A} (f : string → A → A) (ks : list string)
    (m : gmap string A) (k : string) :
  NoDup ks →
  fold_left (λ m key, alter (f key) key m) ks m !! k
  = if decide (k ∈ ks) then f k <$> m !! k else m !! k.
Proof.
  intros Hnd. revert m.
  induction Hnd as [|key ks Hnotin Hnd IH]; intros m; [done|].
  cbn [fold_left]. rewrite IH.
  destruct (decide (k = key)) as [->|Hne].
  - rewrite decide_False by done. rewrite decide_True by left.
    by rewrite lookup_alter_eq.
  - rewrite lookup_alter_ne by done.
    destruct (decide (k ∈ ks)).
    + by rewrite decide_True by by right.
    + rewrite decide_False; [done|]. by intros [?|?]%elem_of_cons.
Qed.

Lemma clean_loop_lookup (data : list (gmap string (option string)))
    (clean : gmap string (list (option string))) (key : string) :
  key ∈ keys →
  fold_left
    (λ clean recipe_data,
       fold_left
         (λ clean key,
            alter (λ column, column ++ [clean_value key (mjoin (recipe_data !! key))])
                  key clean)
         keys clean)
    data clean !! key
  = (λ column, column ++ ((λ recipe_data, clean_value key (mjoin (recipe_data !! key))) <$> data))
      <$> clean !! key.
Proof.
  intros Hkey. revert clean.
  induction data as [|recipe_data data IH]; intros clean.
  - cbn. destruct (clean !! key); cbn; [|done]. by rewrite app_nil_r.
  - cbn [fold_left]. rewrite IH.
    rewrite (fold_alter_lookup
               (λ key column, column ++ [clean_value key (mjoin (recipe_data !! key))]))
      by apply NoDup_keys.
    rewrite decide_True by done.
    destruct (clean !! key); cbn; [|done]. by rewrite <-app_assoc.
Qed.

(** The cleaned column of a key holds, recipe by recipe, the cleaned
    value of that recipe. *)
Lemma clean_recipe_nutritional_values_lookup data key :
  key ∈ keys →
  clean_recipe_nutritional_values data !! key
  = Some ((λ recipe_data, clean_value key (mjoin (recipe_data !! key))) <$> data).
Proof.
  intros Hkey. unfold clean_recipe_nutritional_values.
  rewrite clean_loop_lookup by done.
  assert ((list_to_map ((λ key, (key, [])) <$> keys)
             : gmap string (list (option string))) !! key = Some []) as ->; [|done].
  apply elem_of_list_to_map.
  - compute_done.
  - apply list_elem_of_fmap. by exists key.
Qed.

Lemma clean_recipe_nutritional_values_other data key :
  key ∉ keys → clean_recipe_nutritional_values data !! key = None.
Proof.
  intros Hkey. unfold clean_recipe_nutritional_values.
  induction data as [|recipe_data data IH] using rev_ind.
  - cbn [fold_left]. apply not_elem_of_list_to_map.
    exact Hkey.
  - rewrite fold_left_app. cbn [fold_left].
    rewrite (fold_alter_lookup
               (λ key column, column ++ [clean_value key (mjoin (recipe_data !! key))]))
      by apply NoDup_keys.
    by rewrite decide_False.
Qed.

(** C7.  In the cleaned dictionary, the column of each key has one entry
    per recipe, the cleaned raw value of that recipe; cleaning strips
    exactly the last character for every key other than [kcal] ("12g"
    becomes "12"), keeps a [kcal] value as it is ("250" stays "250"),
    and keeps an absent value absent. *)
Theorem nutrition_normalization
    (data : list (gmap string (option string))) (key : string) :
  key ∈ keys →
  ∃ column,
    clean_recipe_nutritional_values data !! key = Some column
    ∧ length column = length data
    ∧ (∀ i recipe_data, data !! i = Some recipe_data →
         column !! i = Some (clean_value key (mjoin (recipe_data !! key))))
    ∧ (∀ raw c, key ≠ "kcal" →
         clean_value key (Some (raw +:+ String c EmptyString)) = Some raw)
    ∧ (∀ raw, key ≠ "kcal" →
         clean_value key (Some raw) = Some (drop_last raw)
         ∧ String.length (drop_last raw) = pred (String.length raw))
    ∧ (∀ raw, clean_value "kcal" (Some raw) = Some raw)
    ∧ clean_value key None = None
    ∧ clean_value "fat" (Some "12g") = Some "12"
    ∧ clean_value "kcal" (Some "250") = Some "250".
Proof.
  intros Hkey. eexists. split; [by apply clean_recipe_nutritional_values_lookup|].
  split; [by rewrite length_fmap|].
  split. { intros i recipe_data Hi. by rewrite list_lookup_fmap, Hi. }
  split. { intros raw c Hne. cbn. rewrite decide_True by done.
           by rewrite drop_last_snoc. }
  split. { intros raw Hne. cbn. rewrite decide_True by done.
           split; [done|apply drop_last_length]. }
  done.
Qed.

Lemma nutrition_normalization_witness :
  ∃ column,
    clean_recipe_nutritional_values
      [{["fat" := Some "12g"; "kcal" := Some "250"; "salt" := None]}] !! "fat"
    = Some column
    ∧ column = [Some "12"].
Proof.
  destruct (nutrition_normalization
              [{["fat" := Some "12g"; "kcal" := Some "250"; "salt" := None]}]
              "fat")
    as (column & Hcol & _ & Hi & _).
  - compute_done.
  - exists column. split; [exact Hcol|].
    vm_compute in Hcol. congruence.
Defined.

End Nutrition.

(** ** The nutrition overlay *)

Section Overlay.

Lemma matching_values_none key (pairs : list (string * string)) :
  (∀ i p, pairs !! i = Some p → p.1 ≠ key) → matching_values key pairs = [].
Proof.
  induction pairs as [|[name value] pairs IH]; intros Hno; [done|].
  unfold matching_values in *. cbn [omap list_omap].
  rewrite decide_False by (apply (Hno 0 (name, value)); done).
  apply IH. intros i p Hi. by apply (Hno (S i)).
Qed.

Lemma matching_values_last key (pairs : list (string * string)) i value :
  pairs !! i = Some (key, value) →
  (∀ j p, i < j → pairs !! j = Some p → p.1 ≠ key) →
  last (matching_values key pairs) = Some value.
Proof.
  intros Hi Hlater.
  rewrite <-(take_drop_middle pairs i (key, value)) by done.
  unfold matching_values. rewrite omap_app. cbn [omap list_omap].
  rewrite decide_True by done.
  fold (matching_values key (drop (S i) pairs)).
  rewrite matching_values_none.
  - apply last_snoc.
  - intros j p Hj. rewrite lookup_drop in Hj. apply (Hlater (S i + j)); [lia|done].
Qed.

(** The overlay loop started from any dictionary: a bound key ends with
    the last matching value, or keeps its value when nothing matches; an
    unbound key stays unbound. *)
Lemma fill_loop_lookup (pairs : list (string * string))
    (d : gmap string (option string)) (key : string) :
  fold_left
    (λ recipe_nutritional_values '(name, value),
       if decide (is_Some (recipe_nutritional_values !! name))
       then <[name := Some value]> recipe_nutritional_values
       else recipe_nutritional_values)
    pairs d !! key
  = match d !! key with
    | None => None
    | Some old =>
        Some (match last (matching_values key pairs) with
              | Some value => Some value
              | None => old
              end)
    end.
Proof.
  revert d. induction pairs as [|[name value] pairs IH]; intros d.
  { cbn. by destruct (d !! key). }
  cbn [fold_left]. rewrite IH. unfold matching_values. cbn [omap list_omap].
  fold (matching_values key pairs).
  destruct (decide (name = key)) as [->|Hne].
  - rewrite last_cons. destruct (decide (is_Some (d !! key))) as [[old Hold]|Hnone].
    + rewrite lookup_insert_eq, Hold. by destruct (last (matching_values key pairs)).
    + destruct (d !! key) eqn:E; [|done]. destruct Hnone; eauto.
  - destruct (decide (is_Some (d !! name))); [|done].
    by rewrite lookup_insert_ne.
Qed.

Lemma empty_nutritional_values_lookup key :
  empty_nutritional_values !! key
  = if decide (key ∈ nutritional_desired_keys) then Some None else None.
Proof.
  unfold empty_nutritional_values. case_decide as Hkey.
  - apply elem_of_list_to_map; [compute_done|].
    apply list_elem_of_fmap. by exists key.
  - apply not_elem_of_list_to_map. exact Hkey.
Qed.

Lemma fill_nutritional_values_lookup names values key :
  fill_nutritional_values names values !! key
  = if decide (key ∈ nutritional_desired_keys)
    then Some (last (matching_values key (zip names values)))
    else None.
Proof.
  unfold fill_nutritional_values. rewrite fill_loop_lookup.
  rewrite empty_nutritional_values_lookup.
  case_decide; [|done]. by destruct (last _).
Qed.

(** C10.  The overlay pairs the name cells with the value cells by
    position and stops at the shorter list; a key outside the eight
    stays unbound; a key of the eight with no matching pair stays
    [None]; and when several pairs match a key, the value of the last
    of them is stored. *)
Theorem nutrition_overlay (names values : list string) (key : string) :
  fill_nutritional_values names values
  = fill_nutritional_values (take (length values) names) (take (length names) values)
  ∧ (key ∉ nutritional_desired_keys →
       fill_nutritional_values names values !! key = None)
  ∧ (key ∈ nutritional_desired_keys →
       (∀ i, names !! i = Some key → values !! i = None) →
       fill_nutritional_values names values !! key = Some None)
  ∧ (key ∈ nutritional_desired_keys →
       ∀ i value,
         names !! i = Some key → values !! i = Some value →
         (∀ j, i < j → j < length values → names !! j ≠ Some key) →
         fill_nutritional_values names values !! key = Some (Some value)).
Proof.
  split; [|split; [|split]].
  - unfold fill_nutritional_values. by rewrite zip_with_take_both.
  - intros Hkey. rewrite fill_nutritional_values_lookup. by rewrite decide_False.
  - intros Hkey Hno. rewrite fill_nutritional_values_lookup, decide_True by done.
    rewrite matching_values_none; [done|].
    intros i [name value] [Hn Hv]%lookup_zip_Some; cbn; intros ->.
    specialize (Hno i Hn). congruence.
  - intros Hkey i value Hn Hv Hlast.
    rewrite fill_nutritional_values_lookup, decide_True by done.
    f_equal. apply (matching_values_last key _ i).
    + by apply lookup_zip_Some.
    + intros j [name w] Hij [Hjn Hjv]%lookup_zip_Some; cbn; intros ->.
      apply (Hlast j); [done| |done]. by eapply lookup_lt_Some.
Qed.

Lemma nutrition_overlay_witness :
  fill_nutritional_values ["fat"; "kcal"; "fat"; "iron"; "salt"]
                          ["1g"; "250"; "2g"; "9mg"] !! "fat"
  = Some (Some "2g").
Proof.
  apply (nutrition_overlay ["fat"; "kcal"; "fat"; "iron"; "salt"]
                           ["1g"; "250"; "2g"; "9mg"] "fat") with (i := 2).
  - compute_done.
  - reflexivity.
  - reflexivity.
  - intros j Hlo Hhi. simpl in Hhi.
    assert (j = 3) as -> by lia. simpl. discriminate.
Defined.

End Overlay.

(** ** The retry loops *)

Section Retry.
Context {Response Status : Type} `{!Scripts Response Status}.
Variable web : nat → string → option Response.
Variable db : event Response Status → option exn.

Abbreviation state := (state Response Status).

Lemma first_response_bound url clock n j r :
  first_response web url clock n = Some (j, r) → j < n.
Proof.
  revert clock j. induction n as [|n IH]; intros clock j; [done|].
  cbn [first_response]. destruct (web clock url).
  - intros [= <- _]. lia.
  - destruct (first_response web url (S clock) n) as [[j' r']|] eqn:E; [|done].
    cbn. intros [= <- <-]. apply IH in E. lia.
Qed.

Lemma first_response_none url clock n :
  first_response web url clock n = None ↔
  ∀ i, i < n → web (i + clock) url = None.
Proof.
  revert clock. induction n as [|n IH]; intros clock.
  { split; [intros _ i ?; lia|done]. }
  cbn [first_response]. destruct (web clock url) eqn:E.
  - split; [done|]. intros Hall. specialize (Hall 0 ltac:(lia)). cbn in Hall.
    congruence.
  - rewrite fmap_None, IH. split.
    + intros Hall [|i] Hi; [done|]. specialize (Hall i ltac:(lia)).
      by rewrite Nat.add_succ_r in Hall.
    + intros Hall i Hi. specialize (Hall (S i) ltac:(lia)).
      by rewrite Nat.add_succ_r.
Qed.

Ltac by_outcomes s url :=
  unfold fetch_success, fetch_failure, failed_attempts, with_io;
  cbn;
  destruct (web (clock s) url); [reflexivity|];
  destruct (web (S (clock s)) url);
    [cbn; rewrite <-?app_assoc; reflexivity|];
  destruct (web (S (S (clock s))) url);
    cbn; rewrite <-?app_assoc; reflexivity.

(** The first listing request: the state after the loop. *)
Lemma base_page_loop_run (s : state) :
  base_page_loop web (seq 0 max_retries) s
  = match first_response web filtered_page_url (clock s) max_retries with
    | Some (j, r) =>
        Ok (set_base_soup r
              (with_io (S j) (fetch_success BasePage filtered_page_url j r) s))
    | None =>
        Raise (SystemExit 1)
              (with_io max_retries (fetch_failure BasePage filtered_page_url) s)
    end.
Proof. by_outcomes s filtered_page_url. Qed.

Lemma page_loop_run (page_url : string) (s : state) :
  page_loop web (seq 0 max_retries) page_url s
  = match first_response web page_url (clock s) max_retries with
    | Some (j, r) =>
        set_soup r (with_io (S j) (fetch_success ListingPage page_url j r) s)
    | None => with_io max_retries (fetch_failure ListingPage page_url) s
    end.
Proof. by_outcomes s page_url. Qed.

Lemma recipe_loop_run (link : string) (s : state) :
  recipe_loop web (seq 0 max_retries) link s
  = match first_response web link (clock s) max_retries with
    | Some (j, r) =>
        record_recipe link r
          (with_io (S j) (fetch_success RecipePage link j r) s)
    | None => with_io max_retries (fetch_failure RecipePage link) s
    end.
Proof. by_outcomes s link. Qed.

(** C8.  Each of the three fetches sends at most [max_retries] = 3
    requests: [j < 3] failed attempts, each followed by a wait of
    [retry_delay] = 5 seconds, and then the attempt that succeeds; or two
    failed attempts with their waits and a third failed attempt, after
    which nothing more is sent.  The first listing fetch then ends the
    script with exit code 1; a page or recipe fetch leaves the loop. *)
Theorem fetch_attempts_bounded (s : state) (url : string) :
  (∀ j r, first_response web url (clock s) max_retries = Some (j, r) → j < 3)
  ∧ (∀ kind j r,
       (fetch_success kind url j r : list (event Response Status))
       = mjoin (replicate j [Get kind url None; Sleep 5])
         ++ [Get kind url (Some r)])
  ∧ (∀ kind,
       (fetch_failure kind url : list (event Response Status))
       = [Get kind url None; Sleep 5; Get kind url None; Sleep 5;
          Get kind url None])
  ∧ base_page_loop web (seq 0 max_retries) s
    = match first_response web filtered_page_url (clock s) max_retries with
      | Some (j, r) =>
          Ok (set_base_soup r
                (with_io (S j) (fetch_success BasePage filtered_page_url j r) s))
      | None =>
          Raise (SystemExit 1)
                (with_io 3 (fetch_failure BasePage filtered_page_url) s)
      end
  ∧ page_loop web (seq 0 max_retries) url s
    = match first_response web url (clock s) max_retries with
      | Some (j, r) =>
          set_soup r (with_io (S j) (fetch_success ListingPage url j r) s)
      | None => with_io 3 (fetch_failure ListingPage url) s
      end
  ∧ recipe_loop web (seq 0 max_retries) url s
    = match first_response web url (clock s) max_retries with
      | Some (j, r) =>
          record_recipe url r (with_io (S j) (fetch_success RecipePage url j r) s)
      | None => with_io 3 (fetch_failure RecipePage url) s
      end.
Proof.
  split; [intros j r; apply first_response_bound|].
  split; [done|]. split; [done|].
  split; [apply base_page_loop_run|].
  split; [apply page_loop_run|apply recipe_loop_run].
Qed.

End Retry.

(** ** The accumulators follow the fetched recipes *)

Ltac fields :=
  cbn [clock trace base_soup soup used_recipe_links recipe_names
       successful_links recipe_cooking_times recipe_nutritional_data
       recipe_category_information recipe_ingredients
       with_io log time_sleep set_soup set_base_soup mark_used] in *.

Section Alignment.
Context {Response Status : Type} `{!Scripts Response Status}.
Variable web : nat → string → option Response.
Variable db : event Response Status → option exn.

Abbreviation state := (state Response Status).
Abbreviation event := (event Response Status).

Lemma fetched_app (t1 t2 : list event) :
  fetched (t1 ++ t2) = fetched t1 ++ fetched t2.
Proof. apply omap_app. Qed.

Lemma fetched_failed_attempts kind url j :
  fetched (failed_attempts kind url j : list event) = [].
Proof.
  unfold failed_attempts, fetched.
  induction j as [|j IH]; [done|]. by destruct kind.
Qed.

Lemma fetched_fetch_failure kind url :
  fetched (fetch_failure kind url : list event) = [].
Proof.
  unfold fetch_failure. rewrite fetched_app, fetched_failed_attempts.
  by destruct kind.
Qed.

Lemma fetched_fetch_success kind url j r :
  fetched (fetch_success kind url j r : list event)
  = match kind with RecipePage => [(url, r)] | _ => [] end.
Proof.
  unfold fetch_success. rewrite fetched_app, fetched_failed_attempts.
  by destruct kind.
Qed.

(** The category loop, key by key. *)
Lemma fill_category_information_lookup (categories : gmap string Status)
    (info : gmap string (list Status)) (category : string) :
  fill_category_information categories info !! category
  = match categories !! category with
    | Some status => Some (default [] (info !! category) ++ [status])
    | None => info !! category
    end.
Proof.
  unfold fill_category_information. revert category.
  apply (map_fold_weak_ind
           (λ r m, ∀ category,
              r !! category
              = match m !! category with
                | Some status => Some (default [] (info !! category) ++ [status])
                | None => info !! category
                end)).
  - intros category. by rewrite lookup_empty.
  - intros i x m r Hi IH category.
    destruct (decide (i = category)) as [->|Hne].
    + rewrite lookup_insert_eq. specialize (IH category). rewrite Hi in IH.
      rewrite IH. destruct (info !! category); by rewrite lookup_insert_eq.
    + rewrite (lookup_insert_ne m) by done. rewrite <-IH.
      destruct (r !! i); by rewrite lookup_insert_ne.
Qed.

Lemma category_column_snoc category (rs : list (string * Response)) link r :
  category_column category (rs ++ [(link, r)])
  = category_column category rs
    ++ match get_recipe_categories r !! category with
       | Some status => [status]
       | None => []
       end.
Proof.
  unfold category_column. rewrite omap_app. cbn.
  by destruct (get_recipe_categories r !! category).
Qed.

Lemma aligned_initial : aligned (initial_state : state).
Proof. by split. Qed.

(** Requests that fetch no recipe, and assignments to the other
    variables, keep the alignment. *)
Lemma aligned_with_io n (events : list event) s :
  fetched events = [] → aligned s → aligned (with_io n events s).
Proof.
  intros Hev [? ? ? ? ? ?].
  split; fields; rewrite fetched_app, Hev, app_nil_r; done.
Qed.

Lemma aligned_log (e : event) s :
  fetched [e] = [] → aligned s → aligned (log e s).
Proof.
  intros Hev [? ? ? ? ? ?].
  split; fields; rewrite fetched_app, Hev, app_nil_r; done.
Qed.

Lemma aligned_set_soup r s : aligned s → aligned (set_soup r s).
Proof. by intros [? ? ? ? ? ?]. Qed.

Lemma aligned_set_base_soup r s : aligned s → aligned (set_base_soup r s).
Proof. by intros [? ? ? ? ? ?]. Qed.

Lemma aligned_mark_used link s : aligned s → aligned (mark_used link s).
Proof. by intros [? ? ? ? ? ?]. Qed.

(** A recipe fetched and recorded keeps the alignment. *)
Lemma aligned_record_recipe link j r s :
  aligned s →
  aligned (record_recipe link r
             (with_io (S j) (fetch_success RecipePage link j r) s)).
Proof.
  intros [Hn Hl Ht Hnu Hi Hc]. unfold record_recipe.
  destruct (get_recipe_nutritional_values r) as [names values] eqn:Hnv.
  split; fields; rewrite fetched_app, fetched_fetch_success.
  - by rewrite fmap_app, Hn.
  - by rewrite fmap_app, Hl.
  - by rewrite fmap_app, Ht.
  - rewrite fmap_app, Hnu. cbn. by rewrite Hnv.
  - by rewrite fmap_app, Hi.
  - intros category. rewrite fill_category_information_lookup, Hc.
    rewrite category_column_snoc.
    destruct (get_recipe_categories r !! category) as [status|].
    + by destruct (category_column category (fetched (trace s))).
    + by rewrite app_nil_r.
Qed.

Lemma aligned_recipe_loop link s :
  aligned s → aligned (recipe_loop web (seq 0 max_retries) link s).
Proof.
  intros Hs. rewrite recipe_loop_run.
  destruct (first_response web link (clock s) max_retries) as [[j r]|].
  - by apply aligned_record_recipe.
  - apply aligned_with_io; [apply fetched_fetch_failure|done].
Qed.

Lemma aligned_visit_link link s :
  aligned s → aligned (visit_link web link s).
Proof.
  intros Hs. unfold visit_link, time_sleep.
  apply aligned_log; [done|]. apply aligned_mark_used.
  by apply aligned_recipe_loop.
Qed.

Lemma aligned_visit_links links s :
  aligned s → aligned (fold_left (λ s link, visit_link web link s) links s).
Proof.
  revert s. induction links as [|link links IH]; intros s Hs; [done|].
  cbn [fold_left]. apply IH. by apply aligned_visit_link.
Qed.

Lemma aligned_page_loop page_url s :
  aligned s → aligned (page_loop web (seq 0 max_retries) page_url s).
Proof.
  intros Hs. rewrite page_loop_run.
  destruct (first_response web page_url (clock s) max_retries) as [[j r]|].
  - apply aligned_set_soup, aligned_with_io; [|done].
    by rewrite fetched_fetch_success.
  - apply aligned_with_io; [apply fetched_fetch_failure|done].
Qed.

Lemma aligned_scrape_page page_number s :
  aligned s → aligned (result_state (scrape_page web page_number s)).
Proof.
  intros Hs. unfold scrape_page.
  set (s1 := time_sleep 1 _).
  assert (aligned s1) as Hs1.
  { apply aligned_log; [done|]. by apply aligned_page_loop. }
  destruct (soup s1); [|done].
  by apply aligned_visit_links.
Qed.

Lemma aligned_scrape_pages page_list s :
  aligned s → aligned (result_state (scrape_pages web page_list s)).
Proof.
  revert s. induction page_list as [|page_number page_list IH]; intros s Hs; [done|].
  cbn [scrape_pages].
  pose proof (aligned_scrape_page page_number s Hs) as Hpage.
  destruct (scrape_page web page_number s) as [s1|e s1]; [|done].
  by apply IH.
Qed.

End Alignment.

(** ** Data frames *)

Section Frames.
Context {Status : Type}.

Lemma pd_DataFrame_inr (data : gmap string (list (cell Status))) df :
  pd_DataFrame data = inr df →
  df_columns df = data
  ∧ ∀ name column, data !! name = Some column → length column = df_rows df.
Proof.
  unfold pd_DataFrame. destruct (map_to_list data) as [|[name0 column0] rest] eqn:E.
  - intros [= <-]. split; [done|]. intros name column Hlookup.
    apply map_to_list_empty_iff in E. subst data. by rewrite lookup_empty in Hlookup.
  - case_decide as Hall; [|done]. intros [= <-]. split; [done|].
    intros name column Hlookup. by apply (map_Forall_lookup_1 _ _ _ _ Hall Hlookup).
Qed.

Lemma insert_recipe_id_inr (df df' : DataFrame Status) :
  insert_recipe_id df = inr df' →
  df_rows df' = df_rows df
  ∧ recipe_id_column df' = Number <$> seqZ 1 (Z.of_nat (df_rows df))
  ∧ ∀ name, name ≠ "recipe_id" → df_columns df' !! name = df_columns df !! name.
Proof.
  unfold insert_recipe_id. destruct (df_columns df !! "recipe_id"); [done|].
  intros [= <-]. split; [done|]. split.
  - unfold recipe_id_column. cbn. by rewrite lookup_insert_eq.
  - intros name Hne. cbn. by rewrite lookup_insert_ne.
Qed.

End Frames.

(** ** The ingredient rows *)

Section Ingredients.

Lemma flattened_ingredients_snoc (l : list (list string)) (ingredients : list string) :
  flattened_ingredients (l ++ [ingredients])
  = flattened_ingredients l
    ++ ((λ ingredient, (Z.of_nat (S (length l)), ingredient)) <$> ingredients).
Proof.
  unfold flattened_ingredients.
  rewrite length_app, Nat.add_1_r, seqZ_S.
  rewrite zip_with_app by (by rewrite length_seqZ, Nat2Z.id).
  rewrite bind_app. f_equal. cbn. rewrite app_nil_r.
  replace (1 + Z.of_nat (length l))%Z with (Z.of_nat (S (length l))) by lia.
  done.
Qed.

Lemma flattened_ingredients_ids (l : list (list string)) id ingredient :
  (id, ingredient) ∈ flattened_ingredients l →
  (1 ≤ id ≤ Z.of_nat (length l))%Z.
Proof.
  induction l as [|ingredients l IH] using rev_ind; [by intros ?%elem_of_nil|].
  rewrite flattened_ingredients_snoc, length_app, Nat.add_1_r.
  intros [Hin|Hin]%elem_of_app.
  - apply IH in Hin. lia.
  - apply list_elem_of_fmap in Hin as (? & [= -> _] & _). lia.
Qed.

Lemma flattened_ingredients_lookup (l : list (list string)) i ingredients ingredient :
  l !! i = Some ingredients → ingredient ∈ ingredients →
  (Z.of_nat (S i), ingredient) ∈ flattened_ingredients l.
Proof.
  induction l as [|last l IH] using rev_ind; [done|].
  rewrite flattened_ingredients_snoc. intros Hi Hin. apply elem_of_app.
  destruct (decide (i < length l)) as [Hlt|Hge].
  - left. rewrite lookup_app_l in Hi by done. by apply IH.
  - right. rewrite lookup_app_r in Hi by lia.
    destruct (i - length l) as [|?] eqn:E; [|done].
    injection Hi as ->. assert (i = length l) as -> by lia.
    apply list_elem_of_fmap. by exists ingredient.
Qed.

End Ingredients.

(** ** The transformation *)

Section Transform.
Context {Response Status : Type} `{!Scripts Response Status}.

Abbreviation state := (state Response Status).

Lemma clean_recipe_nutritional_values_keys data :
  clean_recipe_nutritional_values data
  = list_to_map
      ((λ key, (key, (λ recipe_data, clean_value key (mjoin (recipe_data !! key)))
                       <$> data)) <$> keys).
Proof.
  apply map_eq. intros key. destruct (decide (key ∈ keys)) as [Hkey|Hkey].
  - rewrite clean_recipe_nutritional_values_lookup by done. symmetry.
    apply elem_of_list_to_map.
    + rewrite <-list_fmap_compose. apply NoDup_keys.
    + apply list_elem_of_fmap. by exists key.
  - rewrite clean_recipe_nutritional_values_other by done. symmetry.
    apply not_elem_of_list_to_map. by rewrite <-list_fmap_compose.
Qed.

(** The renaming never raises on the cleaned dictionary. *)
Lemma final_nutrition_dict_keys (column : string → list (option string)) :
  final_nutrition_dict (list_to_map ((λ key, (key, column key)) <$> keys))
  = inr (list_to_map
           [("kcal", column "kcal"); ("Fat(g)", column "fat");
            ("Saturates(g)", column "saturates"); ("Carbs(g)", column "carbs");
            ("Sugars(g)", column "sugars"); ("Fibre(g)", column "fibre");
            ("Protein(g)", column "protein"); ("Salt(g)", column "salt")]).
Proof. vm_compute. reflexivity. Qed.

Lemma nutrition_frame_rows data final (df : DataFrame Status) :
  final_nutrition_dict (clean_recipe_nutritional_values data) = inr final →
  pd_DataFrame ((λ column : list (option string), text_cell <$> column) <$> final)
  = inr df →
  df_rows df = length data.
Proof.
  rewrite clean_recipe_nutritional_values_keys.
  rewrite (final_nutrition_dict_keys
             (λ key, (λ recipe_data, clean_value key (mjoin (recipe_data !! key)))
                       <$> data)).
  intros [= <-] [_ Hrows]%pd_DataFrame_inr.
  rewrite <-(Hrows "kcal" (text_cell
               <$> ((λ recipe_data, clean_value "kcal" (mjoin (recipe_data !! "kcal")))
                      <$> data))).
  - by rewrite !length_fmap.
  - rewrite lookup_fmap. reflexivity.
Qed.

End Transform.

(** ** The whole run *)

Section Run.
Context {Response Status : Type} `{!Scripts Response Status}.
Variable web : nat → string → option Response.
Variable db : event Response Status → option exn.

Abbreviation state := (state Response Status).
Abbreviation event := (event Response Status).

Lemma database_calls_app (t1 t2 : list event) :
  database_calls (t1 ++ t2) = database_calls t1 ++ database_calls t2.
Proof. apply omap_app. Qed.

Lemma database_calls_failed_attempts kind url j :
  database_calls (failed_attempts kind url j : list event) = [].
Proof. unfold failed_attempts, database_calls. by induction j. Qed.

Lemma database_calls_fetch_failure kind url :
  database_calls (fetch_failure kind url : list event) = [].
Proof.
  unfold fetch_failure.
  by rewrite database_calls_app, database_calls_failed_attempts.
Qed.

Lemma database_calls_fetch_success kind url j r :
  database_calls (fetch_success kind url j r : list event) = [].
Proof.
  unfold fetch_success.
  by rewrite database_calls_app, database_calls_failed_attempts.
Qed.

Lemma database_calls_recipe_loop link (s : state) :
  database_calls (trace (recipe_loop web (seq 0 max_retries) link s))
  = database_calls (trace s).
Proof.
  rewrite recipe_loop_run.
  destruct (first_response web link (clock s) max_retries) as [[j r]|].
  - unfold record_recipe. destruct (get_recipe_nutritional_values r). fields.
    by rewrite database_calls_app, database_calls_fetch_success, app_nil_r.
  - fields. by rewrite database_calls_app, database_calls_fetch_failure, app_nil_r.
Qed.

Lemma database_calls_visit_links links (s : state) :
  database_calls (trace (fold_left (λ s link, visit_link web link s) links s))
  = database_calls (trace s).
Proof.
  revert s. induction links as [|link links IH]; intros s; [done|].
  cbn [fold_left]. rewrite IH. unfold visit_link. fields.
  rewrite database_calls_app, app_nil_r. apply database_calls_recipe_loop.
Qed.

Lemma database_calls_scrape_page page_number (s : state) :
  database_calls (trace (result_state (scrape_page web page_number s)))
  = database_calls (trace s).
Proof.
  unfold scrape_page. set (s1 := time_sleep 1 _).
  assert (database_calls (trace s1) = database_calls (trace s)) as Hs1.
  { subst s1. fields. rewrite database_calls_app, app_nil_r, page_loop_run.
    destruct (first_response web _ (clock s) max_retries) as [[j r]|]; fields.
    - by rewrite database_calls_app, database_calls_fetch_success, app_nil_r.
    - by rewrite database_calls_app, database_calls_fetch_failure, app_nil_r. }
  destruct (soup s1); [|done].
  cbn [result_state]. by rewrite database_calls_visit_links.
Qed.

Lemma database_calls_scrape_pages page_list (s : state) :
  database_calls (trace (result_state (scrape_pages web page_list s)))
  = database_calls (trace s).
Proof.
  revert s. induction page_list as [|page_number page_list IH]; intros s; [done|].
  cbn [scrape_pages].
  pose proof (database_calls_scrape_page page_number s) as Hpage.
  destruct (scrape_page web page_number s) as [s1|e s1]; [|done].
  rewrite IH. exact Hpage.
Qed.

(** The state in which the page loop starts. *)
Lemma aligned_base_page_loop (s : state) :
  aligned s → aligned (result_state (base_page_loop web (seq 0 max_retries) s)).
Proof.
  intros Hs. rewrite base_page_loop_run.
  destruct (first_response web _ (clock s) max_retries) as [[j r]|];
    cbn [result_state]; fields.
  - apply aligned_set_base_soup, aligned_with_io; [|done].
    by rewrite fetched_fetch_success.
  - apply aligned_with_io; [apply fetched_fetch_failure|done].
Qed.

Lemma database_calls_base_page_loop (s : state) :
  database_calls (trace (result_state (base_page_loop web (seq 0 max_retries) s)))
  = database_calls (trace s).
Proof.
  rewrite base_page_loop_run.
  destruct (first_response web _ (clock s) max_retries) as [[j r]|];
    cbn [result_state]; fields.
  - by rewrite database_calls_app, database_calls_fetch_success, app_nil_r.
  - by rewrite database_calls_app, database_calls_fetch_failure, app_nil_r.
Qed.

Lemma trace_logged (calls : list event) (s : state) :
  trace (logged calls s) = trace s ++ calls.
Proof.
  revert s. induction calls as [|call calls IH]; intros s.
  - by rewrite app_nil_r.
  - unfold logged in *. cbn [fold_left]. rewrite IH. fields.
    by rewrite <-app_assoc.
Qed.

Lemma load_trace (recipe_info_df nutrition_df ingredients_df : DataFrame Status)
    (s : state) :
  trace (logged (load_calls recipe_info_df nutrition_df ingredients_df) s)
  = trace s
    ++ [Begin; Execute "DELETE FROM ingredients"; Execute "DELETE FROM nutrition";
        Execute "DELETE FROM recipe_info"; Commit;
        ToSql "recipe_info" recipe_info_df; ToSql "nutrition" nutrition_df;
        ToSql "ingredients" ingredients_df; Dispose].
Proof. apply trace_logged. Qed.

(** The load issues its calls in order and stops at the first one that
    raises. *)
Lemma load_run i n g (s : state) :
  load db i n g s
  = match first_failure db (load_calls i n g) with
    | Some (k, e) => Raise e (logged (take (S k) (load_calls i n g)) s)
    | None => Ok (logged (load_calls i n g) s)
    end.
Proof.
  unfold load, load_calls, database_call, and_then. cbn [first_failure].
  repeat (match goal with |- context [db ?call] => destruct (db call) end;
          [reflexivity|]; cbn [fmap option_fmap option_map prod_map fst snd id]).
  reflexivity.
Qed.

Lemma first_failure_None (calls : list event) :
  first_failure db calls = None ↔ ∀ call, call ∈ calls → db call = None.
Proof.
  induction calls as [|call calls IH]; cbn [first_failure].
  - split; [by intros _ call ?%elem_of_nil|done].
  - destruct (db call) eqn:E.
    + split; [done|]. intros Hall. rewrite Hall in E; [done|by left].
    + rewrite fmap_None, IH. split.
      * intros Hall call' [->|Hin]%elem_of_cons; [done|by apply Hall].
      * intros Hall call' Hin. apply Hall. by right.
Qed.

Lemma first_failure_Some (calls : list event) k e :
  first_failure db calls = Some (k, e) →
  (∃ call, calls !! k = Some call ∧ db call = Some e)
  ∧ ∀ k' call, k' < k → calls !! k' = Some call → db call = None.
Proof.
  revert k. induction calls as [|call calls IH]; intros k; [done|].
  cbn [first_failure]. destruct (db call) as [e'|] eqn:E.
  - intros [= <- <-]. split; [by exists call|]. lia.
  - destruct (first_failure db calls) as [[k0 e0]|] eqn:E0; [|done].
    cbn. intros [= <- <-]. destruct (IH k0 eq_refl) as [Hcall Hbefore].
    split; [done|]. intros [|k'] call' Hlt Hlookup.
    + by injection Hlookup as <-.
    + apply (Hbefore k'); [lia|done].
Qed.

(** Database calls leave the recipe data alone. *)
Lemma aligned_logged (calls : list event) (s : state) :
  fetched calls = [] → aligned s → aligned (logged calls s).
Proof.
  intros Hcalls. revert s. induction calls as [|call calls IH]; intros s Hs; [done|].
  change (call :: calls) with ([call] ++ calls) in Hcalls.
  rewrite fetched_app in Hcalls.
  apply app_eq_nil in Hcalls as [Hcall Hcalls].
  unfold logged in *. cbn [fold_left]. apply IH; [done|].
  by apply aligned_log.
Qed.

Lemma fetched_load_calls i n g k :
  fetched (take k (load_calls i n g) : list event) = [].
Proof. unfold load_calls. do 10 (destruct k as [|k]; [done|]). done. Qed.

Lemma aligned_load i n g (s : state) :
  aligned s → aligned (logged (load_calls i n g) s).
Proof. apply aligned_logged. done. Qed.

Lemma aligned_scrape : aligned (result_state (scrape web)).
Proof.
  unfold scrape.
  pose proof (aligned_base_page_loop initial_state aligned_initial) as Ha.
  destruct (base_page_loop web _ initial_state) as [s1|e s1]; [|done].
  cbn [result_state] in Ha. cbv zeta.
  assert (aligned (time_sleep 1 s1)) as Ha2 by (by apply aligned_log).
  destruct (base_soup _) as [document|]; [|done].
  destruct (results_count document) as [e|number_of_recipes]; [done|].
  destruct (number_of_pages number_of_recipes) as [e|pages]; [done|].
  by apply aligned_scrape_pages.
Qed.

Lemma database_calls_scrape :
  database_calls (trace (result_state (scrape web))) = [].
Proof.
  unfold scrape.
  pose proof (database_calls_base_page_loop (initial_state : state)) as Hd.
  destruct (base_page_loop web _ initial_state) as [s1|e s1]; [|done].
  cbn [result_state] in Hd. cbv zeta.
  assert (database_calls (trace (time_sleep 1 s1)) = []) as Hd2.
  { cbn [trace time_sleep log]. by rewrite database_calls_app, Hd. }
  destruct (base_soup _) as [document|]; [|done].
  destruct (results_count document) as [e|number_of_recipes]; [done|].
  destruct (number_of_pages number_of_recipes) as [e|pages]; [done|].
  by rewrite database_calls_scrape_pages.
Qed.

(** The script as [scrape], then the transformation and the load,
    which stops at the first database call that raises. *)
Lemma main_scrape :
  main web db
  = match scrape web with
    | Raise e s => Aborted e s
    | Ok s =>
        match transform s with
        | inl e => Aborted e s
        | inr (i, n, g) =>
            match first_failure db (load_calls i n g) with
            | Some (k, e) => Aborted e (logged (take (S k) (load_calls i n g)) s)
            | None => Finished i n g (logged (load_calls i n g) s)
            end
        end
    end.
Proof.
  unfold main, scrape.
  destruct (base_page_loop web _ initial_state) as [s1|e s1]; [|done].
  cbv zeta. destruct (base_soup _) as [document|]; [|done].
  destruct (results_count document) as [e|number_of_recipes]; [done|].
  destruct (number_of_pages number_of_recipes) as [e|pages]; [done|].
  destruct (scrape_pages web (seqZ 1 pages) _) as [s3|e s3]; [|done].
  destruct (transform s3) as [e|[[i n] g]]; [done|].
  rewrite load_run. by destruct (first_failure db (load_calls i n g)) as [[k e]|].
Qed.

(** Every run ends in the state in which the scraping ended, followed by
    the first database calls of the load (none when the script stopped
    before the load). *)
Lemma main_final :
  ∃ k i n g,
    final_state (main web db)
    = logged (take k (load_calls i n g)) (result_state (scrape web)).
Proof.
  rewrite main_scrape.
  pose (empty := {| df_rows := 0; df_columns := ∅ |} : DataFrame Status).
  destruct (scrape web) as [s|e s]; [|by exists 0, empty, empty, empty].
  destruct (transform s) as [e|[[i n] g]]; [by exists 0, empty, empty, empty|].
  destruct (first_failure db (load_calls i n g)) as [[k e]|].
  - by exists (S k), i, n, g.
  - by exists 9, i, n, g.
Qed.

(** After the frames are built, the run finishes exactly when no
    database call raises. *)
Lemma main_loads (s : state) i n g :
  scrape web = Ok s → transform s = inr (i, n, g) →
  main web db = Finished i n g (logged (load_calls i n g) s)
  ↔ ∀ call, call ∈ load_calls i n g → db call = None.
Proof.
  intros Hscrape Ht. rewrite main_scrape, Hscrape, Ht, <-first_failure_None.
  by destruct (first_failure db (load_calls i n g)) as [[k e]|].
Qed.

Lemma database_calls_load_calls i n g k :
  database_calls (take k (load_calls i n g) : list event)
  = take k (load_calls i n g).
Proof. unfold load_calls. do 10 (destruct k as [|k]; [done|]). done. Qed.

Lemma recipe_requests_load_calls link i n g k :
  recipe_requests link (take k (load_calls i n g) : list event) = [].
Proof. unfold load_calls. do 10 (destruct k as [|k]; [done|]). done. Qed.

Lemma used_logged (calls : list event) (s : state) :
  used_recipe_links (logged calls s) = used_recipe_links s.
Proof.
  revert s. induction calls as [|call calls IH]; intros s; [done|].
  unfold logged in *. cbn [fold_left]. by rewrite IH.
Qed.

Lemma successful_logged (calls : list event) (s : state) :
  successful_links (logged calls s) = successful_links s.
Proof.
  revert s. induction calls as [|call calls IH]; intros s; [done|].
  unfold logged in *. cbn [fold_left]. by rewrite IH.
Qed.

(** What a finished run went through. *)
Lemma main_finished i n g (s : state) :
  main web db = Finished i n g s →
  ∃ s3, aligned s3
        ∧ database_calls (trace s3) = []
        ∧ transform s3 = inr (i, n, g)
        ∧ s = logged (load_calls i n g) s3.
Proof.
  unfold main.
  pose proof (aligned_base_page_loop initial_state aligned_initial) as Ha.
  pose proof (database_calls_base_page_loop initial_state) as Hd.
  destruct (base_page_loop web _ initial_state) as [s1|e s1]; [|done].
  cbn [result_state] in Ha, Hd.
  set (s2 := time_sleep 1 s1).
  assert (aligned s2) as Ha2 by (by apply aligned_log).
  assert (database_calls (trace s2) = []) as Hd2.
  { subst s2. fields. by rewrite database_calls_app, Hd. }
  destruct (base_soup s2) as [document|]; [|done].
  destruct (results_count document) as [e|number_of_recipes]; [done|].
  destruct (number_of_pages number_of_recipes) as [e|pages]; [done|].
  pose proof (aligned_scrape_pages web (seqZ 1 pages) s2 Ha2) as Ha3.
  pose proof (database_calls_scrape_pages (seqZ 1 pages) s2) as Hd3.
  destruct (scrape_pages web (seqZ 1 pages) s2) as [s3|e s3]; [|done].
  cbn [result_state] in Ha3, Hd3.
  destruct (transform s3) as [e|[[i' n'] g']] eqn:Ht; [done|].
  rewrite load_run.
  destruct (first_failure db (load_calls i' n' g')) as [[k e]|]; [done|].
  intros [= <- <- <- <-]. exists s3. rewrite Hd3. done.
Qed.

Lemma aligned_main : aligned (final_state (main web db)).
Proof.
  unfold main.
  pose proof (aligned_base_page_loop initial_state aligned_initial) as Ha.
  destruct (base_page_loop web _ initial_state) as [s1|e s1]; [|done].
  cbn [result_state] in Ha.
  set (s2 := time_sleep 1 s1).
  assert (aligned s2) as Ha2 by (by apply aligned_log).
  destruct (base_soup s2) as [document|]; [|done].
  destruct (results_count document) as [e|number_of_recipes]; [done|].
  destruct (number_of_pages number_of_recipes) as [e|pages]; [done|].
  pose proof (aligned_scrape_pages web (seqZ 1 pages) s2 Ha2) as Ha3.
  destruct (scrape_pages web (seqZ 1 pages) s2) as [s3|e s3]; [|done].
  cbn [result_state] in Ha3.
  destruct (transform s3) as [e|[[i n] g]]; [done|].
  rewrite load_run.
  destruct (first_failure db (load_calls i n g)) as [[k e]|]; cbn [final_state].
  - apply aligned_logged; [apply fetched_load_calls|done].
  - by apply aligned_load.
Qed.

End Run.

(** ** Tables of a finished run *)

Section Tables.
Context {Response Status : Type} `{!Scripts Response Status}.
Variable web : nat → string → option Response.
Variable db : event Response Status → option exn.

Abbreviation state := (state Response Status).
Abbreviation event := (event Response Status).

Lemma transform_inr (s : state) i n g :
  transform s = inr (i, n, g) →
  df_rows n = length (recipe_nutritional_data s)
  ∧ recipe_id_column n = Number <$> seqZ 1 (Z.of_nat (df_rows n))
  ∧ recipe_id_column i = Number <$> seqZ 1 (Z.of_nat (df_rows i))
  ∧ (∀ name column,
       recipe_info_data s !! name = Some column → length column = df_rows i)
  ∧ g = ingredients_frame (flattened_ingredients (recipe_ingredients s)).
Proof.
  unfold transform, mbind, exn_bind.
  destruct (final_nutrition_dict _) as [e|final] eqn:Hfinal; [done|].
  destruct (pd_DataFrame (recipe_info_data s)) as [e|i0] eqn:Hi0; [done|].
  destruct (pd_DataFrame (_ <$> final)) as [e|n0] eqn:Hn0; [done|].
  destruct (insert_recipe_id i0) as [e|i1] eqn:Hi1; [done|].
  destruct (insert_recipe_id n0) as [e|n1] eqn:Hn1; [done|].
  intros [= <- <- <-].
  apply insert_recipe_id_inr in Hi1 as (Hri & Hci & _).
  apply insert_recipe_id_inr in Hn1 as (Hrn & Hcn & _).
  apply pd_DataFrame_inr in Hi0 as (_ & Hcols).
  rewrite Hri, Hrn. split; [by eapply nutrition_frame_rows|]. done.
Qed.

Lemma recipe_info_data_fixed (s : state) name :
  name ∈ ["RecipeName"; "RecipeLink"; "CookingTime"] →
  recipe_category_information s !! name = None →
  ∃ column : list (cell Status),
    recipe_info_data s !! name = Some column
    ∧ length column
      = match name with
        | "RecipeName" => length (recipe_names s)
        | "RecipeLink" => length (successful_links s)
        | _ => length (recipe_cooking_times s)
        end.
Proof.
  intros Hname Hfree. unfold recipe_info_data. cbv zeta.
  rewrite lookup_union_r by (by rewrite lookup_fmap, Hfree).
  apply elem_of_cons in Hname as [->|Hname];
    [|apply elem_of_cons in Hname as [->|Hname];
      [|apply list_elem_of_singleton in Hname as ->]].
  - eexists. split; [reflexivity|]. by rewrite length_fmap.
  - eexists. split; [reflexivity|]. by rewrite length_fmap.
  - eexists. split; [reflexivity|]. by rewrite length_fmap.
Qed.

Lemma aligned_lengths (s : state) :
  aligned s →
  length (recipe_names s) = length (fetched (trace s))
  ∧ length (successful_links s) = length (fetched (trace s))
  ∧ length (recipe_cooking_times s) = length (fetched (trace s))
  ∧ length (recipe_nutritional_data s) = length (fetched (trace s))
  ∧ length (recipe_ingredients s) = length (fetched (trace s)).
Proof.
  intros [Hn Hl Ht Hnu Hi _]. rewrite Hn, Hl, Ht, Hnu, Hi.
  by rewrite !length_fmap.
Qed.

Lemma fetched_load i n g (s : state) :
  fetched (trace (logged (load_calls i n g) s)) = fetched (trace s).
Proof. by rewrite load_trace, fetched_app, app_nil_r. Qed.

Lemma recipe_info_rows i n g (s : state) name :
  aligned s → transform s = inr (i, n, g) →
  name ∈ ["RecipeName"; "RecipeLink"; "CookingTime"] →
  recipe_category_information s !! name = None →
  df_rows i = length (fetched (trace s)).
Proof.
  intros Ha (_ & _ & _ & Hcols & _)%transform_inr Hname Hfree.
  destruct (aligned_lengths s Ha) as (Ln & Ll & Lt & _).
  destruct (recipe_info_data_fixed s name Hname Hfree) as (column & Hcol & Hlen).
  apply Hcols in Hcol. rewrite <-Hcol, Hlen. by repeat case_match.
Qed.

(** C1, as amended.  In a run that finishes, provided that one of the
    three fixed column names [RecipeName], [RecipeLink], [CookingTime]
    is not also a category key, the recipe table and the nutrition table
    have the same number of rows, the number of recipes fetched, and
    every recipe identifier of the ingredient table lies between 1 and
    that number. *)
Theorem row_counts_agree i n g (s : state) name :
  main web db = Finished i n g s →
  name ∈ ["RecipeName"; "RecipeLink"; "CookingTime"] →
  recipe_category_information s !! name = None →
  df_rows i = df_rows n
  ∧ df_rows n = length (fetched (trace s))
  ∧ Forall (λ c, ∃ id, c = Number id ∧ (1 ≤ id ≤ Z.of_nat (df_rows i))%Z)
           (recipe_id_column g).
Proof.
  intros (s3 & Ha & _ & Ht & ->)%main_finished Hname Hfree.
  change (recipe_category_information (logged (load_calls i n g) s3))
    with (recipe_category_information s3) in Hfree.
  rewrite fetched_load.
  pose proof (recipe_info_rows i n g s3 name Ha Ht Hname Hfree) as Hrows.
  apply transform_inr in Ht as (Hn & _ & _ & _ & ->).
  destruct (aligned_lengths s3 Ha) as (_ & _ & _ & Lnu & Li).
  split; [lia|]. split; [lia|].
  unfold recipe_id_column, ingredients_frame. cbn [df_columns].
  rewrite lookup_insert_ne by done. rewrite lookup_singleton_eq. cbn [default].
  apply Forall_fmap, Forall_forall. intros [id ingredient] Hin. cbn.
  exists id. split; [done|].
  apply flattened_ingredients_ids in Hin. lia.
Qed.

End Tables.

(** ** Category columns *)

Section Categories.
Context {Response Status : Type} `{!Scripts Response Status}.
Variable web : nat → string → option Response.
Variable db : event Response Status → option exn.

Abbreviation state := (state Response Status).

Lemma category_column_length category (rs : list (string * Response)) :
  length (category_column category rs) ≤ length rs.
Proof.
  unfold category_column. induction rs as [|p rs IH]; [done|].
  cbn. destruct (get_recipe_categories p.2 !! category); cbn; lia.
Qed.

Lemma category_column_short category (rs : list (string * Response)) p :
  p ∈ rs → get_recipe_categories p.2 !! category = None →
  length (category_column category rs) < length rs.
Proof.
  intros Hin Hnone. induction Hin as [p rs|p q rs Hin IH].
  - pose proof (category_column_length category rs).
    unfold category_column in *. cbn. rewrite Hnone. cbn. lia.
  - specialize (IH Hnone). unfold category_column in *. cbn.
    destruct (get_recipe_categories q.2 !! category); cbn; lia.
Qed.

Lemma category_column_nonempty category (rs : list (string * Response)) p :
  p ∈ rs → is_Some (get_recipe_categories p.2 !! category) →
  0 < length (category_column category rs).
Proof.
  intros Hin [status Hsome]. induction Hin as [p rs|p q rs Hin IH].
  - unfold category_column. cbn. rewrite Hsome. cbn. lia.
  - specialize (IH Hsome). unfold category_column in *. cbn.
    destruct (get_recipe_categories q.2 !! category); cbn; lia.
Qed.

(** C2.  A category met for the first time starts a column of one entry,
    however many recipes were recorded before.  At the end of a run, the
    column of each category holds the statuses of exactly the fetched
    recipes that have the category, in order; so a category missing from
    one fetched recipe and present in another has a column that is not
    empty and is shorter than the column of recipe names, whose length
    is the number of fetched recipes. *)
Theorem category_columns_skew (category : string) :
  (∀ link r (s : state) status,
     recipe_category_information s !! category = None →
     get_recipe_categories r !! category = Some status →
     recipe_category_information (record_recipe link r s) !! category
     = Some [status])
  ∧ default [] (recipe_category_information (final_state (main web db)) !! category)
    = category_column category (fetched (trace (final_state (main web db))))
  ∧ length (recipe_names (final_state (main web db)))
    = length (fetched (trace (final_state (main web db))))
  ∧ ∀ p q,
      p ∈ fetched (trace (final_state (main web db))) →
      q ∈ fetched (trace (final_state (main web db))) →
      get_recipe_categories p.2 !! category = None →
      is_Some (get_recipe_categories q.2 !! category) →
      ∃ column,
        recipe_category_information (final_state (main web db)) !! category
        = Some column
        ∧ 0 < length column < length (recipe_names (final_state (main web db))).
Proof.
  pose proof (aligned_main web db) as Ha.
  destruct (aligned_lengths _ Ha) as (Ln & _).
  pose proof (aligned_categories _ Ha category) as Hc.
  set (s := final_state (main web db)) in *.
  split; [|split; [|split; [done|]]].
  - intros link r s0 status Hnew Hstatus. unfold record_recipe.
    destruct (get_recipe_nutritional_values r). cbn.
    by rewrite fill_category_information_lookup, Hstatus, Hnew.
  - rewrite Hc. by destruct (category_column category (fetched (trace s))).
  - intros p q Hp Hq Hnone Hsome.
    pose proof (category_column_short category _ p Hp Hnone) as Hshort.
    pose proof (category_column_nonempty category _ q Hq Hsome) as Hpos.
    rewrite Hc, Ln.
    destruct (category_column category (fetched (trace s))) as [|status column];
      [cbn in Hpos; lia|].
    eexists. split; [done|]. lia.
Qed.

End Categories.


(** ** Visited links *)

Section Visited.
Context {Response Status : Type} `{!Scripts Response Status}.
Variable web : nat → string → option Response.
Variable db : event Response Status → option exn.

Abbreviation state := (state Response Status).
Abbreviation event := (event Response Status).

Lemma recipe_requests_app link (t1 t2 : list event) :
  recipe_requests link (t1 ++ t2)
  = recipe_requests link t1 ++ recipe_requests link t2.
Proof. apply omap_app. Qed.

Lemma failed_attempts_S kind url j :
  (failed_attempts kind url (S j) : list event)
  = [Get kind url None; Sleep retry_delay] ++ failed_attempts kind url j.
Proof. reflexivity. Qed.

Lemma recipe_requests_failed_attempts link kind url j :
  recipe_requests link (failed_attempts kind url j : list event)
  = match kind with
    | RecipePage => if decide (url = link) then replicate j None else []
    | _ => []
    end.
Proof.
  induction j as [|j IH]; [by destruct kind; [| |case_decide]|].
  rewrite failed_attempts_S, recipe_requests_app, IH.
  destruct kind; [done|done|]. cbn. by case_decide.
Qed.

Lemma recipe_requests_fetch_failure link kind url :
  recipe_requests link (fetch_failure kind url : list event)
  = match kind with
    | RecipePage => if decide (url = link) then replicate max_retries None else []
    | _ => []
    end.
Proof.
  unfold fetch_failure.
  rewrite recipe_requests_app, recipe_requests_failed_attempts.
  destruct kind; [done|done|]. cbn. by case_decide.
Qed.

Lemma recipe_requests_fetch_success link kind url j r :
  recipe_requests link (fetch_success kind url j r : list event)
  = match kind with
    | RecipePage =>
        if decide (url = link) then replicate j None ++ [Some r] else []
    | _ => []
    end.
Proof.
  unfold fetch_success.
  rewrite recipe_requests_app, recipe_requests_failed_attempts.
  destruct kind; [done|done|]. cbn. by case_decide.
Qed.

Lemma used_recipe_loop link (s : state) :
  used_recipe_links (recipe_loop web (seq 0 max_retries) link s)
  = used_recipe_links s.
Proof.
  rewrite recipe_loop_run.
  destruct (first_response web link (clock s) max_retries) as [[j r]|]; [|done].
  unfold record_recipe. by destruct (get_recipe_nutritional_values r).
Qed.

Lemma used_visit_link link (s : state) :
  used_recipe_links (visit_link web link s) = used_recipe_links s ++ [link].
Proof. unfold visit_link. fields. by rewrite used_recipe_loop. Qed.

Lemma used_visit_links links (s : state) :
  used_recipe_links (fold_left (λ s link, visit_link web link s) links s)
  = used_recipe_links s ++ links.
Proof.
  revert s. induction links as [|link links IH]; intros s.
  - by rewrite app_nil_r.
  - cbn [fold_left]. rewrite IH, used_visit_link. by rewrite <-app_assoc.
Qed.

(** The requests that one visit adds for a link. *)
Lemma recipe_requests_visit_link link' link (s : state) :
  ∃ added,
    recipe_requests link' (trace (visit_link web link s))
    = recipe_requests link' (trace s) ++ added
    ∧ (link' ≠ link → added = [])
    ∧ length added ≤ max_retries
    ∧ length (omap id added) ≤ 1.
Proof.
  unfold visit_link. fields. rewrite recipe_loop_run.
  destruct (first_response web link (clock s) max_retries) as [[j r]|] eqn:E.
  - apply first_response_bound in E.
    unfold record_recipe. destruct (get_recipe_nutritional_values r). fields.
    rewrite !recipe_requests_app, recipe_requests_fetch_success.
    cbn. rewrite app_nil_r. eexists. split; [done|].
    case_decide; [|unfold max_retries; cbn; split; [done|split; lia]]. split; [congruence|].
    rewrite omap_app, !length_app, length_replicate. cbn.
    unfold max_retries in *. split; [lia|].
    assert (omap id (replicate j (@None Response)) = []) as ->; [|done].
    clear. by induction j.
  - fields. rewrite !recipe_requests_app, recipe_requests_fetch_failure.
    cbn. rewrite app_nil_r. eexists. split; [done|].
    case_decide; [|unfold max_retries; cbn; split; [done|split; lia]]. split; [congruence|].
    unfold max_retries. cbn. split; lia.
Qed.

Lemma recipe_requests_visit_links link' links (s : state) :
  link' ∉ links →
  recipe_requests link' (trace (fold_left (λ s link, visit_link web link s) links s))
  = recipe_requests link' (trace s).
Proof.
  revert s. induction links as [|link links IH]; intros s Hnotin; [done|].
  apply not_elem_of_cons in Hnotin as [Hne Hnotin].
  cbn [fold_left]. rewrite IH by done.
  destruct (recipe_requests_visit_link link' link s) as (added & -> & Hadded & _).
  by rewrite Hadded, app_nil_r.
Qed.

(** The filtering loop keeps the links that are not in the visited
    list, in order and with their repetitions. *)
Lemma collect_new_links_filter links used :
  collect_new_links links used = filter (λ link, link ∉ used) links.
Proof.
  unfold collect_new_links.
  assert (∀ acc,
            fold_left
              (λ new_recipe_links link,
                 if decide (link ∈ used) then new_recipe_links
                 else new_recipe_links ++ [link]) links acc
            = acc ++ filter (λ link, link ∉ used) links) as Hgen.
  { induction links as [|link links IH]; intros acc.
    - by rewrite app_nil_r.
    - cbn [fold_left]. rewrite IH. rewrite filter_cons.
      destruct (decide (link ∈ used)).
      + by rewrite decide_False by auto.
      + rewrite decide_True by done. by rewrite <-app_assoc. }
  apply (Hgen []).
Qed.

Lemma page_loop_requests link page_url (s : state) :
  recipe_requests link (trace (page_loop web (seq 0 max_retries) page_url s))
  = recipe_requests link (trace s)
  ∧ used_recipe_links (page_loop web (seq 0 max_retries) page_url s)
    = used_recipe_links s.
Proof.
  rewrite page_loop_run.
  destruct (first_response web page_url (clock s) max_retries) as [[j r]|]; fields.
  - by rewrite recipe_requests_app, recipe_requests_fetch_success, app_nil_r.
  - by rewrite recipe_requests_app, recipe_requests_fetch_failure, app_nil_r.
Qed.

(** A page: which links are visited, and what happens to the requests
    of a link visited before. *)
Lemma scrape_page_visited page_number (s : state) link :
  link ∈ used_recipe_links s →
  recipe_requests link (trace (result_state (scrape_page web page_number s)))
  = recipe_requests link (trace s)
  ∧ link ∈ used_recipe_links (result_state (scrape_page web page_number s)).
Proof.
  intros Hused. unfold scrape_page.
  set (page_url := filtered_page_url +:+ _).
  destruct (page_loop_requests link page_url s) as [Hreq Huse].
  set (s1 := time_sleep 1 _).
  assert (recipe_requests link (trace s1) = recipe_requests link (trace s)) as Hreq1.
  { subst s1. fields. by rewrite recipe_requests_app, app_nil_r. }
  assert (used_recipe_links s1 = used_recipe_links s) as Huse1 by done.
  destruct (soup s1) as [document|]; cbn [result_state].
  - rewrite recipe_requests_visit_links, used_visit_links.
    + split; [done|]. apply elem_of_app. left. by rewrite Huse1.
    + rewrite collect_new_links_filter, list_elem_of_filter, Huse1. tauto.
  - by rewrite Huse1.
Qed.

Lemma scrape_pages_visited page_list (s : state) link :
  link ∈ used_recipe_links s →
  recipe_requests link (trace (result_state (scrape_pages web page_list s)))
  = recipe_requests link (trace s).
Proof.
  revert s. induction page_list as [|page_number page_list IH]; intros s Hused; [done|].
  cbn [scrape_pages].
  destruct (scrape_page_visited page_number s link Hused) as [Hreq Hused'].
  destruct (scrape_page web page_number s) as [s1|e s1]; [|done].
  cbn [result_state] in Hreq, Hused'. by rewrite IH.
Qed.

Lemma soup_recipe_loop link (s : state) :
  soup (recipe_loop web (seq 0 max_retries) link s) = soup s.
Proof.
  rewrite recipe_loop_run.
  destruct (first_response web link (clock s) max_retries) as [[j r]|]; [|done].
  unfold record_recipe. by destruct (get_recipe_nutritional_values r).
Qed.

Lemma soup_visit_links links (s : state) :
  soup (fold_left (λ s link, visit_link web link s) links s) = soup s.
Proof.
  revert s. induction links as [|link links IH]; intros s; [done|].
  cbn [fold_left]. rewrite IH. unfold visit_link. cbn [soup time_sleep log mark_used].
  apply soup_recipe_loop.
Qed.

End Visited.

Section VisitedOnce.
Context {Response Status : Type} `{!Scripts Response Status}.
Variable web : nat → string → option Response.
Variable db : event Response Status → option exn.

Abbreviation state := (state Response Status).
Abbreviation event := (event Response Status).

Lemma visited_once_same (s s' : state) :
  (∀ link, recipe_requests link (trace s') = recipe_requests link (trace s)) →
  used_recipe_links s' = used_recipe_links s →
  visited_once s → visited_once s'.
Proof.
  intros Hreq Hused [Hnd Hall]. split; [by rewrite Hused|].
  intros link. rewrite Hreq, Hused. apply Hall.
Qed.

Lemma visited_once_visit_link link (s : state) :
  link ∉ used_recipe_links s →
  visited_once s → visited_once (visit_link web link s).
Proof.
  intros Hnew [Hnd Hall]. split.
  - rewrite used_visit_link. apply NoDup_app. split; [done|].
    split; [|apply NoDup_singleton].
    intros link' Hin ->%list_elem_of_singleton. done.
  - intros link'. rewrite used_visit_link.
    destruct (recipe_requests_visit_link web link' link s)
      as (added & -> & Hother & Hlen & Hsucc).
    destruct (Hall link') as (Hunvisited & Hlen' & Hsucc').
    destruct (decide (link' = link)) as [->|Hne].
    + rewrite Hunvisited by done. cbn [app]. split; [|done].
      intros Hnotin. exfalso. apply Hnotin, elem_of_app. right. by left.
    + rewrite Hother by done. rewrite app_nil_r. split; [|done].
      intros Hnotin. apply Hunvisited. intros Hin. apply Hnotin, elem_of_app. by left.
Qed.

Lemma visited_once_visit_links links (s : state) :
  NoDup links → (∀ link, link ∈ links → link ∉ used_recipe_links s) →
  visited_once s →
  visited_once (fold_left (λ s link, visit_link web link s) links s).
Proof.
  intros Hnd. revert s.
  induction Hnd as [|link links Hnotin Hnd IH]; intros s Hfresh Hs; [done|].
  cbn [fold_left]. apply IH.
  - intros link' Hin. rewrite used_visit_link.
    intros [Hused| ->%list_elem_of_singleton]%elem_of_app; [|done].
    apply (Hfresh link'); [by right|done].
  - apply visited_once_visit_link; [|done]. apply Hfresh. by left.
Qed.

Lemma listings_app (t1 t2 : list event) :
  listings (t1 ++ t2) = listings t1 ++ listings t2.
Proof. apply omap_app. Qed.

Lemma listings_failed_attempts kind url j :
  listings (failed_attempts kind url j : list event) = [].
Proof.
  induction j as [|j IH]; [done|].
  rewrite failed_attempts_S, listings_app, IH. by destruct kind.
Qed.

Lemma listings_fetch_failure kind url :
  listings (fetch_failure kind url : list event) = [].
Proof.
  unfold fetch_failure. rewrite listings_app, listings_failed_attempts.
  by destruct kind.
Qed.

Lemma listings_fetch_success kind url j (r : Response) :
  listings (fetch_success kind url j r : list event)
  = match kind with ListingPage => [r] | _ => [] end.
Proof.
  unfold fetch_success. rewrite listings_app, listings_failed_attempts.
  by destruct kind.
Qed.

Lemma listings_visit_links links (s : state) :
  listings (trace (fold_left (λ s link, visit_link web link s) links s))
  = listings (trace s).
Proof.
  revert s. induction links as [|link links IH]; intros s; [done|].
  cbn [fold_left]. rewrite IH. unfold visit_link. fields.
  rewrite recipe_loop_run.
  destruct (first_response web link (clock s) max_retries) as [[j r]|].
  - unfold record_recipe. destruct (get_recipe_nutritional_values r). fields.
    rewrite !listings_app, listings_fetch_success. cbn. by rewrite !app_nil_r.
  - fields. rewrite !listings_app, listings_fetch_failure. cbn.
    by rewrite !app_nil_r.
Qed.

Lemma listings_load_calls i n g k :
  listings (take k (load_calls i n g) : list event) = [].
Proof. unfold load_calls. do 10 (destruct k as [|k]; [done|]). done. Qed.

(** The pages fetched so far stay on the trace. *)
Lemma listings_distinct_app (t1 t2 : list event) :
  listings_distinct (t1 ++ t2) → listings_distinct t1.
Proof.
  intros Hd document Hin. apply Hd. rewrite listings_app.
  apply elem_of_app. by left.
Qed.

(** The state after the retry loop of a page and the wait. *)
Lemma page_loop_listed page_url (s : state) :
  soup_listed s →
  soup_listed (time_sleep 1 (page_loop web (seq 0 max_retries) page_url s))
  ∧ ∃ more,
      trace (time_sleep 1 (page_loop web (seq 0 max_retries) page_url s))
      = trace s ++ more.
Proof.
  intros Hs. rewrite page_loop_run. unfold soup_listed in *.
  destruct (first_response web page_url (clock s) max_retries) as [[j r]|]; fields.
  - split; [|rewrite <-app_assoc; eauto].
    intros document [= <-].
    rewrite !listings_app, listings_fetch_success.
    apply elem_of_app. left. apply elem_of_app. right. by left.
  - split; [|rewrite <-app_assoc; eauto].
    intros document Hdoc. rewrite !listings_app. apply elem_of_app. left.
    apply elem_of_app. left. by apply Hs.
Qed.

Lemma trace_visit_links links (s : state) :
  ∃ more,
    trace (fold_left (λ s link, visit_link web link s) links s) = trace s ++ more.
Proof.
  revert s. induction links as [|link links IH]; intros s.
  - exists []. by rewrite app_nil_r.
  - cbn [fold_left]. destruct (IH (visit_link web link s)) as [more ->].
    unfold visit_link. fields. rewrite recipe_loop_run.
    destruct (first_response web link (clock s) max_retries) as [[j r]|].
    + unfold record_recipe. destruct (get_recipe_nutritional_values r). fields.
      rewrite <-!app_assoc. eauto.
    + fields. rewrite <-!app_assoc. eauto.
Qed.

Lemma trace_scrape_page page_number (s : state) :
  ∃ more, trace (result_state (scrape_page web page_number s)) = trace s ++ more.
Proof.
  unfold scrape_page. set (page_url := filtered_page_url +:+ _).
  assert (soup_listed (initial_state : state)) as H0 by done.
  assert (∃ more,
            trace (time_sleep 1 (page_loop web (seq 0 max_retries) page_url s))
            = trace s ++ more) as [more Hmore].
  { rewrite page_loop_run.
    destruct (first_response web page_url (clock s) max_retries) as [[j r]|];
      fields; rewrite <-app_assoc; eauto. }
  destruct (soup _) as [document|]; cbn [result_state]; [|eauto].
  destruct (trace_visit_links
              (collect_new_links (get_recipe_links document base_url)
                 (used_recipe_links
                    (time_sleep 1 (page_loop web (seq 0 max_retries) page_url s))))
              (time_sleep 1 (page_loop web (seq 0 max_retries) page_url s)))
    as [more' ->].
  rewrite Hmore, <-app_assoc. eauto.
Qed.

Lemma trace_scrape_pages page_list (s : state) :
  ∃ more, trace (result_state (scrape_pages web page_list s)) = trace s ++ more.
Proof.
  revert s. induction page_list as [|page_number page_list IH]; intros s.
  - exists []. by rewrite app_nil_r.
  - cbn [scrape_pages].
    destruct (trace_scrape_page page_number s) as [more Hmore].
    destruct (scrape_page web page_number s) as [s1|e s1]; [|eauto].
    cbn [result_state] in Hmore. destruct (IH s1) as [more' ->].
    rewrite Hmore, <-app_assoc. eauto.
Qed.

(** A page whose document, and the documents before it, name no link
    twice keeps the invariant. *)
Lemma visited_once_scrape_page page_number (s : state) :
  listings_distinct (trace (result_state (scrape_page web page_number s))) →
  visited_once s → soup_listed s →
  visited_once (result_state (scrape_page web page_number s))
  ∧ soup_listed (result_state (scrape_page web page_number s)).
Proof.
  unfold scrape_page.
  set (page_url := filtered_page_url +:+ _).
  intros Hdistinct Hs Hlisted.
  destruct (page_loop_listed page_url s Hlisted) as [Hlisted1 _].
  revert Hdistinct Hlisted1. set (s1 := time_sleep 1 _). intros Hdistinct Hlisted1.
  assert (visited_once s1) as Hs1.
  { apply (visited_once_same s); [|by apply page_loop_requests|done].
    intros link. subst s1. fields. rewrite recipe_requests_app, app_nil_r.
    by apply page_loop_requests. }
  destruct (soup s1) as [document|] eqn:Hdoc; [|done]. cbn [result_state] in *.
  split.
  - rewrite collect_new_links_filter.
    apply visited_once_visit_links; [|by intros link [? _]%list_elem_of_filter|done].
    apply NoDup_filter, Hdistinct. rewrite listings_visit_links.
    by apply Hlisted1.
  - intros document'. rewrite soup_visit_links, listings_visit_links.
    apply Hlisted1.
Qed.

Lemma visited_once_scrape_pages page_list (s : state) :
  listings_distinct (trace (result_state (scrape_pages web page_list s))) →
  visited_once s → soup_listed s →
  visited_once (result_state (scrape_pages web page_list s)).
Proof.
  revert s. induction page_list as [|page_number page_list IH];
    intros s Hdistinct Hs Hlisted; [done|].
  cbn [scrape_pages] in *.
  pose proof (visited_once_scrape_page page_number s) as Hpage.
  destruct (scrape_page web page_number s) as [s1|e s1].
  - cbn [result_state] in Hpage.
    destruct (trace_scrape_pages page_list s1) as [more Hmore].
    pose proof Hdistinct as Hpage_distinct.
    rewrite Hmore in Hpage_distinct.
    apply listings_distinct_app in Hpage_distinct.
    destruct (Hpage Hpage_distinct Hs Hlisted) as [Hs1 Hlisted1].
    by apply IH.
  - by apply Hpage.
Qed.

Lemma visited_once_scrape :
  listings_distinct (trace (result_state (scrape web))) →
  visited_once (result_state (scrape web)).
Proof.
  assert (visited_once (initial_state : state)) as H0.
  { split; [apply NoDup_nil_2|]. intros link. cbn. split; [done|lia]. }
  unfold scrape. rewrite base_page_loop_run.
  destruct (first_response web _ _ max_retries) as [[j r]|].
  2:{ intros _. apply (visited_once_same initial_state); [|done|done].
      intros link. cbn [result_state]. fields.
      by rewrite recipe_requests_app, recipe_requests_fetch_failure. }
  set (s2 := time_sleep 1 _).
  assert (visited_once s2) as Hs2.
  { apply (visited_once_same initial_state); [|done|done].
    intros link. subst s2. fields.
    by rewrite !recipe_requests_app, recipe_requests_fetch_success. }
  assert (soup_listed s2) as Hlisted2 by done.
  destruct (base_soup s2) as [document|]; [|done].
  destruct (results_count document) as [e|number_of_recipes]; [done|].
  destruct (number_of_pages number_of_recipes) as [e|pages]; [done|].
  intros Hdistinct. by apply visited_once_scrape_pages.
Qed.

Lemma visited_once_main :
  listings_distinct (trace (final_state (main web db))) →
  visited_once (final_state (main web db)).
Proof.
  destruct (main_final web db) as (k & i & n & g & ->).
  rewrite trace_logged. intros Hdistinct%listings_distinct_app.
  apply (visited_once_same (result_state (scrape web)));
    [|apply used_logged|by apply visited_once_scrape].
  intros link.
  by rewrite trace_logged, recipe_requests_app, recipe_requests_load_calls,
    app_nil_r.
Qed.

End VisitedOnce.

(** C4, as amended.  A link that is in the visited list when a listing
    page is scraped receives no further request, on that page or on any
    later one, whatever the pages list.  If none of the listing pages
    fetched in the run names a link twice, then over the whole run the
    visited list has no repetition and every link receives at most
    [max_retries] requests, at most one of them with success. *)
Theorem visited_links_not_refetched
    {Response Status : Type} `{!Scripts Response Status}
    (web : nat → string → option Response)
    (db : event Response Status → option exn) :
  (∀ page_list (s : state Response Status) link,
     link ∈ used_recipe_links s →
     recipe_requests link (trace (result_state (scrape_pages web page_list s)))
     = recipe_requests link (trace s))
  ∧ ((∀ document,
        document ∈ listings (trace (final_state (main web db))) →
        NoDup (get_recipe_links document base_url)) →
     NoDup (used_recipe_links (final_state (main web db)))
     ∧ ∀ link,
         length (recipe_requests link (trace (final_state (main web db))))
           ≤ max_retries
         ∧ length (omap id (recipe_requests link (trace (final_state (main web db)))))
           ≤ 1).
Proof.
  split; [apply scrape_pages_visited|].
  intros Hdistinct. destruct (visited_once_main web db Hdistinct) as [Hnd Hall].
  split; [done|]. intros link. by destruct (Hall link) as (_ & ? & ?).
Qed.

(** ** Links whose fetch fails *)

Section FailedLinks.
Context {Response Status : Type} `{!Scripts Response Status}.
Variable web : nat → string → option Response.
Variable db : event Response Status → option exn.

Abbreviation state := (state Response Status).
Abbreviation event := (event Response Status).

(** A link whose fetch fails [max_retries] times. *)
Lemma visit_link_failed link (s : state) :
  (∀ i, i < max_retries → web (i + clock s) link = None) →
  visit_link web link s
  = time_sleep 1
      (mark_used link (with_io max_retries (fetch_failure RecipePage link) s)).
Proof.
  intros Hfail%first_response_none. unfold visit_link.
  by rewrite recipe_loop_run, Hfail.
Qed.

(** A recorded recipe comes from a request to its link that succeeded. *)
Lemma fetched_recipe_requests link r (t : list event) :
  (link, r) ∈ fetched t → Some r ∈ recipe_requests link t.
Proof.
  induction t as [|e t IH]; [by intros ?%elem_of_nil|].
  change (e :: t) with ([e] ++ t).
  rewrite fetched_app, recipe_requests_app, !elem_of_app.
  intros [Hhere|Hlater]; [left|right; by apply IH].
  destruct e as [[] url [r'|]| | | | | |]; try by apply elem_of_nil in Hhere.
  apply list_elem_of_singleton in Hhere as [= -> ->].
  cbn. rewrite decide_True by done. by left.
Qed.

(** The body of the page loop raises only by reading the unbound
    [soup]; no recipe fetch makes it raise. *)
Lemma scrape_page_raises page_number (s s' : state) e :
  scrape_page web page_number s = Raise e s' →
  e = NameError "soup" ∧ soup s = None.
Proof.
  unfold scrape_page. rewrite page_loop_run.
  destruct (first_response web _ (clock s) max_retries) as [[j r]|]; fields; [done|].
  destruct (soup s); [done|]. by intros [= <- _].
Qed.

End FailedLinks.

(** ** A listing page that cannot be fetched *)

Section PageFailure.
Context {Response Status : Type} `{!Scripts Response Status}.
Variable web : nat → string → option Response.
Variable db : event Response Status → option exn.

Abbreviation state := (state Response Status).

(** When no listing page was fetched before, [soup] is unbound after the
    retry loop and the script stops with a [NameError]. *)
Lemma scrape_page_unbound page_number (s : state) :
  soup s = None →
  (∀ i, i < max_retries →
        web (i + clock s) (filtered_page_url +:+ "&page=" +:+ pretty page_number)
        = None) →
  scrape_page web page_number s
  = Raise (NameError "soup")
      (time_sleep 1
         (with_io max_retries
            (fetch_failure ListingPage
               (filtered_page_url +:+ "&page=" +:+ pretty page_number)) s)).
Proof.
  intros Hsoup Hfail%first_response_none. unfold scrape_page.
  rewrite page_loop_run, Hfail. fields. by rewrite Hsoup.
Qed.

(** When an earlier page was fetched and all its links were visited, the
    page is passed over: the state changes by the failed attempts and
    the wait only. *)
Lemma scrape_page_stale page_number (s : state) document :
  soup s = Some document →
  (∀ link, link ∈ get_recipe_links document base_url →
           link ∈ used_recipe_links s) →
  (∀ i, i < max_retries →
        web (i + clock s) (filtered_page_url +:+ "&page=" +:+ pretty page_number)
        = None) →
  scrape_page web page_number s
  = Ok (time_sleep 1
          (with_io max_retries
             (fetch_failure ListingPage
                (filtered_page_url +:+ "&page=" +:+ pretty page_number)) s)).
Proof.
  intros Hsoup Hvisited Hfail%first_response_none. unfold scrape_page.
  rewrite page_loop_run, Hfail. fields. rewrite Hsoup.
  rewrite collect_new_links_filter.
  assert (filter (λ link, link ∉ used_recipe_links s)
                 (get_recipe_links document base_url) = []) as ->; [|done].
  induction (get_recipe_links document base_url) as [|link links IH]; [done|].
  rewrite filter_cons, decide_False.
  - apply IH. intros link' Hin. apply Hvisited. by right.
  - intros Hnot. apply Hnot, Hvisited. by left.
Qed.

(** C6.  The database calls of a finished run are, in this order: begin,
    delete from ingredients, delete from nutrition, delete from
    recipe_info, commit, append the recipe table, append the nutrition
    table, append the ingredient table, dispose; they are the last
    events of the run.  So every delete lies between the begin and the
    commit, and every append comes after the commit. *)
Theorem load_order i n g (s : state) :
  main web db = Finished i n g s →
  database_calls (trace s)
  = [Begin; Execute "DELETE FROM ingredients"; Execute "DELETE FROM nutrition";
     Execute "DELETE FROM recipe_info"; Commit;
     ToSql "recipe_info" i; ToSql "nutrition" n; ToSql "ingredients" g; Dispose]
  ∧ (∃ scraping,
       database_calls scraping = []
       ∧ trace s = scraping ++ database_calls (trace s))
  ∧ (∀ k sql, database_calls (trace s) !! k = Some (Execute sql) → 0 < k < 4)
  ∧ database_calls (trace s) !! 4 = Some Commit
  ∧ (∀ k table df,
       database_calls (trace s) !! k = Some (ToSql table df) → 4 < k).
Proof.
  intros (s3 & _ & Hdb & _ & ->)%main_finished.
  rewrite load_trace, database_calls_app, Hdb. cbn [app].
  split; [done|]. split; [by exists (trace s3)|].
  split; [|split; [done|]].
  - intros k sql Hk. do 4 (destruct k as [|k]; [cbn in Hk; try done; lia|]).
    do 5 (destruct k as [|k]; [done|]). done.
  - intros k table df Hk. do 5 (destruct k as [|k]; [done|]). lia.
Qed.

End PageFailure.


(** * Further properties of the script *)

(** ** Pacing of the requests *)

Section Pacing.
Context {Response Status : Type} `{!Scripts Response Status}.
Variable web : nat → string → option Response.
Variable db : event Response Status → option exn.

Abbreviation state := (state Response Status).
Abbreviation event := (event Response Status).

Lemma lookup_app_plus (t1 t2 : list event) j :
  (t1 ++ t2) !! (length t1 + j) = t2 !! j.
Proof. rewrite lookup_app_r by lia. f_equal. lia. Qed.

Lemma wait_after_app_l (t1 t2 : list event) i kind url r :
  wait_after t1 i kind url r → wait_after (t1 ++ t2) i kind url r.
Proof.
  unfold wait_after. destruct r as [r|].
  - apply lookup_app_l_Some.
  - intros [[Hwait [r' Hnext]]|(Hkind & Hwait & i0 & -> & H0 & H1 & H2 & H3)].
    + left. split; [by apply lookup_app_l_Some|].
      exists r'. by apply lookup_app_l_Some.
    + right. split; [done|]. split; [by apply lookup_app_l_Some|].
      exists i0. by repeat (split; [by try apply lookup_app_l_Some|]);
        apply lookup_app_l_Some.
Qed.

Lemma wait_after_app_r (t1 t2 : list event) i kind url r :
  wait_after t2 i kind url r → wait_after (t1 ++ t2) (length t1 + i) kind url r.
Proof.
  unfold wait_after. rewrite <-!Nat.add_succ_r, !lookup_app_plus.
  destruct r as [r|]; [done|].
  intros [?|(Hkind & Hwait & i0 & -> & H0 & H1 & H2 & H3)]; [by left|].
  right. split; [done|]. split; [done|].
  exists (length t1 + i0). split; [lia|].
  by rewrite <-!Nat.add_assoc, !lookup_app_plus.
Qed.

(** Inside one fetch. *)
Lemma fetch_block_wait (block : list event) i kind url r :
  fetch_block block → block !! i = Some (Get kind url r) →
  wait_after block i kind url r.
Proof.
  intros [kind' url' j r' Hj|kind' url' Hkind] Hi.
  - unfold max_retries in Hj. unfold wait_after.
    destruct j as [|[|[|j]]]; [| | |lia];
      destruct i as [|[|[|[|[|[|i]]]]]]; cbn in Hi; simplify_eq; cbn; eauto.
  - unfold wait_after.
    destruct i as [|[|[|[|[|[|i]]]]]]; cbn in Hi; simplify_eq; cbn; eauto.
    right. split; [done|]. split; [done|]. by exists 0.
Qed.

Lemma scraped_lookup (t : list event) i kind url r :
  scraped t → t !! i = Some (Get kind url r) → wait_after t i kind url r.
Proof.
  intros (blocks & Hblocks & ->). revert i.
  induction Hblocks as [|block blocks Hblock Hblocks IH]; intros i; [done|].
  cbn [concat]. destruct (decide (i < length block)) as [Hlt|Hge].
  - rewrite lookup_app_l by done. intros Hi.
    by apply wait_after_app_l, fetch_block_wait.
  - rewrite lookup_app_r by lia. intros Hi%IH.
    apply (wait_after_app_r block) in Hi.
    by replace (length block + (i - length block)) with i in Hi by lia.
Qed.

Lemma scraped_fetch (events : list event) n (s : state) :
  fetch_block (events ++ [Sleep 1]) →
  scraped (trace s) → scraped (trace (time_sleep 1 (with_io n events s))).
Proof.
  intros Hblock (blocks & Hblocks & Ht). exists (blocks ++ [events ++ [Sleep 1]]).
  split; [apply Forall_app; by split; [|constructor]|].
  cbn [trace time_sleep log with_io].
  rewrite concat_app, <-Ht. cbn. by rewrite app_nil_r, <-app_assoc.
Qed.

Lemma scraped_visit_link link (s : state) :
  scraped (trace s) → scraped (trace (visit_link web link s)).
Proof.
  intros Hs. unfold visit_link. rewrite recipe_loop_run.
  destruct (first_response web link (clock s) max_retries) as [[j r]|] eqn:E.
  - apply first_response_bound in E.
    unfold record_recipe. destruct (get_recipe_nutritional_values r).
    apply (scraped_fetch (fetch_success RecipePage link j r) (S j) s);
      [by constructor|done].
  - apply (scraped_fetch (fetch_failure RecipePage link) max_retries s);
      [by constructor|done].
Qed.

Lemma scraped_visit_links links (s : state) :
  scraped (trace s) →
  scraped (trace (fold_left (λ s link, visit_link web link s) links s)).
Proof.
  revert s. induction links as [|link links IH]; intros s Hs; [done|].
  cbn [fold_left]. by apply IH, scraped_visit_link.
Qed.

Lemma scraped_scrape_page page_number (s : state) :
  scraped (trace s) →
  scraped (trace (result_state (scrape_page web page_number s))).
Proof.
  intros Hs. unfold scrape_page. set (page_url := filtered_page_url +:+ _).
  assert (scraped
            (trace (time_sleep 1 (page_loop web (seq 0 max_retries) page_url s))))
    as Hs1.
  { rewrite page_loop_run.
    destruct (first_response web page_url (clock s) max_retries) as [[j r]|] eqn:E.
    - apply first_response_bound in E.
      apply (scraped_fetch (fetch_success ListingPage page_url j r) (S j) s);
        [by constructor|done].
    - apply (scraped_fetch (fetch_failure ListingPage page_url) max_retries s);
        [by constructor|done]. }
  destruct (soup _); [|done]. by apply scraped_visit_links.
Qed.

Lemma scraped_scrape_pages page_list (s : state) :
  scraped (trace s) →
  scraped (trace (result_state (scrape_pages web page_list s))).
Proof.
  revert s. induction page_list as [|page_number page_list IH]; intros s Hs; [done|].
  cbn [scrape_pages].
  pose proof (scraped_scrape_page page_number s Hs) as Hpage.
  destruct (scrape_page web page_number s) as [s1|e s1]; [|done].
  by apply IH.
Qed.

(** The trace of the scraping is made of fetches, each with the wait of
    one second after it, unless the search page has failed for good. *)
Lemma scrape_scraped :
  scraped (trace (result_state (scrape web)))
  ∨ scrape web
    = Raise (SystemExit 1)
        (with_io max_retries (fetch_failure BasePage filtered_page_url)
           initial_state).
Proof.
  unfold scrape. rewrite base_page_loop_run.
  destruct (first_response web _ _ max_retries) as [[j r]|] eqn:E; [|by right].
  apply first_response_bound in E. left.
  set (s2 := time_sleep 1 _).
  assert (scraped (trace s2)) as Hs2.
  { apply (scraped_fetch (fetch_success BasePage filtered_page_url j r) (S j)
             initial_state); [by constructor|].
    by exists []. }
  destruct (base_soup s2) as [document|]; [|done].
  destruct (results_count document) as [e|number_of_recipes]; [done|].
  destruct (number_of_pages number_of_recipes) as [e|pages]; [done|].
  by apply scraped_scrape_pages.
Qed.

Lemma load_calls_no_request (i n g : DataFrame Status) k j kind url
    (r : option Response) :
  (take k (load_calls i n g) : list event) !! j = Some (Get kind url r) → False.
Proof.
  intros [Hj _]%lookup_take_Some. unfold load_calls in Hj.
  do 9 (destruct j as [|j]; [done|]). done.
Qed.

(** X1.  Which wait follows each request of a run.  A request that got
    a response is followed at once by the wait of one second.  A request
    that failed is followed by the wait of [retry_delay] seconds and the
    next attempt for the same URL; or, when it is the third failure in a
    row for a listing page or a recipe, by the wait of one second; or,
    when it is the third failure for the search page, by nothing: it is
    the last event of the run, which exits with code 1. *)
Theorem requests_paced i kind url r :
  let t := trace (final_state (main web db)) in
  t !! i = Some (Get kind url r) →
  match r with
  | Some _ => t !! S i = Some (Sleep 1)
  | None =>
      (t !! S i = Some (Sleep retry_delay)
       ∧ ∃ r', t !! S (S i) = Some (Get kind url r'))
      ∨ (kind ≠ BasePage
         ∧ t !! S i = Some (Sleep 1)
         ∧ ∃ i0, i = i0 + 4
                 ∧ t !! i0 = Some (Get kind url None)
                 ∧ t !! (i0 + 1) = Some (Sleep retry_delay)
                 ∧ t !! (i0 + 2) = Some (Get kind url None)
                 ∧ t !! (i0 + 3) = Some (Sleep retry_delay))
      ∨ (kind = BasePage ∧ url = filtered_page_url ∧ i = 4
         ∧ t = ([Get BasePage filtered_page_url None; Sleep retry_delay;
                 Get BasePage filtered_page_url None; Sleep retry_delay;
                 Get BasePage filtered_page_url None] : list event)
         ∧ ∃ s, main web db = Aborted (SystemExit 1) s)
  end.
Proof.
  cbv zeta. destruct scrape_scraped as [Hscraped|Hexit].
  - destruct (main_final web db) as (k & i0 & n0 & g0 & ->).
    rewrite trace_logged. intros Hi.
    assert (wait_after (trace (result_state (scrape web))) i kind url r) as Hwait.
    { apply scraped_lookup; [done|].
      destruct (decide (i < length (trace (result_state (scrape web)))))
        as [Hlt|Hge]; [by rewrite lookup_app_l in Hi|].
      rewrite lookup_app_r in Hi by lia.
      by apply load_calls_no_request in Hi. }
    apply (wait_after_app_l _ (take k (load_calls i0 n0 g0))) in Hwait.
    unfold wait_after in Hwait. destruct r as [r|]; [done|].
    destruct Hwait as [?|?]; [by left|by right; left].
  - rewrite main_scrape, Hexit. cbn [final_state].
    change (trace (with_io max_retries
                     (fetch_failure BasePage filtered_page_url) initial_state))
      with ([Get BasePage filtered_page_url None; Sleep retry_delay;
             Get BasePage filtered_page_url None; Sleep retry_delay;
             Get BasePage filtered_page_url None] : list event).
    intros Hi. destruct i as [|[|[|[|[|i]]]]]; cbn in Hi; simplify_eq.
    + left. split; [done|]. by eexists.
    + left. split; [done|]. by eexists.
    + right. right. repeat (split; [done|]). by eexists.
Qed.

End Pacing.
(** ** Aborted runs and empty listings *)

Section Aborts.
Context {Response Status : Type} `{!Scripts Response Status}.
Variable web : nat → string → option Response.
Variable db : event Response Status → option exn.

Abbreviation state := (state Response Status).
Abbreviation event := (event Response Status).

(** X2.  The database calls of a run that stops with an exception.
    When the exception comes from the scraping or from the construction
    of the frames, no database call was issued.  Otherwise the frames
    were built and a database call raised the exception: the calls
    issued are then the first calls of the load, in order, up to and
    including the one that raised, and every call before it
    succeeded. *)
Theorem aborted_database_calls (e : exn) (s : state) :
  main web db = Aborted e s →
  (database_calls (trace s) = []
   ∧ (scrape web = Raise e s ∨ scrape web = Ok s ∧ transform s = inl e))
  ∨ ∃ s3 i n g k call,
      scrape web = Ok s3
      ∧ transform s3 = inr (i, n, g)
      ∧ load_calls i n g !! k = Some call
      ∧ db call = Some e
      ∧ (∀ k' call', k' < k → load_calls i n g !! k' = Some call' →
                     db call' = None)
      ∧ database_calls (trace s) = take (S k) (load_calls i n g).
Proof.
  rewrite main_scrape. pose proof (database_calls_scrape web) as Hd.
  destruct (scrape web) as [s3|e1 s1]; cbn [result_state] in Hd.
  - destruct (transform s3) as [e1|[[i n] g]] eqn:Ht.
    + intros [= <- <-]. left. split; [done|]. right. by split.
    + destruct (first_failure db (load_calls i n g)) as [[k e1]|] eqn:Hfail; [|done].
      assert (database_calls (trace (logged (take (S k) (load_calls i n g)) s3))
              = take (S k) (load_calls i n g)) as Hcalls.
      { by rewrite trace_logged, database_calls_app, Hd,
          database_calls_load_calls. }
      intros Heq. injection Heq as <- <-. right.
      apply first_failure_Some in Hfail as [(call & Hcall & Hraises) Hbefore].
      exists s3, i, n, g, k, call.
      split; [done|]. split; [done|]. split; [done|]. split; [done|].
      split; [done|]. exact Hcalls.
  - intros [= <- <-]. left. split; [done|]. by left.
Qed.

Lemma requests_app (t1 t2 : list event) :
  requests (t1 ++ t2) = requests t1 ++ requests t2.
Proof. apply omap_app. Qed.

Lemma requests_failed_attempts kind url j :
  requests (failed_attempts kind url j : list event) = replicate j (kind, url).
Proof.
  induction j as [|j IH]; [done|].
  by rewrite failed_attempts_S, requests_app, IH.
Qed.

Lemma requests_fetch_success kind url j (r : Response) :
  requests (fetch_success kind url j r : list event) = replicate (S j) (kind, url).
Proof.
  unfold fetch_success.
  by rewrite requests_app, requests_failed_attempts, replicate_S_end.
Qed.

(** The frames of a state without recipes. *)
Lemma transform_no_recipe (s : state) :
  recipe_names s = [] → successful_links s = [] → recipe_cooking_times s = [] →
  recipe_nutritional_data s = [] → recipe_category_information s = ∅ →
  recipe_ingredients s = [] →
  ∃ i n g, transform s = inr (i, n, g)
           ∧ df_rows i = 0 ∧ df_rows n = 0 ∧ df_rows g = 0.
Proof.
  intros Hn Hl Ht Hd Hc Hi. unfold transform, recipe_info_data.
  rewrite Hn, Hl, Ht, Hd, Hc, Hi. vm_compute. eauto 10.
Qed.

(** X3.  When the search page reports no result (a count of zero, or a
    negative one), the scraping ends without exception after the
    requests for the search page alone: no listing page and no recipe
    is requested and the visited list stays empty.  The three frames are
    built with no row, and the run finishes exactly when no database
    call raises: the three tables are then emptied and the three empty
    frames appended. *)
Theorem no_results_empties_tables j document (count : Z) :
  first_response web filtered_page_url 0 max_retries = Some (j, document) →
  results_count document = inr count →
  (- (30 * 2 ^ 49) < count ≤ 0)%Z →
  ∃ i n g s,
    scrape web = Ok s
    ∧ requests (trace s) = replicate (S j) (BasePage, filtered_page_url)
    ∧ used_recipe_links s = []
    ∧ transform s = inr (i, n, g)
    ∧ df_rows i = 0 ∧ df_rows n = 0 ∧ df_rows g = 0
    ∧ (main web db = Finished i n g (logged (load_calls i n g) s)
       ↔ ∀ call, call ∈ load_calls i n g → db call = None)
    ∧ database_calls (trace (logged (load_calls i n g) s))
      = [Begin; Execute "DELETE FROM ingredients"; Execute "DELETE FROM nutrition";
         Execute "DELETE FROM recipe_info"; Commit;
         ToSql "recipe_info" i; ToSql "nutrition" n; ToSql "ingredients" g;
         Dispose].
Proof.
  intros Hfirst Hcount Hrange.
  assert (∃ s : state,
            scrape web = Ok s
            ∧ s = time_sleep 1
                    (set_base_soup document
                       (with_io (S j)
                          (fetch_success BasePage filtered_page_url j document)
                          initial_state))) as (s & Hscrape & Hs).
  { unfold scrape. rewrite base_page_loop_run.
    change (clock initial_state) with 0.
    rewrite Hfirst. cbv zeta. cbn [base_soup time_sleep log set_base_soup].
    rewrite Hcount, number_of_pages_exact by lia.
    rewrite seqZ_nil.
    2:{ apply Z.lt_succ_r, Z.div_lt_upper_bound; lia. }
    cbn [scrape_pages]. eauto. }
  destruct (transform_no_recipe s) as (i & n & g & Ht & Hi & Hn & Hg);
    try by rewrite Hs.
  exists i, n, g, s. split; [done|].
  assert (requests (trace s) = replicate (S j) (BasePage, filtered_page_url))
    as Hrequests.
  { rewrite Hs.
    cbn [trace time_sleep log set_base_soup with_io initial_state app].
    rewrite !requests_app, requests_fetch_success. cbn [requests omap list_omap].
    by rewrite !app_nil_r. }
  split; [done|]. split; [by rewrite Hs|]. split; [done|].
  split; [done|]. split; [done|]. split; [done|].
  split; [by apply main_loads|].
  rewrite load_trace, database_calls_app.
  pose proof (database_calls_scrape web) as Hd. rewrite Hscrape in Hd.
  cbn [result_state] in Hd. by rewrite Hd.
Qed.

End Aborts.
(** ** The frames *)

Section FramesMore.
Context {Response Status : Type} `{!Scripts Response Status}.
Variable web : nat → string → option Response.
Variable db : event Response Status → option exn.

Abbreviation state := (state Response Status).
Abbreviation event := (event Response Status).

(** A dictionary whose lists all have length [rows] makes a frame of
    [rows] rows. *)
Lemma pd_DataFrame_uniform (data : gmap string (list (cell Status))) rows :
  data ≠ ∅ → map_Forall (λ _ column, length column = rows) data →
  pd_DataFrame data = inr {| df_rows := rows; df_columns := data |}.
Proof.
  intros Hne Hall. unfold pd_DataFrame.
  destruct (map_to_list data) as [|[name0 column0] rest] eqn:E.
  { by apply map_to_list_empty_iff in E. }
  assert (length column0 = rows) as Hlen.
  { apply (Hall name0), elem_of_map_to_list. rewrite E. by left. }
  rewrite Hlen. by rewrite decide_True.
Qed.

(** The renamed dictionary, column by column. *)
Lemma final_nutrition_dict_clean data :
  ∃ final,
    final_nutrition_dict (clean_recipe_nutritional_values data) = inr final
    ∧ (∀ key name,
         final_nutrition_names !! key = Some name →
         final !! name = Some (cleaned_column key data))
    ∧ (∀ name column,
         final !! name = Some column →
         ∃ key, final_nutrition_names !! key = Some name
                ∧ column = cleaned_column key data).
Proof.
  rewrite clean_recipe_nutritional_values_keys.
  change (λ key, (key, (λ recipe_data, clean_value key (mjoin (recipe_data !! key)))
                         <$> data))
    with (λ key, (key, cleaned_column key data)).
  rewrite (final_nutrition_dict_keys (λ key, cleaned_column key data)).
  eexists. split; [done|]. split.
  - intros key name Hname. unfold final_nutrition_names in Hname.
    apply elem_of_list_to_map_2 in Hname.
    repeat (apply elem_of_cons in Hname as [[= -> ->]|Hname]; [reflexivity|]).
    by apply elem_of_nil in Hname.
  - intros name column Hname. apply elem_of_list_to_map_2 in Hname.
    repeat (apply elem_of_cons in Hname as [[= -> ->]|Hname];
            [eexists; split; [|reflexivity]; reflexivity|]).
    by apply elem_of_nil in Hname.
Qed.

(** The nutrition frame before the identifiers are inserted. *)
Lemma nutrition_frame data :
  ∃ final,
    final_nutrition_dict (clean_recipe_nutritional_values data) = inr final
    ∧ (∀ key name,
         final_nutrition_names !! key = Some name →
         final !! name = Some (cleaned_column key data))
    ∧ (∀ name column,
         final !! name = Some column →
         ∃ key, final_nutrition_names !! key = Some name
                ∧ column = cleaned_column key data)
    ∧ pd_DataFrame
        ((λ column : list (option string), text_cell <$> column) <$> final)
      = inr {| df_rows := length data;
               df_columns :=
                 ((λ column : list (option string), text_cell <$> column) <$> final
                  : gmap string (list (cell Status))) |}
    ∧ final !! "recipe_id" = None.
Proof.
  destruct (final_nutrition_dict_clean data) as (final & Hfinal & Hin & Hout).
  exists final. split; [done|]. split; [done|]. split; [done|]. split.
  - apply pd_DataFrame_uniform.
    + intros Hempty. pose proof (Hin "kcal" "kcal" eq_refl) as Hk.
      assert (((λ column : list (option string), text_cell <$> column) <$> final
               : gmap string (list (cell Status))) !! "kcal" = None) as Hnone
        by (by rewrite Hempty).
      by rewrite lookup_fmap, Hk in Hnone.
    + intros name column. rewrite lookup_fmap.
      destruct (final !! name) as [column'|] eqn:E; [|done].
      intros [= <-]. destruct (Hout name column' E) as (key & _ & ->).
      unfold cleaned_column. by rewrite !length_fmap.
  - destruct (final !! "recipe_id") as [column|] eqn:E; [|done].
    destruct (Hout _ _ E) as (key & Hkey & _).
    unfold final_nutrition_names in Hkey. apply elem_of_list_to_map_2 in Hkey.
    repeat (apply elem_of_cons in Hkey as [Heq|Hkey]; [by simplify_eq|]).
    by apply elem_of_nil in Hkey.
Qed.

Lemma final_nutrition_names_key key name :
  final_nutrition_names !! key = Some name → key ∈ keys ∧ name ≠ "recipe_id".
Proof.
  intros Hname. unfold final_nutrition_names in Hname.
  apply elem_of_list_to_map_2 in Hname.
  repeat (apply elem_of_cons in Hname as [[= -> ->]|Hname];
          [split; [compute_done|done]|]).
  by apply elem_of_nil in Hname.
Qed.

(** X4.  The nutrition frame can always be built, whatever was scraped:
    the renaming raises no [KeyError], the renamed dictionary has exactly
    the eight renamed keys, each with the cleaned column of its old key,
    the frame has one row per recipe, and inserting the identifiers does
    not raise. *)
Theorem nutrition_frame_builds (data : list (gmap string (option string))) :
  ∃ final (df df' : DataFrame Status),
    final_nutrition_dict (clean_recipe_nutritional_values data) = inr final
    ∧ pd_DataFrame
        ((λ column : list (option string), text_cell <$> column) <$> final)
      = inr df
    ∧ insert_recipe_id df = inr df'
    ∧ df_rows df' = length data
    ∧ recipe_id_column df' = Number <$> seqZ 1 (Z.of_nat (length data))
    ∧ (∀ key name,
         final_nutrition_names !! key = Some name →
         final !! name = clean_recipe_nutritional_values data !! key
         ∧ df_columns df' !! name = Some (text_cell <$> cleaned_column key data))
    ∧ (∀ name,
         is_Some (final !! name) →
         ∃ key, final_nutrition_names !! key = Some name).
Proof.
  destruct (nutrition_frame data) as (final & Hfinal & Hin & Hout & Hdf & Hid).
  eexists final, _, _. split; [done|]. split; [exact Hdf|].
  unfold insert_recipe_id. cbn [df_columns df_rows].
  rewrite lookup_fmap, Hid. cbn [fmap option_fmap option_map].
  split; [done|]. cbn [df_rows]. split; [done|]. split.
  { unfold recipe_id_column. cbn [df_columns]. by rewrite lookup_insert_eq. }
  split.
  - intros key name Hname. rewrite (Hin key name Hname).
    destruct (final_nutrition_names_key key name Hname) as [Hkey Hne].
    split.
    + symmetry. by apply clean_recipe_nutritional_values_lookup.
    + cbn [df_columns]. rewrite lookup_insert_ne by done.
      by rewrite lookup_fmap, (Hin key name Hname).
  - intros name [column Hcolumn]. destruct (Hout name column Hcolumn) as (key & ? & _).
    eauto.
Qed.

End FramesMore.
(** ** Rows and recipes *)

Section Rows.
Context {Response Status : Type} `{!Scripts Response Status}.
Variable web : nat → string → option Response.
Variable db : event Response Status → option exn.

Abbreviation state := (state Response Status).
Abbreviation event := (event Response Status).

(** What a finished run went through, with [scrape]. *)
Lemma main_finished_scrape i n g (s : state) :
  main web db = Finished i n g s →
  ∃ s3, scrape web = Ok s3 ∧ aligned s3 ∧ transform s3 = inr (i, n, g)
        ∧ s = logged (load_calls i n g) s3.
Proof.
  rewrite main_scrape. pose proof (aligned_scrape web) as Ha.
  destruct (scrape web) as [s3|e s3]; [|done]. cbn [result_state] in Ha.
  destruct (transform s3) as [e|[[i' n'] g']] eqn:Ht; [done|].
  destruct (first_failure db (load_calls i' n' g')) as [[k e]|]; [done|].
  intros [= <- <- <- <-]. by exists s3.
Qed.

(** The columns of the frames that the transformation returns. *)
Lemma transform_columns (s : state) i n g :
  transform s = inr (i, n, g) →
  df_columns i
  = <["recipe_id" := Number <$> seqZ 1 (Z.of_nat (df_rows i))]> (recipe_info_data s)
  ∧ recipe_info_data s !! "recipe_id" = None
  ∧ (∀ name column,
       recipe_info_data s !! name = Some column → length column = df_rows i)
  ∧ df_rows n = length (recipe_nutritional_data s)
  ∧ (∀ key name,
       final_nutrition_names !! key = Some name →
       df_columns n !! name
       = Some (text_cell <$> cleaned_column key (recipe_nutritional_data s))).
Proof.
  unfold transform, mbind, exn_bind.
  destruct (nutrition_frame (Status := Status) (recipe_nutritional_data s))
    as (final & -> & Hin & _ & -> & Hid).
  destruct (pd_DataFrame (recipe_info_data s)) as [e|i0] eqn:Hi0; [done|].
  apply pd_DataFrame_inr in Hi0 as (Hcols0 & Hlens).
  unfold insert_recipe_id. cbn [df_columns df_rows]. rewrite Hcols0.
  destruct (recipe_info_data s !! "recipe_id") eqn:Hfree; [done|].
  rewrite lookup_fmap, Hid. cbn [fmap option_fmap option_map].
  intros [= <- <- _]. cbn [df_columns df_rows].
  split; [done|]. split; [done|]. split; [done|]. split; [done|].
  intros key name Hname.
  destruct (final_nutrition_names_key key name Hname) as [_ Hne].
  rewrite lookup_insert_ne by done.
  by rewrite lookup_fmap, (Hin key name Hname).
Qed.

Lemma lookup_recipe_ids (rows k : nat) :
  k < rows →
  (Number <$> seqZ 1 (Z.of_nat rows) : list (cell Status)) !! k
  = Some (Number (Z.of_nat (S k))).
Proof.
  intros Hk. rewrite list_lookup_fmap, lookup_seqZ_lt by lia. cbn.
  do 2 f_equal. lia.
Qed.

Lemma recipe_info_data_fixed_text (s : state) name :
  aligned s →
  name ∈ ["RecipeName"; "RecipeLink"; "CookingTime"] →
  recipe_category_information s !! name = None →
  recipe_info_data s !! name
  = Some ((λ p, Text (fixed_text name p.1 p.2)) <$> fetched (trace s)).
Proof.
  intros [Hn Hl Ht _ _ _] Hname Hfree. unfold recipe_info_data. cbv zeta.
  rewrite lookup_union_r by (by rewrite lookup_fmap, Hfree).
  apply elem_of_cons in Hname as [->|Hname];
    [|apply elem_of_cons in Hname as [->|Hname];
      [|apply list_elem_of_singleton in Hname as ->]].
  - rewrite lookup_insert_ne, lookup_insert_ne, lookup_singleton_eq by done.
    by rewrite Hn, <-list_fmap_compose.
  - rewrite lookup_insert_ne, lookup_insert_eq by done.
    by rewrite Hl, <-list_fmap_compose.
  - rewrite lookup_insert_eq. by rewrite Ht, <-list_fmap_compose.
Qed.

(** X5.  In a finished run the tables agree row by row: for the [k]-th
    recipe fetched (counting from 1), row [k] of the nutrition table has
    the identifier [k] and, under each renamed key, the cleaned value of
    that recipe; and, for each fixed column whose name is not also a
    category, row [k] of the recipe table has the identifier [k] and the
    name, link or cooking time of that same recipe. *)
Theorem rows_describe_recipes i n g (s : state) k link r :
  main web db = Finished i n g s →
  fetched (trace s) !! k = Some (link, r) →
  recipe_id_column n !! k = Some (Number (Z.of_nat (S k)))
  ∧ (∀ key name,
       final_nutrition_names !! key = Some name →
       ∃ column,
         df_columns n !! name = Some column
         ∧ column !! k
           = Some (text_cell
                     (clean_value key
                        (mjoin (fill_nutritional_values
                                  (get_recipe_nutritional_values r).1
                                  (get_recipe_nutritional_values r).2 !! key)))))
  ∧ (∀ name,
       name ∈ ["RecipeName"; "RecipeLink"; "CookingTime"] →
       recipe_category_information s !! name = None →
       recipe_id_column i !! k = Some (Number (Z.of_nat (S k)))
       ∧ ∃ column,
           df_columns i !! name = Some column
           ∧ column !! k = Some (Text (fixed_text name link r))).
Proof.
  intros (s3 & _ & Ha & Ht & ->)%main_finished_scrape.
  rewrite fetched_load.
  change (recipe_category_information (logged (load_calls i n g) s3))
    with (recipe_category_information s3).
  intros Hk.
  pose proof (lookup_lt_Some _ _ _ Hk) as Hlt.
  pose proof (recipe_info_rows i n g s3) as Hrows.
  specialize (λ name, Hrows name Ha Ht).
  pose proof Ht as (_ & Hidn & Hidi & _)%transform_inr.
  apply transform_columns in Ht as (Hci & _ & _ & Hn & Hcn).
  destruct (aligned_lengths s3 Ha) as (_ & _ & _ & Lnu & _).
  split; [|split].
  - rewrite Hidn. apply lookup_recipe_ids. lia.
  - intros key name Hname. eexists. split; [by apply Hcn|].
    unfold cleaned_column. rewrite (aligned_nutrition _ Ha).
    rewrite !list_lookup_fmap, Hk. done.
  - intros name Hname Hfree. split.
    + rewrite Hidi. apply lookup_recipe_ids. rewrite (Hrows name) by done. lia.
    + eexists. split.
      * rewrite Hci, lookup_insert_ne.
        -- by apply recipe_info_data_fixed_text.
        -- intros <-. apply elem_of_cons in Hname as [?|Hname]; [done|].
           apply elem_of_cons in Hname as [?|Hname]; [done|].
           by apply list_elem_of_singleton in Hname.
      * by rewrite list_lookup_fmap, Hk.
Qed.

(** A list that [omap] does not shorten has a value at every place. *)
Lemma omap_full {A B} (f : A → option B) (l : list A) :
  length (omap f l) = length l →
  ∀ k x, l !! k = Some x → ∃ y, f x = Some y ∧ omap f l !! k = Some y.
Proof.
  assert (∀ l : list A, length (omap f l) ≤ length l) as Hle.
  { clear. intros l. induction l as [|a l IH]; [done|].
    cbn. destruct (f a); cbn; lia. }
  induction l as [|a l IH]; intros Hlen k x Hk; [done|].
  cbn in Hlen. destruct (f a) as [y|] eqn:E.
  - cbn. rewrite E. cbn in *. destruct k as [|k].
    + injection Hk as <-. eauto.
    + apply IH; [lia|done].
  - specialize (Hle l). lia.
Qed.

(** X6.  A run finishes only with complete category columns: in a
    finished run in which one fixed column name is not a category, every
    category that was met has one status for each recipe fetched (so
    every fetched recipe has that category), and row [k] of its column
    in the recipe table is the status that the [k]-th recipe gives. *)
Theorem finished_categories_complete i n g (s : state) name category column :
  main web db = Finished i n g s →
  name ∈ ["RecipeName"; "RecipeLink"; "CookingTime"] →
  recipe_category_information s !! name = None →
  recipe_category_information s !! category = Some column →
  df_columns i !! category = Some (Flag <$> column)
  ∧ length column = length (fetched (trace s))
  ∧ ∀ k p,
      fetched (trace s) !! k = Some p →
      ∃ status,
        get_recipe_categories p.2 !! category = Some status
        ∧ column !! k = Some status.
Proof.
  intros (s3 & _ & Ha & Ht & ->)%main_finished_scrape.
  rewrite fetched_load.
  change (recipe_category_information (logged (load_calls i n g) s3))
    with (recipe_category_information s3).
  intros Hname Hfree Hcolumn.
  pose proof (recipe_info_rows i n g s3 name Ha Ht Hname Hfree) as Hrows.
  apply transform_columns in Ht as (Hci & Hid & Hlens & _).
  assert (recipe_info_data s3 !! category = Some (Flag <$> column)) as Hcat.
  { unfold recipe_info_data. cbv zeta. apply lookup_union_Some_l.
    by rewrite lookup_fmap, Hcolumn. }
  assert (length column = length (fetched (trace s3))) as Hlen.
  { rewrite <-Hrows, <-(Hlens _ _ Hcat). by rewrite length_fmap. }
  split; [|split; [done|]].
  - rewrite Hci, lookup_insert_ne; [done|]. intros <-. by rewrite Hid in Hcat.
  - pose proof (aligned_categories _ Ha category) as Hc.
    rewrite Hcolumn in Hc.
    assert (column = category_column category (fetched (trace s3))) as ->.
    { destruct (category_column category (fetched (trace s3))); by simplify_eq. }
    intros k p Hk. by apply (omap_full _ _ Hlen k p).
Qed.

(** X7.  Conversely, once the scraping has ended without exception, the
    three frames are built whenever the fetched recipes all have the
    same categories and none is named [recipe_id]; the recipe table and
    the nutrition table then have one row per recipe fetched, and the
    run finishes exactly when no database call of the load raises. *)
Theorem same_categories_finish (s : state) :
  scrape web = Ok s →
  (∀ p q category,
     p ∈ fetched (trace s) → q ∈ fetched (trace s) →
     is_Some (get_recipe_categories p.2 !! category) →
     is_Some (get_recipe_categories q.2 !! category)) →
  (∀ p, p ∈ fetched (trace s) → get_recipe_categories p.2 !! "recipe_id" = None) →
  ∃ i n g,
    transform s = inr (i, n, g)
    ∧ df_rows i = length (fetched (trace s))
    ∧ df_rows n = length (fetched (trace s))
    ∧ (main web db = Finished i n g (logged (load_calls i n g) s)
       ↔ ∀ call, call ∈ load_calls i n g → db call = None).
Proof.
  intros Hscrape Hsame Hnoid.
  pose proof (aligned_scrape web) as Ha. rewrite Hscrape in Ha.
  cbn [result_state] in Ha.
  cut (∃ i n g, transform s = inr (i, n, g)
                ∧ df_rows i = length (fetched (trace s))
                ∧ df_rows n = length (fetched (trace s))).
  { intros (i & n & g & Ht & Hi & Hn). exists i, n, g.
    split; [done|]. split; [done|]. split; [done|]. by apply main_loads. }
  destruct (aligned_lengths s Ha) as (Ln & Ll & Lt & Lnu & _).
  set (rs := fetched (trace s)) in *.
  assert (∀ category column,
            recipe_category_information s !! category = Some column →
            length column = length rs ∧ category ≠ "recipe_id") as Hcats.
  { intros category column Hcolumn.
    pose proof (aligned_categories _ Ha category) as Hc. rewrite Hcolumn in Hc.
    fold rs in Hc.
    destruct (category_column category rs) as [|status column'] eqn:E; [done|].
    injection Hc as ->.
    assert (∃ q, q ∈ rs ∧ is_Some (get_recipe_categories q.2 !! category))
      as (q & Hq & Hsome).
    { unfold category_column in E. clear -E.
      induction rs as [|p rs IH]; [done|]. cbn in E.
      destruct (get_recipe_categories p.2 !! category) eqn:Ep.
      - exists p. split; [by left|by rewrite Ep].
      - destruct (IH E) as (q & ? & ?). exists q. split; [by right|done]. }
    split.
    - rewrite <-E. unfold category_column.
      assert (∀ p, p ∈ rs → is_Some (get_recipe_categories p.2 !! category)) as Hall
        by (intros p Hp; by apply (Hsame q p)).
      clear -Hall. induction rs as [|p rs IH]; [done|]. cbn.
      destruct (Hall p ltac:(by left)) as [st ->]. cbn. f_equal.
      apply IH. intros p' Hp'. apply Hall. by right.
    - intros ->. destruct Hsome as [st Hst].
      by rewrite (Hnoid q Hq) in Hst. }
  assert (pd_DataFrame (recipe_info_data s)
          = inr {| df_rows := length rs; df_columns := recipe_info_data s |})
    as Hframe.
  { apply pd_DataFrame_uniform.
    - intros Hempty.
      assert (is_Some (recipe_info_data s !! "RecipeName")) as [? Hsome];
        [|by rewrite Hempty in Hsome].
      unfold recipe_info_data. cbv zeta. rewrite lookup_union, lookup_fmap.
      rewrite lookup_insert_ne, lookup_insert_ne, lookup_singleton_eq by done.
      destruct (recipe_category_information s !! "RecipeName"); by eexists.
    - intros name column. unfold recipe_info_data. cbv zeta.
      rewrite lookup_union_Some_raw, lookup_fmap.
      intros [Hcat|[_ Hfixed]].
      + destruct (recipe_category_information s !! name) as [column'|] eqn:E; [|done].
        injection Hcat as <-. rewrite length_fmap. by apply (Hcats name).
      + destruct (decide (name = "CookingTime")) as [->|?].
        { rewrite lookup_insert_eq in Hfixed. injection Hfixed as <-.
          by rewrite length_fmap. }
        rewrite lookup_insert_ne in Hfixed by done.
        destruct (decide (name = "RecipeLink")) as [->|?].
        { rewrite lookup_insert_eq in Hfixed. injection Hfixed as <-.
          by rewrite length_fmap. }
        rewrite lookup_insert_ne in Hfixed by done.
        apply lookup_singleton_Some in Hfixed as [_ <-]. by rewrite length_fmap. }
  assert (recipe_info_data s !! "recipe_id" = None) as Hid.
  { unfold recipe_info_data. cbv zeta. apply lookup_union_None. split.
    - rewrite lookup_fmap. destruct (recipe_category_information s !! "recipe_id") eqn:E;
        [|done]. by destruct (Hcats _ _ E).
    - done. }
  unfold transform, mbind, exn_bind.
  destruct (nutrition_frame (Status := Status) (recipe_nutritional_data s))
    as (final & -> & _ & _ & -> & Hfid).
  rewrite Hframe. unfold insert_recipe_id. cbn [df_columns df_rows].
  rewrite Hid, lookup_fmap, Hfid. cbn [fmap option_fmap option_map].
  eexists _, _, _. split; [done|]. cbn [df_rows]. split; [done|done].
Qed.

End Rows.

(** ** Visiting links *)

Section Visits.
Context {Response Status : Type} `{!Scripts Response Status}.
Variable web : nat → string → option Response.
Variable db : event Response Status → option exn.

Abbreviation state := (state Response Status).
Abbreviation event := (event Response Status).

(** A property of the states that holds at the start, that every visit
    of a link keeps, and that requests, waits and assignments to the two
    documents do not affect, holds when the scraping ends and when the
    script ends. *)
Lemma run_invariant (I : state → Prop) :
  I initial_state →
  (∀ s n events, I s → I (with_io n events s)) →
  (∀ s e, I s → I (log e s)) →
  (∀ s r, I s → I (set_soup r s)) →
  (∀ s r, I s → I (set_base_soup r s)) →
  (∀ link s, I s → I (visit_link web link s)) →
  I (result_state (scrape web)) ∧ I (final_state (main web db)).
Proof.
  intros H0 Hio Hlog Hsoup Hbase Hvisit.
  assert (∀ links s, I s →
            I (fold_left (λ s link, visit_link web link s) links s)) as Hvisits.
  { intros links. induction links as [|link links IH]; intros s Hs; [done|].
    cbn [fold_left]. by apply IH, Hvisit. }
  assert (∀ page_number s, I s → I (result_state (scrape_page web page_number s)))
    as Hpage.
  { intros page_number s Hs. unfold scrape_page.
    set (page_url := filtered_page_url +:+ _).
    assert (I (time_sleep 1 (page_loop web (seq 0 max_retries) page_url s))) as Hs1.
    { apply Hlog. rewrite page_loop_run.
      destruct (first_response web page_url (clock s) max_retries) as [[j r]|].
      - by apply Hsoup, Hio.
      - by apply Hio. }
    destruct (soup _); [|done]. by apply Hvisits. }
  assert (∀ page_list s, I s → I (result_state (scrape_pages web page_list s)))
    as Hpages.
  { intros page_list. induction page_list as [|page_number page_list IH];
      intros s Hs; [done|].
    cbn [scrape_pages]. pose proof (Hpage page_number s Hs) as Hs1.
    destruct (scrape_page web page_number s) as [s1|e s1]; [|done].
    by apply IH. }
  assert (I (result_state (scrape web))) as Hscrape.
  { unfold scrape. rewrite base_page_loop_run.
    destruct (first_response web _ _ max_retries) as [[j r]|];
      [|by apply Hio].
    cbv zeta.
    assert (I (time_sleep 1
                 (set_base_soup r
                    (with_io (S j) (fetch_success BasePage filtered_page_url j r)
                       initial_state)))) as Hs2
      by (by apply Hlog, Hbase, Hio).
    destruct (base_soup _) as [document|]; [|done].
    destruct (results_count document) as [e|number_of_recipes]; [done|].
    destruct (number_of_pages number_of_recipes) as [e|pages]; [done|].
    by apply Hpages. }
  split; [done|]. destruct (main_final web db) as (k & i & n & g & ->).
  revert Hscrape. generalize (result_state (scrape web)).
  induction (take k (load_calls i n g)) as [|call calls IH]; intros s Hs; [done|].
  unfold logged in *. cbn [fold_left]. by apply IH, Hlog.
Qed.

(** The attempts before the first response failed, and it is the
    response of the attempt after them. *)
Lemma first_response_Some url clock n j r :
  first_response web url clock n = Some (j, r) →
  web (j + clock) url = Some r ∧ ∀ i, i < j → web (i + clock) url = None.
Proof.
  revert clock j. induction n as [|n IH]; intros clock j; [done|].
  cbn [first_response]. destruct (web clock url) as [r'|] eqn:E.
  - intros [= <- <-]. split; [done|]. lia.
  - destruct (first_response web url (S clock) n) as [[j' r']|] eqn:E'; [|done].
    cbn. intros [= <- <-]. destruct (IH _ _ E') as [Hj Hbefore].
    split; [by rewrite Nat.add_succ_r in Hj|].
    intros [|i] Hi; [done|]. specialize (Hbefore i ltac:(lia)).
    by rewrite Nat.add_succ_r in Hbefore.
Qed.

(** X8.  When one of the three attempts for a link succeeds, the visit
    records the recipe once, from the response of the first attempt that
    succeeded: every list gets one more entry, each category of the
    recipe gets one more status (a new category starting a column),
    other categories keep their column, and the link is marked visited. *)
Theorem visit_records_once link (s : state) j r :
  first_response web link (clock s) max_retries = Some (j, r) →
  web (j + clock s) link = Some r
  ∧ (∀ i, i < j → web (i + clock s) link = None)
  ∧ recipe_names (visit_link web link s) = recipe_names s ++ [get_recipe_name r]
  ∧ successful_links (visit_link web link s) = successful_links s ++ [link]
  ∧ recipe_cooking_times (visit_link web link s)
    = recipe_cooking_times s ++ [get_recipe_cooking_time r]
  ∧ recipe_nutritional_data (visit_link web link s)
    = recipe_nutritional_data s
      ++ [fill_nutritional_values (get_recipe_nutritional_values r).1
                                  (get_recipe_nutritional_values r).2]
  ∧ recipe_ingredients (visit_link web link s)
    = recipe_ingredients s ++ [get_recipe_ingredients r]
  ∧ (∀ category,
       recipe_category_information (visit_link web link s) !! category
       = match get_recipe_categories r !! category with
         | Some status =>
             Some (default [] (recipe_category_information s !! category)
                   ++ [status])
         | None => recipe_category_information s !! category
         end)
  ∧ used_recipe_links (visit_link web link s) = used_recipe_links s ++ [link]
  ∧ fetched (trace (visit_link web link s)) = fetched (trace s) ++ [(link, r)].
Proof.
  intros Hfirst. destruct (first_response_Some _ _ _ _ _ Hfirst) as [Hj Hbefore].
  split; [done|]. split; [done|].
  unfold visit_link. rewrite recipe_loop_run, Hfirst. unfold record_recipe.
  destruct (get_recipe_nutritional_values r) as [names values].
  cbn [recipe_names successful_links recipe_cooking_times recipe_nutritional_data
       recipe_ingredients recipe_category_information used_recipe_links trace
       time_sleep log mark_used with_io fst snd].
  repeat (split; [done|]). split.
  { intros category. apply fill_category_information_lookup. }
  split; [done|].
  by rewrite !fetched_app, fetched_fetch_success, app_nil_r.
Qed.

(** X9.  The links recorded in the recipe table are visited links, in
    the order of the visits: at the end of every run the list of
    recorded links is a subsequence of the visited list. *)
Theorem recorded_links_visited :
  successful_links (final_state (main web db))
    `sublist_of` used_recipe_links (final_state (main web db)).
Proof.
  apply (run_invariant
           (λ s, successful_links s `sublist_of` used_recipe_links s));
    try done.
  intros link s Hs. unfold visit_link. rewrite recipe_loop_run.
  destruct (first_response web link (clock s) max_retries) as [[j r]|].
  - unfold record_recipe. destruct (get_recipe_nutritional_values r).
    cbn. by apply sublist_app.
  - cbn. by apply sublist_inserts_r.
Qed.

(** X10.  After a page was scraped, the visited list is the one before
    the page followed by the new links of the document that [soup]
    holds; the new links are exactly the links of that document that
    were not yet visited, in page order and with their repetitions. *)
Theorem new_links_unvisited page_number (s s' : state) :
  scrape_page web page_number s = Ok s' →
  ∃ document,
    soup s' = Some document
    ∧ let new_links :=
        collect_new_links (get_recipe_links document base_url)
          (used_recipe_links s) in
      used_recipe_links s' = used_recipe_links s ++ new_links
      ∧ new_links
        = filter (λ link, link ∉ used_recipe_links s)
            (get_recipe_links document base_url)
      ∧ (∀ link,
           link ∈ new_links
           ↔ link ∈ get_recipe_links document base_url
             ∧ link ∉ used_recipe_links s)
      ∧ new_links `sublist_of` get_recipe_links document base_url.
Proof.
  unfold scrape_page.
  set (page_url := filtered_page_url +:+ _).
  destruct (page_loop_requests web EmptyString page_url s) as [_ Hused].
  set (s1 := time_sleep 1 _).
  assert (used_recipe_links s1 = used_recipe_links s) as Hused1 by done.
  destruct (soup s1) as [document|] eqn:Hsoup; [|done].
  intros Hok.
  assert (s' = fold_left (λ s link, visit_link web link s)
                 (collect_new_links (get_recipe_links document base_url)
                    (used_recipe_links s1)) s1) as -> by congruence.
  exists document.
  rewrite soup_visit_links, used_visit_links. split; [exact Hsoup|].
  cbv zeta. rewrite Hused1, collect_new_links_filter. split; [done|].
  split; [done|].
  split; [intros link; rewrite list_elem_of_filter; tauto|].
  apply sublist_filter.
Qed.

Lemma soup_visited_scrape_page page_number (s : state) :
  soup_visited s → soup_visited (result_state (scrape_page web page_number s)).
Proof.
  intros Hs. unfold scrape_page.
  set (page_url := filtered_page_url +:+ _).
  destruct (page_loop_requests web EmptyString page_url s) as [_ Hused].
  set (s1 := time_sleep 1 _).
  assert (used_recipe_links s1 = used_recipe_links s) as Hused1 by done.
  assert (soup s1 = soup s ∨ first_response web page_url (clock s) max_retries ≠ None)
    as Hsoup1.
  { subst s1. cbn [soup time_sleep log]. rewrite page_loop_run.
    destruct (first_response web page_url (clock s) max_retries) as [[j r]|];
      [by right|by left]. }
  destruct (soup s1) as [document|] eqn:Hdoc; cbn [result_state].
  - intros document' link. rewrite soup_visit_links, Hdoc, used_visit_links.
    intros [= <-] Hlink. rewrite collect_new_links_filter, Hused1.
    destruct (decide (link ∈ used_recipe_links s)) as [Hin|Hnotin];
      apply elem_of_app; [by left|right]. by apply list_elem_of_filter.
  - intros document' link. by rewrite Hdoc.
Qed.

Lemma soup_visited_scrape_pages page_list (s : state) :
  soup_visited s → soup_visited (result_state (scrape_pages web page_list s)).
Proof.
  revert s. induction page_list as [|page_number page_list IH]; intros s Hs; [done|].
  cbn [scrape_pages].
  pose proof (soup_visited_scrape_page page_number s Hs) as Hpage.
  destruct (scrape_page web page_number s) as [s1|e s1]; [|done].
  by apply IH.
Qed.

(** X11.  A listing page that cannot be fetched after some pages were
    scraped is passed over: the stale document in [soup] has only
    visited links, so the page adds three failed requests with their
    waits to the trace and changes nothing else. *)
Theorem later_page_failure_skipped pages_before page_number (s0 s1 : state) :
  soup s0 = None →
  scrape_pages web pages_before s0 = Ok s1 →
  is_Some (soup s1) →
  (∀ i, i < max_retries →
        web (i + clock s1) (filtered_page_url +:+ "&page=" +:+ pretty page_number)
        = None) →
  scrape_page web page_number s1
  = Ok (time_sleep 1
          (with_io max_retries
             (fetch_failure ListingPage
                (filtered_page_url +:+ "&page=" +:+ pretty page_number)) s1)).
Proof.
  intros Hnone Hbefore [document Hsoup] Hfail.
  assert (soup_visited s0) as Hs0 by (intros d link; by rewrite Hnone).
  pose proof (soup_visited_scrape_pages pages_before s0 Hs0) as Hs1.
  rewrite Hbefore in Hs1. cbn [result_state] in Hs1.
  apply (scrape_page_stale web page_number s1 document); [done| |done].
  intros link. by apply Hs1.
Qed.

End Visits.

(** ** The ingredient table *)

Section IngredientRows.
Context {Response Status : Type} `{!Scripts Response Status}.
Variable web : nat → string → option Response.
Variable db : event Response Status → option exn.

Abbreviation state := (state Response Status).

Lemma flattened_ingredients_names (l : list (list string)) :
  (flattened_ingredients l).*2 = concat l.
Proof.
  induction l as [|ingredients l IH] using rev_ind; [done|].
  rewrite flattened_ingredients_snoc, fmap_app, IH, concat_app. cbn.
  rewrite app_nil_r. f_equal. rewrite <-list_fmap_compose.
  apply list_fmap_id.
Qed.

Lemma flattened_ingredients_of (l : list (list string)) k ingredients :
  l !! k = Some ingredients →
  filter (λ row, row.1 = Z.of_nat (S k)) (flattened_ingredients l)
  = (λ ingredient, (Z.of_nat (S k), ingredient)) <$> ingredients.
Proof.
  induction l as [|last l IH] using rev_ind; [done|].
  rewrite flattened_ingredients_snoc, filter_app. intros Hk.
  destruct (decide (k < length l)) as [Hlt|Hge].
  - rewrite lookup_app_l in Hk by done. rewrite (IH Hk).
    assert (filter (λ row : Z * string, row.1 = Z.of_nat (S k))
              ((λ ingredient, (Z.of_nat (S (length l)), ingredient)) <$> last)
            = []) as ->; [|by rewrite app_nil_r].
    clear -Hlt. induction last as [|ingredient last IH]; [done|].
    cbn [fmap list_fmap]. rewrite filter_cons, decide_False; [done|]. cbn. lia.
  - rewrite lookup_app_r in Hk by lia.
    destruct (k - length l) as [|?] eqn:E; [|done].
    injection Hk as ->. assert (k = length l) as -> by lia.
    assert (filter (λ row : Z * string, row.1 = Z.of_nat (S (length l)))
              (flattened_ingredients l) = []) as ->.
    { pose proof (flattened_ingredients_ids l) as Hids. revert Hids.
      generalize (flattened_ingredients l). intros rows.
      induction rows as [|[id ingredient] rows IHrows]; intros Hids; [done|].
      rewrite filter_cons, decide_False.
      - apply IHrows. intros id' ingredient' Hin. apply (Hids id' ingredient').
        by right.
      - cbn. specialize (Hids id ingredient ltac:(by left)). lia. }
    cbn [app].
    clear. induction ingredients as [|ingredient ingredients IH]; [done|].
    cbn [fmap list_fmap]. rewrite filter_cons, decide_True by done.
    f_equal. apply IH.
Qed.

(** X12.  The ingredient table of a finished run lists the ingredients
    of the fetched recipes, recipe after recipe in the order of the
    fetches and, within a recipe, in the order of its page, repetitions
    kept: the ingredient column is the concatenation of the ingredient
    lists, there is one identifier per ingredient, and the rows with
    identifier [k] are exactly the ingredients of the [k]-th recipe. *)
Theorem ingredient_rows i n g (s : state) :
  main web db = Finished i n g s →
  let ingredients := (λ p, get_recipe_ingredients p.2) <$> fetched (trace s) in
  df_columns g !! "Ingredient" = Some (Text <$> concat ingredients)
  ∧ df_rows g = length (concat ingredients)
  ∧ ∃ rows,
      rows.*2 = concat ingredients
      ∧ recipe_id_column g = (λ row, Number row.1) <$> rows
      ∧ ∀ k p,
          fetched (trace s) !! k = Some p →
          filter (λ row, row.1 = Z.of_nat (S k)) rows
          = (λ ingredient, (Z.of_nat (S k), ingredient))
              <$> get_recipe_ingredients p.2.
Proof.
  intros (s3 & Ha & _ & Ht & ->)%main_finished. cbv zeta.
  rewrite fetched_load.
  apply transform_inr in Ht as (_ & _ & _ & _ & ->).
  rewrite (aligned_ingredients _ Ha).
  set (ingredients := (λ p, get_recipe_ingredients p.2) <$> fetched (trace s3)).
  pose proof (flattened_ingredients_names ingredients) as Hnames.
  unfold ingredients_frame, recipe_id_column. cbn [df_columns df_rows].
  rewrite lookup_insert_eq, lookup_insert_ne, lookup_singleton_eq by done.
  split; [|split].
  - by rewrite <-Hnames, <-list_fmap_compose.
  - by rewrite <-Hnames, length_fmap.
  - exists (flattened_ingredients ingredients). split; [done|]. split; [done|].
    intros k p Hk. apply flattened_ingredients_of.
    unfold ingredients. by rewrite list_lookup_fmap, Hk.
Qed.

End IngredientRows.

(** ** The listing pages *)

Section Listing.
Context {Response Status : Type} `{!Scripts Response Status}.
Variable web : nat → string → option Response.
Variable db : event Response Status → option exn.

Abbreviation state := (state Response Status).
Abbreviation event := (event Response Status).

Lemma page_requests_app (t1 t2 : list event) :
  page_requests (t1 ++ t2) = page_requests t1 ++ page_requests t2.
Proof. apply omap_app. Qed.

Lemma page_requests_failed_attempts kind url j :
  page_requests (failed_attempts kind url j : list event)
  = replicate (match kind with RecipePage => 0 | _ => j end) (kind, url).
Proof.
  induction j as [|j IH]; [by destruct kind|].
  rewrite failed_attempts_S, page_requests_app, IH.
  by destruct kind.
Qed.

Lemma page_requests_fetch_success kind url j (r : Response) :
  page_requests (fetch_success kind url j r : list event)
  = replicate (match kind with RecipePage => 0 | _ => S j end) (kind, url).
Proof.
  unfold fetch_success.
  rewrite page_requests_app, page_requests_failed_attempts.
  destruct kind; [by rewrite replicate_S_end..|done].
Qed.

Lemma page_requests_fetch_failure kind url :
  page_requests (fetch_failure kind url : list event)
  = replicate (match kind with RecipePage => 0 | _ => max_retries end) (kind, url).
Proof.
  unfold fetch_failure.
  rewrite page_requests_app, page_requests_failed_attempts.
  by destruct kind.
Qed.

Lemma page_requests_visit_links links (s : state) :
  page_requests (trace (fold_left (λ s link, visit_link web link s) links s))
  = page_requests (trace s).
Proof.
  revert s. induction links as [|link links IH]; intros s; [done|].
  cbn [fold_left]. rewrite IH. unfold visit_link. fields.
  rewrite recipe_loop_run.
  destruct (first_response web link (clock s) max_retries) as [[j r]|].
  - unfold record_recipe. destruct (get_recipe_nutritional_values r). fields.
    rewrite !page_requests_app, page_requests_fetch_success. cbn.
    by rewrite !app_nil_r.
  - fields. rewrite !page_requests_app, page_requests_fetch_failure. cbn.
    by rewrite !app_nil_r.
Qed.

(** A page adds between one and three requests for its own URL, whether
    it ends with an exception or not. *)
Lemma page_requests_scrape_page page_number (s : state) :
  ∃ attempts,
    1 ≤ attempts ≤ max_retries
    ∧ page_requests (trace (result_state (scrape_page web page_number s)))
      = page_requests (trace s)
        ++ replicate attempts
             (ListingPage, filtered_page_url +:+ "&page=" +:+ pretty page_number).
Proof.
  unfold scrape_page.
  set (page_url := filtered_page_url +:+ _).
  set (s1 := time_sleep 1 _).
  assert (∃ attempts,
            1 ≤ attempts ≤ max_retries
            ∧ page_requests (trace s1)
              = page_requests (trace s) ++ replicate attempts (ListingPage, page_url))
    as (attempts & Hbound & Hs1).
  { subst s1. fields. rewrite page_loop_run.
    destruct (first_response web page_url (clock s) max_retries) as [[j r]|] eqn:E.
    - apply first_response_bound in E. fields.
      rewrite !page_requests_app, page_requests_fetch_success. cbn [page_requests omap].
      rewrite app_nil_r. exists (S j). split; [lia|done].
    - fields. rewrite !page_requests_app, page_requests_fetch_failure.
      cbn [page_requests omap]. rewrite app_nil_r.
      exists max_retries. split; [unfold max_retries; lia|done]. }
  exists attempts. split; [done|].
  destruct (soup s1); cbn [result_state]; [|done].
  by rewrite page_requests_visit_links.
Qed.

Lemma page_requests_scrape_pages page_list (s s' : state) :
  scrape_pages web page_list s = Ok s' →
  ∃ attempts,
    length attempts = length page_list
    ∧ Forall (λ a, 1 ≤ a ≤ max_retries) attempts
    ∧ page_requests (trace s')
      = page_requests (trace s)
        ++ mjoin (zip_with
                    (λ (page_number : Z) a,
                       replicate a
                         (ListingPage,
                          filtered_page_url +:+ "&page=" +:+ pretty page_number))
                    page_list attempts).
Proof.
  revert s. induction page_list as [|page_number page_list IH]; intros s.
  - intros [= <-]. exists []. by rewrite app_nil_r.
  - cbn [scrape_pages].
    destruct (page_requests_scrape_page page_number s) as (a & Ha & Hpage).
    destruct (scrape_page web page_number s) as [s1|e s1]; [|done].
    cbn [result_state] in Hpage.
    intros (attempts & Hlen & Hall & ->)%IH.
    exists (a :: attempts). split; [by rewrite !length_cons, Hlen|].
    split; [by constructor|].
    rewrite Hpage. cbn [zip_with mjoin list_join]. by rewrite <-app_assoc.
Qed.

(** X13.  When the scraping ends without exception, the search page was
    requested first, until it answered, and then every listing page
    from 1 to the number of pages, in this order, each between one and
    three times in a row; no other page of the search was requested. *)
Theorem listing_pages_in_order (s : state) :
  scrape web = Ok s →
  ∃ j document count pages attempts,
    first_response web filtered_page_url 0 max_retries = Some (j, document)
    ∧ results_count document = inr count
    ∧ number_of_pages count = inr pages
    ∧ length attempts = Z.to_nat pages
    ∧ Forall (λ a, 1 ≤ a ≤ max_retries) attempts
    ∧ page_requests (trace s)
      = replicate (S j) (BasePage, filtered_page_url)
        ++ mjoin (zip_with
                    (λ (page_number : Z) a,
                       replicate a
                         (ListingPage,
                          filtered_page_url +:+ "&page=" +:+ pretty page_number))
                    (seqZ 1 pages) attempts).
Proof.
  unfold scrape. rewrite base_page_loop_run.
  destruct (first_response web filtered_page_url _ max_retries)
    as [[j document]|] eqn:Hfirst; [|done].
  cbv zeta. cbn [base_soup time_sleep log set_base_soup with_io].
  destruct (results_count document) as [e|count] eqn:Hcount; [done|].
  destruct (number_of_pages count) as [e|pages] eqn:Hpages; [done|].
  intros (attempts & Hlen & Hall & Hreq)%page_requests_scrape_pages.
  exists j, document, count, pages, attempts.
  rewrite length_seqZ in Hlen.
  split; [done|]. split; [done|]. split; [done|]. split; [done|]. split; [done|].
  rewrite Hreq. f_equal. cbn [trace time_sleep log set_base_soup with_io initial_state].
  rewrite !page_requests_app, page_requests_fetch_success. cbn [app page_requests omap].
  by rewrite app_nil_r.
Qed.

End Listing.
(** ** Exceptions of the transformation *)

Section FrameErrors.
Context {Response Status : Type} `{!Scripts Response Status}.
Variable web : nat → string → option Response.
Variable db : event Response Status → option exn.

Abbreviation state := (state Response Status).

Lemma pd_DataFrame_inl (data : gmap string (list (cell Status))) e :
  pd_DataFrame data = inl e →
  e = ValueError "All arrays must be of the same length"
  ∧ ∃ name name' column column',
      data !! name = Some column ∧ data !! name' = Some column'
      ∧ length column ≠ length column'.
Proof.
  unfold pd_DataFrame.
  destruct (map_to_list data) as [|[name0 column0] rest] eqn:E; [done|].
  case_decide as Hall; [done|]. intros [= <-]. split; [done|].
  apply map_not_Forall in Hall; [|apply _].
  destruct Hall as (name & column & Hlookup & Hne).
  exists name, name0, column, column0. split; [done|]. split; [|done].
  apply elem_of_map_to_list. rewrite E. by left.
Qed.

Lemma recipe_info_data_recipe_id (s : state) :
  recipe_info_data s !! "recipe_id"
  = (λ column : list Status, Flag <$> column)
      <$> recipe_category_information s !! "recipe_id".
Proof.
  unfold recipe_info_data. cbv zeta. rewrite lookup_union, lookup_fmap.
  rewrite lookup_insert_ne, lookup_insert_ne, lookup_singleton_ne by done.
  by destruct (recipe_category_information s !! "recipe_id").
Qed.

(** X14.  Why a run stops after the scraping has ended without
    exception.  Either the recipe table cannot be built, which is a
    [ValueError] raised before any database call: two of its columns
    differ in length, or a category is named [recipe_id] and the
    identifier column cannot be inserted.  Or the three frames were
    built and a database call of the load raised the exception.  The
    nutrition frame and the ingredient frame never raise. *)
Theorem transform_aborts (s s' : state) e :
  scrape web = Ok s →
  main web db = Aborted e s' →
  (s' = s
   ∧ transform s = inl e
   ∧ ((e = ValueError "All arrays must be of the same length"
       ∧ ∃ name name' column column',
           recipe_info_data s !! name = Some column
           ∧ recipe_info_data s !! name' = Some column'
           ∧ length column ≠ length column')
      ∨ (e = ValueError "cannot insert recipe_id, already exists"
         ∧ is_Some (recipe_category_information s !! "recipe_id"))))
  ∨ ∃ i n g k call,
      transform s = inr (i, n, g)
      ∧ load_calls i n g !! k = Some call
      ∧ db call = Some e
      ∧ s' = logged (take (S k) (load_calls i n g)) s.
Proof.
  intros Hscrape. rewrite main_scrape, Hscrape.
  destruct (transform s) as [e0|[[i n] g]] eqn:Ht.
  - intros [= <- <-]. left. split; [done|]. split; [done|].
    revert Ht. unfold transform, mbind, exn_bind.
    destruct (nutrition_frame (Status := Status) (recipe_nutritional_data s))
      as (final & -> & _ & _ & -> & Hfid).
    pose proof (recipe_info_data_recipe_id s) as Hid.
    destruct (pd_DataFrame (recipe_info_data s)) as [e1|i0] eqn:Hi0.
    + apply pd_DataFrame_inl in Hi0 as [-> Hdiffer]. intros [= <-]. by left.
    + apply pd_DataFrame_inr in Hi0 as [Hcols _].
      destruct (insert_recipe_id i0) as [e1|i1] eqn:Hi1;
        unfold insert_recipe_id in Hi1; rewrite Hcols, Hid in Hi1;
        destruct (recipe_category_information s !! "recipe_id") as [column|] eqn:Hcat;
        cbn [fmap option_fmap option_map] in Hi1; simplify_eq.
      * intros [= <-]. right. split; [done|by eexists].
      * unfold insert_recipe_id. cbn [df_columns df_rows].
        rewrite lookup_fmap, Hfid. cbn [fmap option_fmap option_map]. done.
  - destruct (first_failure db (load_calls i n g)) as [[k e1]|] eqn:Hfail; [|done].
    intros Heq. injection Heq as <- <-. right.
    apply first_failure_Some in Hfail as [(call & Hcall & Hraises) _].
    by exists i, n, g, k, call.
Qed.


End FrameErrors.
(** ** Recipe identifiers *)

Section Identifiers.
Context {Response Status : Type} `{!Scripts Response Status}.
Variable web : nat → string → option Response.
Variable db : event Response Status → option exn.

Abbreviation state := (state Response Status).
Abbreviation event := (event Response Status).

(** The identifiers of the ingredient rows: the number of each recipe,
    once for each of its ingredients. *)
Lemma flattened_ingredients_identifiers (l : list (list string)) :
  (flattened_ingredients l).*1
  = concat (imap (λ k ingredients,
                    replicate (length ingredients) (Z.of_nat (S k))) l).
Proof.
  induction l as [|ingredients l IH] using rev_ind; [done|].
  rewrite flattened_ingredients_snoc, fmap_app, IH, imap_app, concat_app.
  f_equal. cbn. rewrite app_nil_r, Nat.add_0_r.
  generalize (Z.of_nat (S (length l))). intros id. clear.
  induction ingredients as [|ingredient ingredients IH]; [done|].
  cbn. by rewrite <-IH.
Qed.

(** The frames depend on the recipe data only. *)
Lemma transform_same_recipe_data (s s' : state) :
  same_recipe_data s s' → transform s' = transform s.
Proof.
  intros (Hn & Hl & Ht & Hd & Hc & Hi).
  unfold transform, recipe_info_data. by rewrite Hn, Hl, Ht, Hd, Hc, Hi.
Qed.

(** C5, as amended.  A link whose three requests fail changes none of
    the recipe lists, fetches nothing, leaves the frames that will be
    built as they were, and is appended to the visited list; a link with
    no successful request is not among the recorded links; and no recipe
    fetch makes the page loop raise.  In a run that finishes, the three
    frames appended to the database are these: the nutrition table has
    one row per recipe fetched, with the identifiers 1, 2, ... in the
    order of the fetches; so has the recipe table, provided that one of
    the three fixed column names is not a category key; the link column
    of the recipe table, when [RecipeLink] is not a category key, lists
    the links of the fetched recipes in that order; the ingredient table
    lists the ingredients of the fetched recipes, each with the number
    of its recipe; and a link with no successful request is in the link
    column of no table. *)
Theorem recipe_identifiers :
  (∀ link (s : state),
     (∀ i, i < max_retries → web (i + clock s) link = None) →
     same_recipe_data s (visit_link web link s)
     ∧ fetched (trace (visit_link web link s)) = fetched (trace s)
     ∧ transform (visit_link web link s) = transform s
     ∧ used_recipe_links (visit_link web link s) = used_recipe_links s ++ [link])
  ∧ (∀ link,
       (∀ r, Some r ∉ recipe_requests link (trace (final_state (main web db)))) →
       link ∉ successful_links (final_state (main web db)))
  ∧ (∀ page_number (s s' : state) e,
       scrape_page web page_number s = Raise e s' → e = NameError "soup")
  ∧ (∀ i n g (s : state),
       main web db = Finished i n g s →
       let recipes := fetched (trace s) in
       let ingredients := (λ p, get_recipe_ingredients p.2) <$> recipes in
       database_calls (trace s)
       = [Begin; Execute "DELETE FROM ingredients";
          Execute "DELETE FROM nutrition"; Execute "DELETE FROM recipe_info";
          Commit; ToSql "recipe_info" i; ToSql "nutrition" n;
          ToSql "ingredients" g; Dispose]
       ∧ df_rows n = length recipes
       ∧ recipe_id_column n = Number <$> seqZ 1 (Z.of_nat (length recipes))
       ∧ recipe_id_column i = Number <$> seqZ 1 (Z.of_nat (df_rows i))
       ∧ (∀ name,
            name ∈ ["RecipeName"; "RecipeLink"; "CookingTime"] →
            recipe_category_information s !! name = None →
            df_rows i = length recipes
            ∧ recipe_id_column i = Number <$> seqZ 1 (Z.of_nat (length recipes)))
       ∧ successful_links s = recipes.*1
       ∧ (recipe_category_information s !! "RecipeLink" = None →
          df_columns i !! "RecipeLink" = Some (Text <$> recipes.*1))
       ∧ df_rows g = length (concat ingredients)
       ∧ df_columns g !! "Ingredient" = Some (Text <$> concat ingredients)
       ∧ recipe_id_column g
         = Number
             <$> concat (imap (λ k ingredients,
                                 replicate (length ingredients) (Z.of_nat (S k)))
                           ingredients)
       ∧ (∀ link,
            (∀ r, Some r ∉ recipe_requests link (trace s)) →
            (link ∉ recipes.*1)
            ∧ ∀ column,
                df_columns i !! "RecipeLink" = Some column → Text link ∉ column)).
Proof.
  split; [|split; [|split]].
  - intros link s Hfail. rewrite visit_link_failed by done.
    split; [by repeat split|]. split; [|split; [|done]].
    + fields. by rewrite !fetched_app, fetched_fetch_failure, !app_nil_r.
    + by apply transform_same_recipe_data.
  - intros link Hnone. rewrite (aligned_links _ (aligned_main web db)).
    intros ([link' r] & -> & Hin)%list_elem_of_fmap.
    by apply (Hnone r), fetched_recipe_requests.
  - intros page_number s s' e Hraise. by apply scrape_page_raises in Hraise as [-> _].
  - intros i n g s (s3 & Ha & Hdb & Ht & ->)%main_finished. cbv zeta.
    rewrite load_trace, database_calls_app, Hdb, fetched_app, app_nil_r.
    rewrite successful_logged.
    change (recipe_category_information (logged (load_calls i n g) s3))
      with (recipe_category_information s3).
    pose proof (recipe_info_rows i n g s3) as Hrows.
    specialize (λ name, Hrows name Ha Ht).
    pose proof Ht as (Hci & Hfree & _)%transform_columns.
    apply transform_inr in Ht as (Hn & Hidn & Hidi & _ & ->).
    destruct (aligned_lengths s3 Ha) as (_ & _ & _ & Lnu & _).
    rewrite (aligned_ingredients _ Ha).
    set (recipes := fetched (trace s3)) in *.
    set (ingredients := (λ p, get_recipe_ingredients p.2) <$> recipes).
    assert (∀ link,
              (∀ r, Some r ∉ recipe_requests link
                               (trace s3
                                ++ [Begin; Execute "DELETE FROM ingredients";
                                    Execute "DELETE FROM nutrition";
                                    Execute "DELETE FROM recipe_info"; Commit;
                                    ToSql "recipe_info" i; ToSql "nutrition" n;
                                    ToSql "ingredients"
                                      (ingredients_frame
                                         (flattened_ingredients ingredients));
                                    Dispose])) →
              link ∉ recipes.*1) as Habsent.
    { intros link Hnone ([link' r] & -> & Hin)%list_elem_of_fmap.
      apply (Hnone r). rewrite recipe_requests_app. apply elem_of_app. left.
      by apply fetched_recipe_requests. }
    split; [done|]. split; [lia|]. split; [by rewrite Hidn, Hn, Lnu|].
    split; [done|].
    split; [intros name Hname Hnot; by rewrite Hidi, (Hrows name)|].
    split; [apply (aligned_links _ Ha)|].
    assert (∀ column,
              df_columns i !! "RecipeLink" = Some column →
              column = Text <$> recipes.*1
              ∨ ∃ statuses, column = Flag <$> statuses) as Hlinks.
    { intros column. rewrite Hci, lookup_insert_ne by done.
      unfold recipe_info_data. cbv zeta. rewrite lookup_union_Some_raw, lookup_fmap.
      intros [Hcategory|[_ Hfixed]].
      - destruct (recipe_category_information s3 !! "RecipeLink") as [statuses|];
          [|done]. injection Hcategory as <-. right. by exists statuses.
      - rewrite lookup_insert_ne, lookup_insert_eq in Hfixed by done.
        injection Hfixed as <-. left. by rewrite (aligned_links _ Ha). }
    split.
    { intros Hnot. rewrite Hci, lookup_insert_ne by done.
      unfold recipe_info_data. cbv zeta.
      rewrite lookup_union_r by (by rewrite lookup_fmap, Hnot).
      rewrite lookup_insert_ne, lookup_insert_eq by done.
      by rewrite (aligned_links _ Ha). }
    pose proof (flattened_ingredients_names ingredients) as Hnames.
    pose proof (flattened_ingredients_identifiers ingredients) as Hids.
    unfold ingredients_frame, recipe_id_column. cbn [df_columns df_rows].
    rewrite lookup_insert_eq, lookup_insert_ne, lookup_singleton_eq by done.
    split; [by rewrite <-Hnames, length_fmap|].
    split; [by rewrite <-Hnames, <-list_fmap_compose|].
    split; [by rewrite <-Hids, <-list_fmap_compose|].
    intros link Hnone. split; [by apply Habsent|].
    intros column [->|[statuses ->]]%Hlinks.
    + intros (link' & [= <-] & Hin)%list_elem_of_fmap. by apply (Habsent link).
    + by intros (status & ? & _)%list_elem_of_fmap.
Qed.

End Identifiers.
(** * The runs of the concrete site *)

Import Site.

(** C3.  The first listing page cannot be fetched: after three attempts
    the script reads the unbound [soup] and stops with a [NameError],
    before any recipe is requested and without touching the database. *)
Theorem first_page_failure_aborts :
  match main web_page_down db_up with
  | Aborted e s =>
      e = NameError "soup"
      ∧ requests (trace s)
        = [(BasePage, filtered_page_url); (ListingPage, page1);
           (ListingPage, page1); (ListingPage, page1)]
      ∧ database_calls (trace s) = []
  | Finished _ _ _ _ => False
  end.
Proof. vm_compute. repeat split; reflexivity. Qed.

Lemma row_counts_agree_witness :
  match main web_two db_up with
  | Finished i n g s => df_rows i = df_rows n ∧ df_rows n = 2
  | Aborted _ _ => False
  end.
Proof.
  destruct (main web_two db_up) as [i n g s|e s] eqn:E; [|by vm_compute in E].
  assert (s = final_state (main web_two db_up)) as Hs by (by rewrite E).
  destruct (row_counts_agree web_two db_up i n g s "RecipeName") as (Hrows & Hfetched & _).
  - exact E.
  - apply list_elem_of_here.
  - rewrite Hs. vm_compute. reflexivity.
  - split; [exact Hrows|]. rewrite Hfetched, Hs. vm_compute. reflexivity.
Defined.

(** C1, as stated, fails when one recipe of two has categories named
    like the three fixed columns: the run finishes with one row in the
    recipe table, two in the nutrition table, and an ingredient row
    whose identifier is 2. *)
Lemma row_counts_disagree :
  match main web_collision db_up with
  | Finished i n g s =>
      df_rows i = 1 ∧ df_rows n = 2
      ∧ recipe_id_column g = [Number 1; Number 2]
  | Aborted _ _ => False
  end.
Proof. vm_compute. repeat split; reflexivity. Qed.

Lemma category_columns_skew_witness :
  ∃ column,
    recipe_category_information (final_state (main web_skew db_up)) !! "Vegan"
    = Some column
    ∧ 0 < length column < length (recipe_names (final_state (main web_skew db_up))).
Proof.
  apply (proj2 (proj2 (proj2 (category_columns_skew web_skew db_up "Vegan")))
           ("c", soup_c) ("a", soup_a)).
  - apply list_elem_of_lookup. exists 1. vm_compute. reflexivity.
  - apply list_elem_of_lookup. exists 0. vm_compute. reflexivity.
  - vm_compute. reflexivity.
  - exists "yes". vm_compute. reflexivity.
Defined.

Lemma visited_links_not_refetched_witness :
  recipe_requests "a"
    (trace (result_state (scrape_pages web_two [1%Z; 2%Z] after_two)))
  = recipe_requests "a" (trace after_two)
  ∧ NoDup (used_recipe_links (final_state (main web_pages db_up))).
Proof.
  split.
  - apply (proj1 (visited_links_not_refetched web_two db_up)).
    apply list_elem_of_lookup. exists 0. vm_compute. reflexivity.
  - apply (proj2 (visited_links_not_refetched web_pages db_up)).
    intros document Hin.
    assert (listings (trace (final_state (main web_pages db_up)))
            = [listing 45 ["a"; "b"]; listing 45 ["b"; "e"]]) as Hlistings
      by (vm_compute; reflexivity).
    rewrite Hlistings in Hin.
    apply elem_of_cons in Hin as [->|Hin];
      [|apply list_elem_of_singleton in Hin as ->];
      apply (bool_decide_unpack _); vm_compute; exact I.
Defined.

(** C4, as stated, fails when a listing page names a link twice: the
    link is fetched, recorded and marked visited twice. *)
Lemma repeated_link_fetched_twice :
  used_recipe_links (final_state (main web_repeat db_up)) = ["a"; "a"]
  ∧ recipe_requests "a" (trace (final_state (main web_repeat db_up)))
    = [Some soup_a; Some soup_a]
  ∧ recipe_names (final_state (main web_repeat db_up)) = ["A"; "A"].
Proof. split; [|split]; vm_compute; reflexivity. Qed.

Lemma recipe_identifiers_witness :
  (used_recipe_links (visit_link web_one_down "x" initial_state) = ["x"]
   ∧ fetched (trace (visit_link web_one_down "x" initial_state)) = [])
  ∧ ("x" ∉ successful_links (final_state (main web_one_down db_up)))
  ∧ (match main web_one_down db_up with
     | Finished i n g s =>
         df_rows n = 2 ∧ df_rows i = 2
         ∧ recipe_id_column i = [Number 1; Number 2]
         ∧ df_columns i !! "RecipeLink" = Some [Text "a"; Text "b"]
         ∧ recipe_id_column g = [Number 1; Number 1; Number 2]
         ∧ database_calls (trace s) !! 5 = Some (ToSql "recipe_info" i)
     | Aborted _ _ => False
     end).
Proof.
  destruct (recipe_identifiers web_one_down db_up)
    as (Hfailed & Habsent & _ & Hfinished).
  split; [|split].
  - destruct (Hfailed "x" initial_state) as (_ & Hf & _ & Hu).
    + intros i _. vm_compute. reflexivity.
    + split; [exact Hu|exact Hf].
  - apply Habsent. intros r. vm_compute.
    intros Hin. repeat (inversion Hin as [|? ? ? Hin']; clear Hin; rename Hin' into Hin).
  - destruct (main web_one_down db_up) as [i n g s|e s] eqn:E; [|by vm_compute in E].
    assert (s = final_state (main web_one_down db_up)) as Hs by (by rewrite E).
    destruct (Hfinished i n g s eq_refl)
      as (Hcalls & Hn & _ & _ & Hi & _ & Hlinks & _ & _ & Hids & _).
    assert (recipe_category_information s !! "RecipeLink" = None) as Hfree
      by (rewrite Hs; vm_compute; reflexivity).
    destruct (Hi "RecipeLink") as [Hrows Hidi];
      [apply list_elem_of_further, list_elem_of_here|exact Hfree|].
    split; [rewrite Hn, Hs; vm_compute; reflexivity|].
    split; [rewrite Hrows, Hs; vm_compute; reflexivity|].
    split; [rewrite Hidi, Hs; vm_compute; reflexivity|].
    split; [rewrite (Hlinks Hfree), Hs; vm_compute; reflexivity|].
    split; [rewrite Hids, Hs; vm_compute; reflexivity|].
    rewrite Hcalls. reflexivity.
Defined.

(** C5, as stated, fails when a recipe has categories named like the
    three fixed columns: two recipes are fetched and recorded, the run
    finishes and loads its tables, and the recipe table has one row with
    the identifier 1 for the two recipes. *)
Lemma recipes_share_identifier :
  match main web_collision db_up with
  | Finished i n g s =>
      successful_links s = ["d"; "c"]
      ∧ recipe_id_column i = [Number 1]
      ∧ recipe_id_column n = [Number 1; Number 2]
      ∧ database_calls (trace s) !! 5 = Some (ToSql "recipe_info" i)
  | Aborted _ _ => False
  end.
Proof. vm_compute. repeat split; reflexivity. Qed.

Lemma load_order_witness :
  match main web_two db_up with
  | Finished i n g s =>
      database_calls (trace s)
      = [Begin; Execute "DELETE FROM ingredients"; Execute "DELETE FROM nutrition";
         Execute "DELETE FROM recipe_info"; Commit;
         ToSql "recipe_info" i; ToSql "nutrition" n; ToSql "ingredients" g;
         Dispose]
  | Aborted _ _ => False
  end.
Proof.
  destruct (main web_two db_up) as [i n g s|e s] eqn:E; [|by vm_compute in E].
  apply (proj1 (load_order web_two db_up i n g s E)).
Defined.

Lemma fetch_attempts_bounded_witness :
  first_response web_slow filtered_page_url 0 max_retries
  = Some (2, listing 2 [])
  ∧ 2 < 3.
Proof.
  split; [vm_compute; reflexivity|].
  apply (proj1 (fetch_attempts_bounded web_slow initial_state filtered_page_url)
           2 (listing 2 [])).
  vm_compute. reflexivity.
Defined.

(** The run over [web_slow]: two failed attempts, each followed by the
    wait, and the third attempt succeeds. *)
Example slow_site_trace :
  take 5 (trace (final_state (main web_slow db_up)))
  = [Get BasePage filtered_page_url None; Sleep 5;
     Get BasePage filtered_page_url None; Sleep 5;
     Get BasePage filtered_page_url (Some (listing 2 []))].
Proof. vm_compute. reflexivity. Qed.

(** Two listing pages: the link named again on the second page is
    requested once, and the three recipes get the identifiers 1 to 3. *)
Example second_page_skips_visited :
  match main web_pages db_up with
  | Finished i n g s =>
      requests (trace s)
      = [(BasePage, filtered_page_url); (ListingPage, page1);
         (RecipePage, "a"); (RecipePage, "b"); (ListingPage, page2);
         (RecipePage, "e")]
      ∧ used_recipe_links s = ["a"; "b"; "e"]
      ∧ recipe_id_column i = [Number 1; Number 2; Number 3]
      ∧ recipe_id_column n = [Number 1; Number 2; Number 3]
      ∧ recipe_id_column g = [Number 1; Number 1; Number 2; Number 3]
  | Aborted _ _ => False
  end.
Proof. vm_compute. repeat split; reflexivity. Qed.


(** ** The further properties on the concrete site *)

Lemma requests_paced_witness :
  trace (final_state (main web_one_down db_up)) !! 11 = Some (Sleep 1).
Proof.
  destruct (requests_paced web_one_down db_up 10 RecipePage "x" None)
    as [[Hretry _]|[(_ & Hwait & _)|(Hkind & _)]].
  - vm_compute. reflexivity.
  - vm_compute in Hretry. discriminate Hretry.
  - exact Hwait.
  - discriminate Hkind.
Defined.

Lemma aborted_database_calls_witness :
  match main web_two db_no_nutrition with
  | Aborted e s =>
      database_calls (trace s)
      = [Begin; Execute "DELETE FROM ingredients"; Execute "DELETE FROM nutrition"]
  | Finished _ _ _ _ => False
  end.
Proof.
  destruct (main web_two db_no_nutrition) as [i n g s|e s] eqn:E;
    [by vm_compute in E|].
  assert (s = final_state (main web_two db_no_nutrition)) as Hs by (by rewrite E).
  destruct (aborted_database_calls web_two db_no_nutrition e s E)
    as [[Hnone _]|(s3 & i & n & g & k & call & _ & _ & Hcall & Hraises & _ & ->)].
  - rewrite Hs in Hnone. vm_compute in Hnone. discriminate Hnone.
  - destruct k as [|[|[|[|[|[|[|[|[|k]]]]]]]]]; cbn in Hcall;
      try discriminate Hcall; injection Hcall as <-;
      vm_compute in Hraises; try discriminate Hraises.
    reflexivity.
Defined.

Lemma no_results_empties_tables_witness :
  ∃ i n g s,
    main web_empty db_up = Finished i n g (logged (load_calls i n g) s)
    ∧ df_rows i = 0 ∧ df_rows n = 0 ∧ df_rows g = 0
    ∧ requests (trace s) = [(BasePage, filtered_page_url)].
Proof.
  destruct (no_results_empties_tables web_empty db_up 0 (listing 0 []) 0)
    as (i & n & g & s & _ & Hreq & _ & _ & Hi & Hn & Hg & Hmain & _).
  - vm_compute. reflexivity.
  - reflexivity.
  - split; [vm_compute; reflexivity|lia].
  - exists i, n, g, s. rewrite Hreq.
    split; [apply Hmain; intros call _; reflexivity|].
    split; [exact Hi|]. split; [exact Hn|]. split; [exact Hg|reflexivity].
Defined.

Lemma nutrition_frame_builds_witness :
  ∃ final,
    final_nutrition_dict
      (clean_recipe_nutritional_values
         [{["fat" := Some "12g"; "kcal" := Some "250"]}]) = inr final
    ∧ final !! "Fat(g)" = Some [Some "12"]
    ∧ final !! "fat" = None.
Proof.
  destruct (nutrition_frame_builds (Status := string)
              [{["fat" := Some "12g"; "kcal" := Some "250"]}])
    as (final & df & df' & Hfinal & _ & _ & _ & _ & Hin & Hout).
  exists final. split; [exact Hfinal|]. split.
  - rewrite (proj1 (Hin "fat" "Fat(g)" eq_refl)). vm_compute. reflexivity.
  - destruct (final !! "fat") as [column|] eqn:E; [|reflexivity].
    destruct (Hout "fat" (mk_is_Some _ _ E)) as (key & Hkey).
    exfalso. unfold final_nutrition_names in Hkey.
    apply elem_of_list_to_map_2 in Hkey.
    repeat (apply elem_of_cons in Hkey as [Heq|Hkey]; [by simplify_eq|]).
    by apply elem_of_nil in Hkey.
Defined.

Lemma rows_describe_recipes_witness :
  match main web_two db_up with
  | Finished i n g s =>
      recipe_id_column n !! 1 = Some (Number 2%Z)
      ∧ ∃ column,
          df_columns i !! "RecipeName" = Some column
          ∧ column !! 1 = Some (Text "B")
  | Aborted _ _ => False
  end.
Proof.
  destruct (main web_two db_up) as [i n g s|e s] eqn:E; [|by vm_compute in E].
  assert (s = final_state (main web_two db_up)) as Hs by (by rewrite E).
  destruct (rows_describe_recipes web_two db_up i n g s 1 "b" soup_b E)
    as (Hid & _ & Hfixed).
  - rewrite Hs. vm_compute. reflexivity.
  - split; [exact Hid|].
    destruct (Hfixed "RecipeName") as [_ Hcolumn].
    + apply list_elem_of_here.
    + rewrite Hs. vm_compute. reflexivity.
    + exact Hcolumn.
Defined.

Lemma finished_categories_complete_witness :
  match main web_two db_up with
  | Finished i n g s =>
      df_columns i !! "Vegan" = Some [Flag "yes"; Flag "no"]
  | Aborted _ _ => False
  end.
Proof.
  destruct (main web_two db_up) as [i n g s|e s] eqn:E; [|by vm_compute in E].
  assert (s = final_state (main web_two db_up)) as Hs by (by rewrite E).
  destruct (finished_categories_complete web_two db_up i n g s
              "RecipeName" "Vegan" ["yes"; "no"] E) as [Hcolumn _].
  - apply list_elem_of_here.
  - rewrite Hs. vm_compute. reflexivity.
  - rewrite Hs. vm_compute. reflexivity.
  - exact Hcolumn.
Defined.

Lemma same_categories_finish_witness :
  ∃ i n g,
    main web_two db_up
    = Finished i n g (logged (load_calls i n g) (result_state (scrape web_two)))
    ∧ df_rows i = 2 ∧ df_rows n = 2.
Proof.
  assert (fetched (trace (result_state (scrape web_two)))
          = [("a", soup_a); ("b", soup_b)]) as Hfetched
    by (vm_compute; reflexivity).
  assert (∀ p category,
            p ∈ [("a", soup_a); ("b", soup_b)] →
            (is_Some (get_recipe_categories p.2 !! category) ↔ category = "Vegan"))
    as Hvegan.
  { intros p category Hp.
    assert (p = ("a", soup_a) ∨ p = ("b", soup_b)) as [->| ->].
    { apply elem_of_cons in Hp as [?|Hp]; [by left|right].
      by apply list_elem_of_singleton in Hp. }
    - cbn. rewrite lookup_insert_is_Some, lookup_empty.
      split; [intros [?|[_ [? ?]]]; done|by left].
    - cbn. rewrite lookup_insert_is_Some, lookup_empty.
      split; [intros [?|[_ [? ?]]]; done|by left]. }
  destruct (same_categories_finish web_two db_up (result_state (scrape web_two)))
    as (i & n & g & _ & Hi & Hn & Hmain).
  - vm_compute. reflexivity.
  - rewrite Hfetched. intros p q category Hp Hq.
    rewrite (Hvegan p category Hp), (Hvegan q category Hq). exact id.
  - rewrite Hfetched. intros p Hp.
    apply eq_None_not_Some. rewrite (Hvegan p "recipe_id" Hp). discriminate.
  - exists i, n, g. rewrite Hfetched in Hi, Hn.
    split; [apply Hmain; intros call _; reflexivity|].
    split; [exact Hi|exact Hn].
Defined.

Lemma visit_records_once_witness :
  recipe_names (visit_link web_two "a" initial_state) = ["A"]
  ∧ used_recipe_links (visit_link web_two "a" initial_state) = ["a"]
  ∧ recipe_category_information (visit_link web_two "a" initial_state) !! "Vegan"
    = Some ["yes"].
Proof.
  destruct (visit_records_once web_two "a" initial_state 0 soup_a)
    as (_ & _ & Hnames & _ & _ & _ & _ & Hcategories & Hused & _).
  - vm_compute. reflexivity.
  - split; [exact Hnames|]. split; [exact Hused|].
    rewrite (Hcategories "Vegan"). vm_compute. reflexivity.
Defined.

Lemma new_links_unvisited_witness :
  used_recipe_links (result_state (scrape_page web_pages 2 after_two))
  = ["a"; "b"; "e"].
Proof.
  destruct (new_links_unvisited web_pages 2 after_two
              (result_state (scrape_page web_pages 2 after_two)))
    as (document & Hsoup & Hused & _).
  - vm_compute. reflexivity.
  - vm_compute in Hsoup. injection Hsoup as <-.
    rewrite Hused. vm_compute. reflexivity.
Defined.

Lemma later_page_failure_skipped_witness :
  used_recipe_links
    (result_state
       (scrape_page web_second_down 2
          (result_state (scrape_pages web_second_down [1%Z] initial_state))))
  = ["a"; "b"].
Proof.
  rewrite (later_page_failure_skipped web_second_down [1%Z] 2 initial_state
             (result_state (scrape_pages web_second_down [1%Z] initial_state))).
  - vm_compute. reflexivity.
  - reflexivity.
  - vm_compute. reflexivity.
  - eexists. vm_compute. reflexivity.
  - intros i _. vm_compute. reflexivity.
Defined.

Lemma ingredient_rows_witness :
  match main web_two db_up with
  | Finished i n g s =>
      df_columns g !! "Ingredient"
      = Some [Text "flour"; Text "water"; Text "salt"]
      ∧ df_rows g = 3
  | Aborted _ _ => False
  end.
Proof.
  destruct (main web_two db_up) as [i n g s|e s] eqn:E; [|by vm_compute in E].
  assert (s = final_state (main web_two db_up)) as Hs by (by rewrite E).
  destruct (ingredient_rows web_two db_up i n g s E) as (Hcolumn & Hrows & _).
  rewrite Hcolumn, Hrows, Hs. split; vm_compute; reflexivity.
Defined.


Lemma listing_pages_in_order_witness :
  ∃ first second,
    page_requests (trace (result_state (scrape web_pages)))
    = [(BasePage, filtered_page_url)]
      ++ replicate first (ListingPage, page1)
      ++ replicate second (ListingPage, page2).
Proof.
  destruct (listing_pages_in_order web_pages (result_state (scrape web_pages)))
    as (j & document & count & pages & attempts
        & Hfirst & Hcount & Hpages & Hlen & _ & Hrequests).
  - vm_compute. reflexivity.
  - vm_compute in Hfirst. injection Hfirst as <- <-.
    vm_compute in Hcount. injection Hcount as <-.
    vm_compute in Hpages. injection Hpages as <-.
    destruct attempts as [|first [|second [|? ?]]]; try discriminate Hlen.
    exists first, second. rewrite Hrequests. cbn [replicate app].
    f_equal. rewrite <-(app_nil_r (replicate second (ListingPage, page2))).
    reflexivity.
Defined.

Lemma transform_aborts_witness :
  match main web_skew db_up with
  | Aborted e s => e = ValueError "All arrays must be of the same length"
  | Finished _ _ _ _ => False
  end.
Proof.
  destruct (main web_skew db_up) as [i n g s|e s] eqn:E; [by vm_compute in E|].
  destruct (transform_aborts web_skew db_up (result_state (scrape web_skew)) s e)
    as [(_ & _ & [[He _]|[_ [column Hcolumn]]])
       |(i & n & g & k & call & _ & _ & Hraises & _)].
  - vm_compute. reflexivity.
  - exact E.
  - exact He.
  - vm_compute in Hcolumn. discriminate Hcolumn.
  - discriminate Hraises.
Defined.

